(** * LinkMatch: the confidential score ledger and its client workflows

    A shallow embedding of
    - the [LinkMatch] Solidity contract (the score ledger), and
    - the [useLinkMatch] React hook (score submission and decryption
      workflows),
    together with the properties the specification states about them;
    then the rest of the hook (which deployment it talks to, the refresh
    of the player's handle, the leaderboard) and the board of the game
    component, with further properties of the code. *)

From Stdlib Require Import ZArith NArith List String Lia Permutation Floats.
From Stdlib Require Import DecimalString DecimalN.
From stdpp Require Import gmap strings list fin_maps.

Local Open Scope string_scope.
Local Open Scope list_scope.

(** ** Outcome of a contract call: a value, or a revert with its reason. *)

Inductive result (A : Type) : Type :=
| Ok (a : A)
| Revert (reason : string).
Arguments Ok {A} a.
Arguments Revert {A} reason.

(** Solidity value types.  [address] is a 160-bit word, [euint32] and
    [externalEuint32] are [bytes32] handles, [uint256] a 256-bit word; none
    of the code below does arithmetic that could wrap, so they are kept as
    [N]. *)
Abbreviation address := N (only parsing).
Abbreviation euint32 := N (only parsing).
Abbreviation externalEuint32 := N (only parsing).
Abbreviation uint256 := N (only parsing).
Abbreviation bytes := (list N) (only parsing).

(** ** The contract *)

Module LinkMatch.

(** [struct EncryptedGameResult]. *)
Record EncryptedGameResult : Type := mkResult {
  score : euint32;
  player : address;
  timestamp : uint256;
}.

(** The value a Solidity mapping returns for a key never written. *)
Definition zero_result : EncryptedGameResult := mkResult 0 0 0.

Inductive event : Type :=
| GameResultSubmitted (player : address) (timestamp : uint256)
| LeaderboardUpdated.

(** Contract storage.  The access-control list of the encrypted-value
    backend is kept with it: [(h, a) ∈ acl] says that principal [a] may
    request decryption of handle [h].  [events] is the log, oldest first. *)
Record state : Type := mkState {
  playerResults : gmap N EncryptedGameResult;
  players : list address;
  hasSubmitted : gmap N bool;
  acl : gset (N * N);
  events : list event;
}.

(** Storage right after deployment. *)
Definition init : state := mkState ∅ [] ∅ ∅ [].

(** Mapping reads: a missing key reads as the zero value. *)
Definition playerResults_at (st : state) (a : address) : EncryptedGameResult :=
  default zero_result (playerResults st !! a).

Definition hasSubmitted_at (st : state) (a : address) : bool :=
  default false (hasSubmitted st !! a).

(** A transaction calling [submitGameResult]: [msg.sender],
    [block.timestamp] and the two arguments. *)
Record call : Type := mkCall {
  msg_sender : address;
  block_timestamp : uint256;
  encryptedScore : externalEuint32;
  scoreProof : bytes;
}.

Section Contract.

(** [address(this)]. *)
Variable this : address.

(** The encrypted-value backend ([FHE] library), which is not part of the
    repository: [FHE.fromExternal] checks the proof of an external
    ciphertext for the calling account and yields its handle or reverts
    ([None]); [FHE.max] yields the handle of the maximum. *)
Variable fromExternal : address -> externalEuint32 -> bytes -> option euint32.
Variable FHE_max : euint32 -> euint32 -> euint32.

(** [FHE.allow(h, a)] and [FHE.allowThis(h)]. *)
Definition allow (h : euint32) (a : address) (st : state) : state :=
  mkState (playerResults st) (players st) (hasSubmitted st)
          ({[ (h, a) ]} ∪ acl st) (events st).

Definition allowThis (h : euint32) (st : state) : state := allow h this st.

Definition push_player (a : address) (st : state) : state :=
  mkState (playerResults st) (players st ++ [a]) (hasSubmitted st)
          (acl st) (events st).

Definition set_hasSubmitted (a : address) (b : bool) (st : state) : state :=
  mkState (playerResults st) (players st) (<[a := b]> (hasSubmitted st))
          (acl st) (events st).

Definition set_playerResult (a : address) (r : EncryptedGameResult)
    (st : state) : state :=
  mkState (<[a := r]> (playerResults st)) (players st) (hasSubmitted st)
          (acl st) (events st).

Definition emit (e : event) (st : state) : state :=
  mkState (playerResults st) (players st) (hasSubmitted st)
          (acl st) (events st ++ [e]).

(** [function submitGameResult(externalEuint32, bytes) external]. *)
Definition submitGameResult (st : state) (c : call) : result state :=
  let sender := msg_sender c in
  match fromExternal sender (encryptedScore c) (scoreProof c) with
  | None => Revert "FHE.fromExternal: invalid input proof"
  | Some newScore =>
      let st := allowThis newScore st in
      let st := allow newScore sender st in
      let st :=
        if negb (hasSubmitted_at st sender) then
          let st := push_player sender st in
          let st := set_hasSubmitted sender true st in
          set_playerResult sender
            (mkResult newScore sender (block_timestamp c)) st
        else
          let currentScore := score (playerResults_at st sender) in
          let highestScore := FHE_max newScore currentScore in
          let st := set_playerResult sender
                      (mkResult highestScore sender (block_timestamp c)) st in
          let st := allowThis highestScore st in
          allow highestScore sender st
      in
      Ok (emit (GameResultSubmitted sender (block_timestamp c)) st)
  end.

(** [function getPlayerResult(address) external view]. *)
Definition getPlayerResult (st : state) (p : address) : result euint32 :=
  if hasSubmitted_at st p then
    let result := playerResults_at st p in
    Ok (score result)
  else Revert "Player has not submitted a result".

(** [function getPlayerCount() external view]. *)
Definition getPlayerCount (st : state) : uint256 :=
  N.of_nat (length (players st)).

(** [function getPlayerByIndex(uint256) external view].  The array read
    after the [require] is in range; Solidity would panic otherwise. *)
Definition getPlayerByIndex (st : state) (index : uint256) : result address :=
  if (index <? N.of_nat (length (players st)))%N then
    match players st !! N.to_nat index with
    | Some a => Ok a
    | None => Revert "Panic(0x32)"
    end
  else Revert "Index out of bounds".

(** [function checkPlayerSubmitted(address) external view]. *)
Definition checkPlayerSubmitted (st : state) (p : address) : bool :=
  hasSubmitted_at st p.

(** [function getAllEncryptedScores() external view]: two arrays of
    [count] zeros, filled by the loop [for (i = 0; i < count; i++)]. *)
Definition getAllEncryptedScores_body (st : state)
    (acc : list address * list euint32) (i : nat) : list address * list euint32 :=
  let player := default 0%N (players st !! i) in
  (<[i := player]> (fst acc),
   <[i := score (playerResults_at st player)]> (snd acc)).

Definition getAllEncryptedScores (st : state) : list address * list euint32 :=
  let count := length (players st) in
  let playerAddresses := replicate count 0%N in
  let encryptedScores := replicate count 0%N in
  fold_left (getAllEncryptedScores_body st) (seq 0 count)
            (playerAddresses, encryptedScores).

(** A transaction that reverts leaves the storage as it was. *)
Definition apply_call (st : state) (c : call) : state :=
  match submitGameResult st c with
  | Ok st' => st'
  | Revert _ => st
  end.

(** The storage after a sequence of transactions, oldest first. *)
Definition exec (st : state) (cs : list call) : state :=
  fold_left apply_call cs st.

(** The handle the backend accepted for a transaction, if it did. *)
Definition accepted_handle (c : call) : option euint32 :=
  fromExternal (msg_sender c) (encryptedScore c) (scoreProof c).

Definition accepted (c : call) : bool :=
  match accepted_handle c with Some _ => true | None => false end.

(** The handles participant [p] submitted successfully, oldest first. *)
Definition submitted_handles (p : address) (cs : list call) : list euint32 :=
  omap (fun c => if N.eqb (msg_sender c) p then accepted_handle c else None) cs.

(** The senders of the accepted transactions, oldest first. *)
Definition accepted_senders (cs : list call) : list address :=
  map msg_sender (filter (fun c => accepted c = true) cs).

(** The plaintext behind a handle; only its owner can learn it, the
    contract never computes it. *)
Variable decrypt : euint32 -> Z.

Definition stored_plaintext (st : state) (p : address) : Z :=
  decrypt (score (playerResults_at st p)).

Definition submitted_plaintexts (p : address) (cs : list call) : list Z :=
  map decrypt (submitted_handles p cs).

End Contract.

End LinkMatch.

(** The maximum of a non-empty sequence of plaintexts. *)
Definition maximum (l : list Z) : option Z :=
  match l with
  | [] => None
  | x :: l' => Some (fold_left Z.max l' x)
  end.

(** Participants in the order of their first appearance. *)
Fixpoint first_occurrences (l : list N) : list N :=
  match l with
  | [] => []
  | a :: l' => a :: filter (fun b => b ≠ a) (first_occurrences l')
  end.

(** ** The client hook [useLinkMatch] *)

(** [Math.floor] on a JavaScript number (an IEEE 754 binary64 value). *)
Definition Math_floor (x : float) : float :=
  match Prim2SF x with
  | S754_finite s m e =>
      if (0 <=? e)%Z then x
      else
        let n := if s then Z.neg m else Z.pos m in
        match Z.shiftr n (- e) with
        | Z0 => if s then (-0)%float else 0%float
        | Z.pos p => SF2Prim (S754_finite false p 0)
        | Z.neg p => SF2Prim (S754_finite true p 0)
        end
  | _ => x
  end.

Module Hook.

(** [type GameResult]. *)
Record GameResult : Type := mkGameResult {
  score : float;
  matches : float;
  timeSeconds : float;
}.

(** [handleGameComplete] of the page: the score is matches per second. *)
Definition handleGameComplete (matches timeSeconds : float) : GameResult :=
  let score :=
    if (0 <? timeSeconds)%float then (matches / timeSeconds)%float
    else 0%float in
  mkGameResult score matches timeSeconds.

(** What a decrypted value can be: [string | bigint | boolean]. *)
Inductive clear_value : Type :=
| ClearString (s : string)
| ClearBigint (z : Z)
| ClearBoolean (b : bool).

(** [type ClearValueType]; [clear] is [None] when the backend's answer
    had no entry for the handle. *)
Record ClearValueType : Type := mkClear {
  handle : string;
  clear : option clear_value;
}.

(** The cached cleartext, [{ score: ClearValueType | undefined }]. *)
Record ClearResult : Type := mkClearResult {
  score_clear : option ClearValueType;
}.

(** [c?.score?.handle]. *)
Definition cached_handle (c : option ClearResult) : option string :=
  match c with
  | Some {| score_clear := Some v |} => Some (handle v)
  | _ => None
  end.

(** An [ethers.JsonRpcSigner]: an object, compared by identity, with its
    account address. *)
Record JsonRpcSigner : Type := mkSigner {
  signer_ref : N;
  signer_address : string;
}.

Definition same_object (a b : option JsonRpcSigner) : bool :=
  match a, b with
  | Some x, Some y => N.eqb (signer_ref x) (signer_ref y)
  | None, None => true
  | _, _ => false
  end.

(** A [FhevmDecryptionSignature], the authorization to decrypt. *)
Record FhevmDecryptionSignature : Type := mkSig {
  privateKey : string;
  publicKey : string;
  signature : string;
  contractAddresses : list string;
  userAddress : string;
  startTimestamp : N;
  durationDays : N;
}.

(** [ethers.ZeroHash]: ["0x"] followed by 64 zeros. *)
Definition ZeroHash : string :=
  "0x0000000000000000000000000000000000000000000000000000000000000000".

(** JavaScript truthiness of a [string | undefined]. *)
Definition truthy (s : option string) : bool :=
  match s with
  | Some x => negb (String.eqb x "")
  | None => false
  end.

(** [a === b] on [string | undefined]. *)
Definition strict_eq (a b : option string) : bool :=
  match a, b with
  | Some x, Some y => String.eqb x y
  | None, None => true
  | _, _ => false
  end.

(** [a === b] on [number | undefined]. *)
Definition strict_eq_num (a b : option N) : bool :=
  match a, b with
  | Some x, Some y => N.eqb x y
  | None, None => true
  | _, _ => false
  end.

(** The values one render of the hook closes over. *)
Record Render : Type := mkRender {
  instance : bool;
  chainId : option N;
  ethersSigner : option JsonRpcSigner;
  linkMatch_address : option string;
  playerResultHandle : option string;
  isRefreshing : bool;
  isDecrypting : bool;
  isSubmitting : bool;
}.

(** What can change while a workflow is suspended: the address in
    [linkMatchRef.current], the active chain and the active signer. *)
Record Env : Type := mkEnv {
  linkMatchRef_address : option string;
  active_chainId : option N;
  active_signer : option JsonRpcSigner;
}.

(** Calls that leave the hook, in the order they are made. *)
Inductive action : Type :=
| SetMessage (m : string)
| SetIsSubmitting (b : bool)
| SetIsDecrypting (b : bool)
| SetClearResult (c : option ClearResult)
| Sleep (ms : N)
| CreateEncryptedInput (contractAddress userAddress : string)
| Add32 (value : float)
| Encrypt
| ContractSubmitGameResult (to : string) (from : string)
    (encryptedScore : externalEuint32) (inputProof : bytes)
| TxWait
| RefreshPlayerResult
| LoadOrSign (contracts : list string) (signer : string)
| UserDecrypt (handle contractAddress : string).

(** The refs of the hook, the ledger deployed at [ledger_address], the
    environments the coming suspension points will resume in, and the log
    of calls made so far. *)
Record World : Type := mkWorld {
  env : Env;
  future : list Env;
  isRefreshingRef : bool;
  isDecryptingRef : bool;
  isSubmittingRef : bool;
  clearResultRef : option ClearResult;
  ledger : LinkMatch.state;
  ledger_address : string;
  block_time : uint256;
  log : list action;
}.

(** *** Computations: state, and exceptions that keep the state *)

Inductive outcome (A : Type) : Type :=
| Return (a : A)
| Throw (e : string).
Arguments Return {A} a.
Arguments Throw {A} e.

Definition M (A : Type) : Type := World -> outcome A * World.

Definition ret {A} (a : A) : M A := fun w => (Return a, w).

Definition bind {A B} (m : M A) (k : A -> M B) : M B :=
  fun w =>
    match m w with
    | (Return a, w') => k a w'
    | (Throw e, w') => (Throw e, w')
    end.

Definition throw {A} (e : string) : M A := fun w => (Throw e, w).

(** [try { m } catch (e) { h e }]. *)
Definition try_catch {A} (m : M A) (h : string -> M A) : M A :=
  fun w =>
    match m w with
    | (Return a, w') => (Return a, w')
    | (Throw e, w') => h e w'
    end.

(** [try { m } finally { f }]. *)
Definition try_finally {A} (m : M A) (f : M unit) : M A :=
  fun w =>
    match m w with
    | (r, w') =>
        match f w' with
        | (Return _, w'') => (r, w'')
        | (Throw e, w'') => (Throw e, w'')
        end
    end.

Definition gets {A} (f : World -> A) : M A := fun w => (Return (f w), w).

Definition modify (f : World -> World) : M unit := fun w => (Return tt, f w).

Declare Scope hook_scope.
Delimit Scope hook_scope with hook.
Notation "x <- m ;; k" := (bind m (fun x => k))
  (at level 100, m at next level, right associativity) : hook_scope.
Notation "m ;; k" := (bind m (fun _ => k))
  (at level 100, right associativity) : hook_scope.
Local Open Scope hook_scope.

Definition act (a : action) : M unit :=
  modify (fun w => mkWorld (env w) (future w) (isRefreshingRef w)
                     (isDecryptingRef w) (isSubmittingRef w) (clearResultRef w)
                     (ledger w) (ledger_address w) (block_time w) (log w ++ [a])).

(** A suspension point: the workflow resumes in the next environment. *)
Definition resume (w : World) : World :=
  mkWorld (hd (env w) (future w)) (tl (future w)) (isRefreshingRef w)
          (isDecryptingRef w) (isSubmittingRef w) (clearResultRef w)
          (ledger w) (ledger_address w) (block_time w) (log w).

Definition await : M unit := modify resume.

Definition set_isSubmittingRef (b : bool) : M unit :=
  modify (fun w => mkWorld (env w) (future w) (isRefreshingRef w)
                     (isDecryptingRef w) b (clearResultRef w)
                     (ledger w) (ledger_address w) (block_time w) (log w)).

Definition set_isDecryptingRef (b : bool) : M unit :=
  modify (fun w => mkWorld (env w) (future w) (isRefreshingRef w)
                     b (isSubmittingRef w) (clearResultRef w)
                     (ledger w) (ledger_address w) (block_time w) (log w)).

Definition set_clearResultRef (c : option ClearResult) : M unit :=
  modify (fun w => mkWorld (env w) (future w) (isRefreshingRef w)
                     (isDecryptingRef w) (isSubmittingRef w) c
                     (ledger w) (ledger_address w) (block_time w) (log w)).

Definition set_ledger (st : LinkMatch.state) : M unit :=
  modify (fun w => mkWorld (env w) (future w) (isRefreshingRef w)
                     (isDecryptingRef w) (isSubmittingRef w) (clearResultRef w)
                     st (ledger_address w) (block_time w) (log w)).

Definition setMessage (m : string) : M unit := act (SetMessage m).

(** Modelled from the spec: [sameChain.current] and [sameSigner.current]
    come from the wallet hook [useMetaMaskEthersSigner], which is not among
    the sources; they compare the snapshot with the network identity and
    the signer identity that are active now. *)
Definition sameChain (thisChainId : option N) : M bool :=
  gets (fun w => strict_eq_num thisChainId (active_chainId (env w))).

Definition sameSigner (thisEthersSigner : option JsonRpcSigner) : M bool :=
  gets (fun w => same_object thisEthersSigner (active_signer (env w))).

(** The closure [isStale] of both workflows. *)
Definition isStale (thisLinkMatchAddress : string) (thisChainId : option N)
    (thisEthersSigner : JsonRpcSigner) : M bool :=
  a <- gets (fun w => linkMatchRef_address (env w)) ;;
  c <- sameChain thisChainId ;;
  s <- sameSigner (Some thisEthersSigner) ;;
  ret (negb (strict_eq (Some thisLinkMatchAddress) a) || negb c || negb s).

(** The cases in which a decryption must not start: no backend call is
    logged, and nothing but an emptied cache is written. *)
Definition no_decryption (w : World) (res : outcome unit * World) : Prop :=
  exists w', res = (Return tt, w') /\
    (log w' = log w \/ log w' = log w ++ [SetClearResult None]) /\
    (clearResultRef w' = clearResultRef w \/ clearResultRef w' = None) /\
    ledger w' = ledger w /\
    isDecryptingRef w' = isDecryptingRef w.

Section Backend.

Variable this : address.
Variable fromExternal : address -> externalEuint32 -> bytes -> option euint32.
Variable FHE_max : euint32 -> euint32 -> euint32.

(** The relayer SDK and ethers, which are not part of the repository:
    [encrypt] builds the ciphertext and proof of a value for a (contract,
    user) pair or throws; [account] decodes an address string;
    [loadOrSign] yields the decryption authorization, [None] when it
    cannot be built; [userDecrypt] answers with a table from handle to
    plaintext or throws. *)
Variable encrypt : string -> string -> float -> outcome (externalEuint32 * bytes).
Variable account : string -> address.
Variable tx_hash : LinkMatch.call -> string.
Variable loadOrSign :
  list string -> JsonRpcSigner -> outcome (option FhevmDecryptionSignature).
Variable userDecrypt :
  list (string * string) -> FhevmDecryptionSignature ->
  outcome (gmap string clear_value).

Definition lift {A} (o : outcome A) : M A := fun w => (o, w).

(** [await thisLinkMatchContract.submitGameResult(handle, proof)]: the
    transaction runs on the ledger deployed at [to]; a revert throws. *)
Definition contract_submitGameResult (to : string) (signer : JsonRpcSigner)
    (h : externalEuint32) (proof : bytes) : M string :=
  act (ContractSubmitGameResult to (signer_address signer) h proof) ;;
  await ;;
  deployed <- gets ledger_address ;;
  if negb (String.eqb to deployed) then throw "no contract at this address"
  else
    st <- gets ledger ;;
    now <- gets block_time ;;
    let c := LinkMatch.mkCall (account (signer_address signer)) now h proof in
    match LinkMatch.submitGameResult this fromExternal FHE_max st c with
    | Ok st' => set_ledger st' ;; ret (tx_hash c)
    | Revert reason => throw reason
    end.

(** The body [run] of [submitGameResult]. *)
Definition submitGameResult_run (result : GameResult)
    (thisChainId : option N) (thisLinkMatchAddress : string)
    (thisEthersSigner : JsonRpcSigner) : M unit :=
  act (Sleep 100) ;; await ;;
  try_finally
    (try_catch
       (let scoreInt := Math_floor (score result * 1000)%float in
        act (CreateEncryptedInput thisLinkMatchAddress
               (signer_address thisEthersSigner)) ;;
        act (Add32 scoreInt) ;;
        act Encrypt ;; await ;;
        encScore <- lift (encrypt thisLinkMatchAddress
                            (signer_address thisEthersSigner) scoreInt) ;;
        stale <- isStale thisLinkMatchAddress thisChainId thisEthersSigner ;;
        if stale then setMessage "Ignore submit"
        else
          setMessage "Call submitGameResult..." ;;
          tx <- contract_submitGameResult thisLinkMatchAddress thisEthersSigner
                  (fst encScore) (snd encScore) ;;
          setMessage ("Wait for tx:" ++ tx ++ "...") ;;
          act TxWait ;; await ;;
          setMessage "Submit completed status=1" ;;
          stale <- isStale thisLinkMatchAddress thisChainId thisEthersSigner ;;
          if stale then setMessage "Ignore submit"
          else act RefreshPlayerResult)
       (fun e => setMessage ("Submit Failed! " ++ e)))
    (set_isSubmittingRef false ;; act (SetIsSubmitting false)).

(** [const submitGameResult = useCallback((result: GameResult) => ...)]. *)
Definition submitGameResult (r : Render) (result : GameResult) : M unit :=
  refreshing <- gets isRefreshingRef ;;
  submitting <- gets isSubmittingRef ;;
  if refreshing || submitting then ret tt
  else if negb (truthy (linkMatch_address r)) || negb (instance r)
          || negb (bool_decide (is_Some (ethersSigner r)))
  then ret tt
  else
    match linkMatch_address r, ethersSigner r with
    | Some thisLinkMatchAddress, Some thisEthersSigner =>
        let thisChainId := chainId r in
        set_isSubmittingRef true ;;
        act (SetIsSubmitting true) ;;
        setMessage "Start submitting game result..." ;;
        submitGameResult_run result thisChainId thisLinkMatchAddress
          thisEthersSigner
    | _, _ => ret tt
    end.

(** [const canSubmit = useMemo(...)], as a truth value. *)
Definition canSubmit (r : Render) : bool :=
  truthy (linkMatch_address r) && instance r
  && bool_decide (is_Some (ethersSigner r))
  && negb (isRefreshing r) && negb (isSubmitting r).

(** [const canDecrypt = useMemo(...)], as a truth value. *)
Definition canDecrypt (r : Render) : bool :=
  truthy (linkMatch_address r) && instance r
  && bool_decide (is_Some (ethersSigner r))
  && negb (isRefreshing r) && negb (isDecrypting r)
  && match playerResultHandle r with
     | Some h => negb (String.eqb h ZeroHash)
     | None => false
     end.

(** The body [run] of [decryptPlayerResult]. *)
Definition decryptPlayerResult_run
    (thisChainId : option N) (thisLinkMatchAddress : string)
    (thisScoreHandle : string) (thisEthersSigner : JsonRpcSigner) : M unit :=
  try_finally
    (act (LoadOrSign [thisLinkMatchAddress] (signer_address thisEthersSigner)) ;;
     await ;;
     sig <- lift (loadOrSign [thisLinkMatchAddress] thisEthersSigner) ;;
     match sig with
     | None => setMessage "Unable to build FHEVM decryption signature"
     | Some sig =>
         stale <- isStale thisLinkMatchAddress thisChainId thisEthersSigner ;;
         if stale then setMessage "Ignore FHEVM decryption"
         else
           setMessage "Call FHEVM userDecrypt..." ;;
           let handleStr := thisScoreHandle in
           if String.eqb handleStr "" || String.eqb handleStr "0x"
              || Nat.ltb (String.length handleStr) 66
           then setMessage "Invalid handle format"
           else
             act (UserDecrypt handleStr thisLinkMatchAddress) ;;
             await ;;
             res <- lift (userDecrypt [(handleStr, thisLinkMatchAddress)] sig) ;;
             setMessage "FHEVM userDecrypt completed!" ;;
             stale <- isStale thisLinkMatchAddress thisChainId thisEthersSigner ;;
             if stale then setMessage "Ignore FHEVM decryption"
             else
               let decryptedValue :=
                 match res !! handleStr with
                 | Some v => Some v
                 | None => res !! thisScoreHandle
                 end in
               act (SetClearResult
                      (Some (mkClearResult (Some (mkClear handleStr decryptedValue))))) ;;
               set_clearResultRef
                 (Some (mkClearResult (Some (mkClear handleStr decryptedValue))))
     end)
    (set_isDecryptingRef false ;; act (SetIsDecrypting false)).

(** [const decryptPlayerResult = useCallback(() => ...)]. *)
Definition decryptPlayerResult (r : Render) : M unit :=
  refreshing <- gets isRefreshingRef ;;
  decrypting <- gets isDecryptingRef ;;
  if refreshing || decrypting then ret tt
  else if negb (truthy (linkMatch_address r)) || negb (instance r)
          || negb (bool_decide (is_Some (ethersSigner r)))
          || negb (bool_decide (is_Some (playerResultHandle r)))
  then ret tt
  else
    match linkMatch_address r, ethersSigner r, playerResultHandle r with
    | Some thisLinkMatchAddress, Some thisEthersSigner, Some thisScoreHandle =>
        cached <- gets clearResultRef ;;
        if strict_eq (Some thisScoreHandle) (cached_handle cached) then ret tt
        else if String.eqb thisScoreHandle "" then
          act (SetClearResult None) ;;
          set_clearResultRef None
        else
          let thisChainId := chainId r in
          set_isDecryptingRef true ;;
          act (SetIsDecrypting true) ;;
          setMessage "Start decrypt" ;;
          decryptPlayerResult_run thisChainId thisLinkMatchAddress
            thisScoreHandle thisEthersSigner
    | _, _, _ => ret tt
    end.

(** The "Decrypt My Result" button of the page: it is disabled unless
    [canDecrypt], and its click handler is [decryptPlayerResult]. *)
Definition decrypt_button_click (r : Render) : M unit :=
  if canDecrypt r then decryptPlayerResult r else ret tt.

End Backend.

End Hook.

(** ** A concrete backend and a sample history

    Handles are the plaintexts themselves, a proof is valid when it is not
    empty, and [FHE.max] is the maximum.  Alice submits 10, then 7 with an
    empty proof (rejected), then 7, Bob submits 12, Alice submits 15. *)

Module Sample.

Definition this : address := 1000%N.
Definition alice : address := 1%N.
Definition bob : address := 2%N.

Definition fromExternal (sender : address) (e : externalEuint32) (proof : bytes)
    : option euint32 :=
  match proof with
  | [] => None
  | _ :: _ => Some e
  end.

Definition FHE_max : euint32 -> euint32 -> euint32 := N.max.

Definition decrypt : euint32 -> Z := Z.of_N.

Definition history : list LinkMatch.call :=
  [ LinkMatch.mkCall alice 100 10 [1%N];
    LinkMatch.mkCall alice 101 7 [];
    LinkMatch.mkCall alice 102 7 [1%N];
    LinkMatch.mkCall bob 103 12 [1%N];
    LinkMatch.mkCall alice 104 15 [1%N] ].

Definition again : LinkMatch.call := LinkMatch.mkCall alice 105 9 [1%N].

Definition final : LinkMatch.state :=
  LinkMatch.exec this fromExternal FHE_max LinkMatch.init history.

Definition carol : address := 3%N.

Definition first_of_carol : LinkMatch.call := LinkMatch.mkCall carol 106 4 [1%N].

Definition final_again : LinkMatch.state :=
  LinkMatch.apply_call this fromExternal FHE_max final again.

(** The client side: one ledger at [ledger_at], Alice's wallet, a relayer
    that encrypts any non-negative integer below 2^32 and decrypts every
    handle to zero. *)

Definition ledger_at : string := "0x01Bc5bd6B28485A312D0ba668EDAaAee1E840035".

Definition alice_signer : Hook.JsonRpcSigner :=
  Hook.mkSigner 1 "0xA11CE".

Definition bob_signer : Hook.JsonRpcSigner :=
  Hook.mkSigner 2 "0xB0B".

Definition account (a : string) : address :=
  if String.eqb a "0xA11CE" then alice else bob.

Definition encrypt (contractAddress userAddress : string) (value : float)
    : Hook.outcome (externalEuint32 * bytes) :=
  match Prim2SF value with
  | S754_zero _ => Hook.Return (0%N, [1%N])
  | S754_finite false m e =>
      if (Z.shiftl (Z.pos m) e <? 2 ^ 32)%Z
      then Hook.Return (Z.to_N (Z.shiftl (Z.pos m) e), [1%N])
      else Hook.Throw "value out of range"
  | _ => Hook.Throw "value out of range"
  end.

Definition tx_hash (c : LinkMatch.call) : string := "0x7e57".

Definition sig : Hook.FhevmDecryptionSignature :=
  Hook.mkSig "priv" "pub" "sig" [ledger_at] "0xA11CE" 1700000000 365.

Definition loadOrSign (contracts : list string) (s : Hook.JsonRpcSigner)
    : Hook.outcome (option Hook.FhevmDecryptionSignature) :=
  Hook.Return (Some sig).

Definition userDecrypt (hs : list (string * string))
    (s : Hook.FhevmDecryptionSignature)
    : Hook.outcome (gmap string Hook.clear_value) :=
  Hook.Return (list_to_map (map (fun p => (fst p, Hook.ClearBigint 0)) hs)).

Definition env0 : Hook.Env :=
  Hook.mkEnv (Some ledger_at) (Some 11155111%N) (Some alice_signer).

(** The same target on another chain. *)
Definition env_other_chain : Hook.Env :=
  Hook.mkEnv (Some ledger_at) (Some 31337%N) (Some alice_signer).

Definition world0 : Hook.World :=
  Hook.mkWorld env0 [] false false false None LinkMatch.init ledger_at 100 [].

(** The wallet switches chain while the score is being encrypted. *)
Definition world_switching : Hook.World :=
  Hook.mkWorld env0 [env0; env_other_chain] false false false None
    LinkMatch.init ledger_at 100 [].

Definition handle1 : string :=
  "0x00000000000000000000000000000000000000000000000000000000000003e8".

Definition render (h : option string) : Hook.Render :=
  Hook.mkRender true (Some 11155111%N) (Some alice_signer) (Some ledger_at)
    h false false false.

Definition game : Hook.GameResult := Hook.mkGameResult 0.375 3 8.

End Sample.

(** ** What a history of transactions leaves behind *)

Module History.

Import LinkMatch.

Section History.

Variable fromExternal : address -> externalEuint32 -> bytes -> option euint32.

(** The events of the accepted transactions, oldest first. *)
Definition emitted (cs : list call) : list event :=
  map (fun c => GameResultSubmitted (msg_sender c) (block_timestamp c))
      (filter (fun c => accepted fromExternal c = true) cs).

(** The accepted transactions of participant [p], oldest first. *)
Definition accepted_of (p : address) (cs : list call) : list call :=
  filter (fun c => msg_sender c = p /\ accepted fromExternal c = true) cs.

End History.

End History.

(** ** Vocabulary for the runs of the client workflows *)

Module Runs.

Import Hook.

(** What [isStale] computes, as a function of the environment it is
    evaluated in. *)
Definition stale (thisLinkMatchAddress : string) (thisChainId : option N)
    (thisEthersSigner : JsonRpcSigner) (e : Env) : bool :=
  negb (strict_eq (Some thisLinkMatchAddress) (linkMatchRef_address e))
  || negb (strict_eq_num thisChainId (active_chainId e))
  || negb (same_object (Some thisEthersSigner) (active_signer e)).

(** The world after [n] suspension points. *)
Definition resumed (n : nat) (w : World) : World := Nat.iter n resume w.

Definition is_contract_call (x : action) : bool :=
  match x with ContractSubmitGameResult _ _ _ _ => true | _ => false end.

Definition is_authorization (x : action) : bool :=
  match x with LoadOrSign _ _ => true | _ => false end.

Definition is_backend_decrypt (x : action) : bool :=
  match x with UserDecrypt _ _ => true | _ => false end.

Definition count (f : action -> bool) (l : list action) : nat :=
  length (List.filter f l).

(** The format test [decryptPlayerResult] makes before the backend call. *)
Definition well_formed (handleStr : string) : bool :=
  negb (String.eqb handleStr "" || String.eqb handleStr "0x"
        || Nat.ltb (String.length handleStr) 66).

(** Whether [submitGameResult] gets past its two guards. *)
Definition ready_to_submit (r : Render) (w : World) : bool :=
  negb (isRefreshingRef w || isSubmittingRef w)
  && truthy (linkMatch_address r) && instance r
  && bool_decide (is_Some (ethersSigner r)).

(** The world in which the body of [submitGameResult] starts. *)
Definition submit_started (w : World) : World :=
  mkWorld (env w) (future w) (isRefreshingRef w) (isDecryptingRef w) true
    (clearResultRef w) (ledger w) (ledger_address w) (block_time w)
    (log w ++ [SetIsSubmitting true;
               SetMessage "Start submitting game result..."]).

(** Whether [decryptPlayerResult] gets past its two guards. *)
Definition ready_to_decrypt (r : Render) (w : World) : bool :=
  negb (isRefreshingRef w || isDecryptingRef w)
  && truthy (linkMatch_address r) && instance r
  && bool_decide (is_Some (ethersSigner r))
  && bool_decide (is_Some (playerResultHandle r)).

(** The world in which the body of [decryptPlayerResult] starts. *)
Definition decrypt_started (w : World) : World :=
  mkWorld (env w) (future w) (isRefreshingRef w) true (isSubmittingRef w)
    (clearResultRef w) (ledger w) (ledger_address w) (block_time w)
    (log w ++ [SetIsDecrypting true; SetMessage "Start decrypt"]).

(** The world after the cache was emptied for an empty handle. *)
Definition cache_cleared (w : World) : World :=
  mkWorld (env w) (future w) (isRefreshingRef w) (isDecryptingRef w)
    (isSubmittingRef w) None (ledger w) (ledger_address w) (block_time w)
    (log w ++ [SetClearResult None]).

(** A cache entry for handle [h]. *)
Definition cache_entry (h : string) (v : option clear_value)
    : option ClearResult :=
  Some (mkClearResult (Some (mkClear h v))).

(** The transaction the submission workflow sends for a ciphertext. *)
Definition sent_call (account : string -> address) (s : JsonRpcSigner)
    (w : World) (enc : externalEuint32 * bytes) : LinkMatch.call :=
  LinkMatch.mkCall (account (signer_address s)) (block_time w)
    (fst enc) (snd enc).

End Runs.

(** ** Which deployment the hook talks to *)

Module Deployment.

(** An entry of the generated table. *)
Record entry : Type := mkEntry {
  entry_address : string;
  entry_chainId : N;
  entry_chainName : string;
}.

(** [export const LinkMatchAddresses], an object keyed by the chain id in
    decimal. *)
Definition LinkMatchAddresses : gmap string entry :=
  {[ "11155111" :=
       mkEntry "0x01Bc5bd6B28485A312D0ba668EDAaAee1E840035" 11155111
               "sepolia" ]}.

(** [n.toString()] of a non-negative integer [n]. *)
Definition toString (n : N) : string := NilEmpty.string_of_uint (N.to_uint n).

(** [type LinkMatchInfoType]; the field [abi] is the same constant in
    every value and is left out. *)
Record LinkMatchInfoType : Type := mkInfo {
  info_address : option string;
  info_chainId : option N;
  info_chainName : option string;
}.

(** [function getLinkMatchByChainId(chainId, contractAddress)]. *)
Definition getLinkMatchByChainId (chainId : option N)
    (contractAddress : option string) : LinkMatchInfoType :=
  match chainId with
  | None => mkInfo None None None
  | Some c =>
      if N.eqb c 0 then mkInfo None None None
      else
        let chainIdStr := toString c in
        let deploymentInfo := LinkMatchAddresses !! chainIdStr in
        let address :=
          match deploymentInfo with
          | Some d =>
              if Hook.truthy (Some (entry_address d))
              then Some (entry_address d)
              else contractAddress
          | None => contractAddress
          end in
        mkInfo address (Some c) (entry_chainName <$> deploymentInfo)
  end.

(** [ethers.ZeroAddress]. *)
Definition ZeroAddress : string := "0x0000000000000000000000000000000000000000".

(** [const isDeployed = useMemo(...)]; [linkMatch] is always an object, so
    the result is never [undefined]. *)
Definition isDeployed (linkMatch : LinkMatchInfoType) : bool :=
  Hook.truthy (info_address linkMatch)
  && negb (Hook.strict_eq (info_address linkMatch) (Some ZeroAddress)).

End Deployment.

(** ** The read-only workflows of the hook *)

(** [s.includes(searchString)]. *)
Fixpoint includes (s searchString : string) : bool :=
  String.prefix searchString s
  || match s with
     | EmptyString => false
     | String _ s' => includes s' searchString
     end.

Module View.

Import Deployment.

(** An [ethers.ContractRunner]; its method [call] is optional. *)
Record ContractRunner : Type := mkRunner {
  has_call : bool;
}.

(** What the callbacks of one render close over. *)
Record Props : Type := mkProps {
  ethersReadonlyProvider : option ContractRunner;
  ethersSigner : option Hook.JsonRpcSigner;
  linkMatch : LinkMatchInfoType;
}.

(** What can change while a callback is suspended: [linkMatchRef.current]
    and the active chain. *)
Record Env : Type := mkEnv {
  linkMatchRef : option LinkMatchInfoType;
  active_chainId : option N;
}.

(** A row of the leaderboard, [{ address, encryptedScore }]. *)
Record Row : Type := mkRow {
  row_address : string;
  encryptedScore : option string;
}.

(** The ref and the React state these callbacks write, the ledger
    deployed at [ledger_address], and the environments the coming
    suspension points resume in. *)
Record World : Type := mkWorld {
  env : Env;
  future : list Env;
  isRefreshingRef : bool;
  playerResultHandle : option string;
  message : string;
  isRefreshing : bool;
  hasSubmitted : bool;
  leaderboard : list Row;
  isLoadingLeaderboard : bool;
  ledger : LinkMatch.state;
  ledger_address : string;
}.

Definition resume (w : World) : World :=
  mkWorld (hd (env w) (future w)) (tl (future w)) (isRefreshingRef w)
    (playerResultHandle w) (message w) (isRefreshing w) (hasSubmitted w)
    (leaderboard w) (isLoadingLeaderboard w) (ledger w) (ledger_address w).

Definition set_isRefreshingRef (b : bool) (w : World) : World :=
  mkWorld (env w) (future w) b
    (playerResultHandle w) (message w) (isRefreshing w) (hasSubmitted w)
    (leaderboard w) (isLoadingLeaderboard w) (ledger w) (ledger_address w).

Definition setPlayerResultHandle (h : option string) (w : World) : World :=
  mkWorld (env w) (future w) (isRefreshingRef w)
    h (message w) (isRefreshing w) (hasSubmitted w)
    (leaderboard w) (isLoadingLeaderboard w) (ledger w) (ledger_address w).

Definition setMessage (m : string) (w : World) : World :=
  mkWorld (env w) (future w) (isRefreshingRef w)
    (playerResultHandle w) m (isRefreshing w) (hasSubmitted w)
    (leaderboard w) (isLoadingLeaderboard w) (ledger w) (ledger_address w).

Definition setIsRefreshing (b : bool) (w : World) : World :=
  mkWorld (env w) (future w) (isRefreshingRef w)
    (playerResultHandle w) (message w) b (hasSubmitted w)
    (leaderboard w) (isLoadingLeaderboard w) (ledger w) (ledger_address w).

Definition setHasSubmitted (b : bool) (w : World) : World :=
  mkWorld (env w) (future w) (isRefreshingRef w)
    (playerResultHandle w) (message w) (isRefreshing w) b
    (leaderboard w) (isLoadingLeaderboard w) (ledger w) (ledger_address w).

Definition setLeaderboard (l : list Row) (w : World) : World :=
  mkWorld (env w) (future w) (isRefreshingRef w)
    (playerResultHandle w) (message w) (isRefreshing w) (hasSubmitted w)
    l (isLoadingLeaderboard w) (ledger w) (ledger_address w).

Definition setIsLoadingLeaderboard (b : bool) (w : World) : World :=
  mkWorld (env w) (future w) (isRefreshingRef w)
    (playerResultHandle w) (message w) (isRefreshing w) (hasSubmitted w)
    (leaderboard w) b (ledger w) (ledger_address w).

(** Modelled from the spec: [sameChain.current] comes from the wallet
    hook [useMetaMaskEthersSigner], which is not among the sources; it
    compares the snapshot with the chain that is active now. *)
Definition sameChain (thisChainId : N) (e : Env) : bool :=
  Hook.strict_eq_num (Some thisChainId) (active_chainId e).

(** [linkMatchRef.current?.address]. *)
Definition ref_address (e : Env) : option string :=
  match linkMatchRef e with
  | Some info => info_address info
  | None => None
  end.

(** A decoded [bytes32]: a hex string, or bytes still to be printed. *)
Inductive bytes32_value : Type :=
| HexString (s : string)
| ByteArray (b : euint32).

(** What a contract method resolves to: one value, or an array. *)
Inductive returned : Type :=
| One (v : bytes32_value)
| Several (l : list string).

Section Backend.

(** ethers, which is not part of the repository: [account] decodes an
    address string and [checksum] prints an address; [returned_handle] is
    what [contract.getPlayerResult] resolves to for a stored handle and
    [decoded_handle] what [decodeFunctionResult] yields for an element of
    a [bytes32[]]; [hexlify] prints bytes; [call_exception] is the message
    of the error thrown for a revert with a reason, [bad_data] that of the
    error thrown when there is no contract at the address, and
    [unsupported_operation] that of a runner without [call];
    [print_error] is the text an error is printed as in a template. *)
Variable account : string -> address.
Variable checksum : address -> string.
Variable returned_handle : euint32 -> returned.
Variable decoded_handle : euint32 -> bytes32_value.
Variable hexlify : euint32 -> string.
Variable call_exception : string -> string.
Variable bad_data : string.
Variable unsupported_operation : string.
Variable print_error : string -> string.

(** A read of the ledger through [runner] at address [to]; a thrown
    error is represented by its [message]. *)
Definition eth_call {A} (runner : ContractRunner) (to : string) (w : World)
    (f : LinkMatch.state -> result A) : Hook.outcome A :=
  if negb (has_call runner) then Hook.Throw unsupported_operation
  else if negb (String.eqb to (ledger_address w)) then Hook.Throw bad_data
  else
    match f (ledger w) with
    | Ok a => Hook.Return a
    | Revert reason => Hook.Throw (call_exception reason)
    end.

(** The handler of the resolved read in [refreshPlayerResult]. *)
Definition refresh_resolved (thisChainId : N) (thisLinkMatchAddress : string)
    (result : returned) (w : World) : World :=
  let w :=
    if sameChain thisChainId (env w)
       && Hook.strict_eq (Some thisLinkMatchAddress) (ref_address (env w))
    then
      let handleStr :=
        match result with
        | Several l => head l
        | One (HexString s) => Some s
        | One (ByteArray b) => Some (hexlify b)
        end in
      match handleStr with
      | Some s =>
          if negb (Hook.truthy (Some s)) || String.eqb s "0x"
             || Nat.ltb (String.length s) 66
          then setPlayerResultHandle None w
          else setPlayerResultHandle (Some s) w
      | None => setPlayerResultHandle None w
      end
    else w in
  let w := set_isRefreshingRef false w in
  setIsRefreshing false w.

(** The handler of the rejected read in [refreshPlayerResult]. *)
Definition refresh_rejected (e_message : string) (w : World) : World :=
  let w :=
    if Hook.truthy (Some e_message)
       && (includes e_message "not submitted" || includes e_message "revert")
    then setPlayerResultHandle None w
    else setMessage ("LinkMatch.getPlayerResult() call failed! error="
                       ++ print_error e_message) w in
  let w := set_isRefreshingRef false w in
  setIsRefreshing false w.

(** [const refreshPlayerResult = useCallback(() => ...)], run until its
    promise chain has settled.  [ethersSigner.getAddress()] resolves with
    the signer's address. *)
Definition refreshPlayerResult (p : Props) (w : World) : World :=
  if isRefreshingRef w then w
  else
    match linkMatchRef (env w), ethersReadonlyProvider p, ethersSigner p with
    | Some info, Some provider, Some signer =>
        match info_chainId info, info_address info with
        | Some thisChainId, Some thisLinkMatchAddress =>
            if N.eqb thisChainId 0
               || negb (Hook.truthy (Some thisLinkMatchAddress))
            then setPlayerResultHandle None w
            else
              let w := set_isRefreshingRef true w in
              let w := setIsRefreshing true w in
              let w := resume w in
              let address := Hook.signer_address signer in
              let w := resume w in
              match eth_call provider thisLinkMatchAddress w
                      (fun st => LinkMatch.getPlayerResult st (account address))
              with
              | Hook.Return h =>
                  refresh_resolved thisChainId thisLinkMatchAddress
                    (returned_handle h) w
              | Hook.Throw e => refresh_rejected e w
              end
        | _, _ => setPlayerResultHandle None w
        end
    | _, _, _ => setPlayerResultHandle None w
    end.

(** The effect that loads [hasSubmitted]; a rejected read is not handled
    and leaves the state as it was. *)
Definition hasSubmitted_effect (p : Props) (w : World) : World :=
  match info_address (linkMatch p), ethersSigner p with
  | Some a, Some signer =>
      if negb (Hook.truthy (Some a)) then w
      else
        let runner :=
          match ethersReadonlyProvider p with
          | Some provider => provider
          | None => mkRunner true
          end in
        let w := resume w in
        let address := Hook.signer_address signer in
        let w := resume w in
        match eth_call runner a w
                (fun st => Ok (LinkMatch.hasSubmitted_at st (account address)))
        with
        | Hook.Return submitted => setHasSubmitted submitted w
        | Hook.Throw _ => w
        end
  | _, _ => w
  end.

(** [const fetchLeaderboard = useCallback(async () => ...)]. *)
Definition fetchLeaderboard (p : Props) (w : World) : World :=
  match info_address (linkMatch p), ethersReadonlyProvider p with
  | Some a, Some provider =>
      if negb (Hook.truthy (Some a)) then w
      else
        let w := setIsLoadingLeaderboard true w in
        let w := setMessage "Loading leaderboard..." w in
        let w :=
          if negb (has_call provider) then
            let w := setMessage "Provider not available" w in
            setIsLoadingLeaderboard false w
          else
            let w := resume w in
            match eth_call provider a w
                    (fun st => Ok (LinkMatch.getAllEncryptedScores st))
            with
            | Hook.Return decoded =>
                let playerAddresses := map checksum (fst decoded) in
                let encryptedScores :=
                  map (fun h => match decoded_handle h with
                                | HexString s => s
                                | ByteArray b => hexlify b
                                end) (snd decoded) in
                if Nat.eqb (length playerAddresses) 0 then
                  let w := setLeaderboard [] w in
                  setMessage "No players found" w
                else
                  let leaderboardData :=
                    imap (fun index address =>
                            mkRow address (encryptedScores !! index))
                         playerAddresses in
                  let top10 := take 10 leaderboardData in
                  let w := setLeaderboard top10 w in
                  setMessage ("Leaderboard loaded (ciphertext): "
                                ++ toString (N.of_nat (length top10))
                                ++ " players") w
            | Hook.Throw e =>
                let w := setMessage ("Failed to load leaderboard: "
                                       ++ print_error e) w in
                setLeaderboard [] w
            end in
        setIsLoadingLeaderboard false w
  | _, _ => w
  end.

End Backend.

End View.

(** ** The board of the game *)

Module Game.

Inductive Difficulty : Type := easy | medium | hard.

(** [DIFFICULTY_CONFIG]: rows and columns (the label is left out). *)
Definition DIFFICULTY_CONFIG (d : Difficulty) : nat * nat :=
  match d with
  | easy => (4, 4)
  | medium => (6, 6)
  | hard => (8, 8)
  end.

(** [PATTERNS]: forty emoji, each a single code point. *)
Definition PATTERNS : list N :=
  [ 127822; 127820; 127815; 127818; 127827; 129373; 127825; 127826; 129389;
    127817; 127824; 127819; 127816; 127823; 129361; 127813; 129373; 129381;
    127815; 127817; 127818; 127819; 127820; 127821; 129389; 127822; 127823;
    127824; 127825; 127826; 127827; 129373; 127813; 129381; 129361; 127814;
    129364; 129365; 127805; 127798 ]%N.

(** [type Cell]; [value] is a pattern index, 0 for an eliminated cell. *)
Record Cell : Type := mkCell {
  id : nat;
  value : nat;
  row : nat;
  col : nat;
}.

(** The array [values] of [generateGrid] before it is shuffled. *)
Definition values (TOTAL_CELLS : nat) : list nat :=
  let pairsNeeded := TOTAL_CELLS / 2 in
  flat_map (fun i =>
              let patternIndex := i mod length PATTERNS + 1 in
              [patternIndex; patternIndex])
           (seq 0 pairsNeeded)
  ++ (if Nat.eqb (TOTAL_CELLS mod 2) 1 then [1] else []).

(** [getPatternDisplay]: the emoji of a value, [None] for the empty
    string. *)
Definition getPatternDisplay (value : nat) : option N :=
  if Nat.eqb value 0 then None else PATTERNS !! (value - 1).

Section Grid.

(** [values.sort(() => Math.random() - 0.5)]: some rearrangement. *)
Variable shuffle : list nat -> list nat.

(** [generateGrid] for a board of [ROWS] by [COLS]. *)
Definition generateGrid (ROWS COLS : nat) : list Cell :=
  let TOTAL_CELLS := ROWS * COLS in
  let shuffled := shuffle (values TOTAL_CELLS) in
  flat_map (fun row =>
              map (fun col =>
                     let id := row * COLS + col in
                     mkCell id (nth id shuffled 0) row col)
                  (seq 0 COLS))
           (seq 0 ROWS).

End Grid.

End Game.

(** ** Vocabulary for the read-only workflows *)

Module Reads.

Import View.

Section Reads.

Variable checksum : address -> string.
Variable decoded_handle : euint32 -> bytes32_value.
Variable hexlify : euint32 -> string.

(** The text a stored handle is shown as in the leaderboard. *)
Definition shown_handle (h : euint32) : string :=
  match decoded_handle h with
  | HexString s => s
  | ByteArray b => hexlify b
  end.

(** The leaderboard row of participant [q]. *)
Definition row_of (st : LinkMatch.state) (q : address) : Row :=
  mkRow (checksum q)
        (Some (shown_handle (LinkMatch.score (LinkMatch.playerResults_at st q)))).

End Reads.

(** The world in which the read of [refreshPlayerResult] resolves. *)
Definition reading (w : World) : World :=
  resume (resume (setIsRefreshing true (set_isRefreshingRef true w))).

End Reads.

(** ** A concrete client for the read-only workflows

    Addresses and handles are printed as ethers prints them: a handle as
    ["0x"] and 64 hex digits.  The hook is rendered on Sepolia for Alice,
    against the ledger of the sample history. *)

Module SampleView.

Definition hex_digit (d : N) : string :=
  String.substring (N.to_nat d) 1 "0123456789abcdef".

Fixpoint hex_digits (n : nat) (x : N) (acc : string) : string :=
  match n with
  | O => acc
  | S n' => hex_digits n' (x / 16)%N (hex_digit (x mod 16)%N ++ acc)
  end.

Definition hex (h : N) : string := "0x" ++ hex_digits 64 h "".

Definition checksum (a : address) : string :=
  if N.eqb a Sample.alice then "0xA11CE"
  else if N.eqb a Sample.bob then "0xB0B"
  else "0xCA401".

Definition returned_handle (h : euint32) : View.returned :=
  View.One (View.HexString (hex h)).

Definition decoded_handle (h : euint32) : View.bytes32_value :=
  View.HexString (hex h).

Definition call_exception (reason : string) : string :=
  "execution reverted: " ++ reason.

Definition bad_data : string := "could not decode result data".

Definition unsupported_operation : string :=
  "contract runner does not support calling".

Definition print_error (m : string) : string := "Error: " ++ m.

Definition provider : View.ContractRunner := View.mkRunner true.

Definition sepolia : Deployment.LinkMatchInfoType :=
  Deployment.getLinkMatchByChainId (Some 11155111%N) (Some "").

Definition props (s : Hook.JsonRpcSigner) : View.Props :=
  View.mkProps (Some provider) (Some s) sepolia.

Definition env0 : View.Env := View.mkEnv (Some sepolia) (Some 11155111%N).

(** The wallet on another chain, where nothing is deployed. *)
Definition env_other_chain : View.Env :=
  View.mkEnv
    (Some (Deployment.getLinkMatchByChainId (Some 31337%N) (Some "")))
    (Some 31337%N).

Definition world (future : list View.Env) (st : LinkMatch.state)
    (at_address : string) : View.World :=
  View.mkWorld env0 future false None "" false false [] false st at_address.

(** The sample history before Bob's first submission. *)
Definition early : list LinkMatch.call := take 3 Sample.history.

Definition early_ledger : LinkMatch.state :=
  LinkMatch.exec Sample.this Sample.fromExternal Sample.FHE_max
    LinkMatch.init early.

End SampleView.

(** ** More sample worlds for the client workflows *)

Module SampleMore.

(** The hook points at an address where no ledger is deployed. *)
Definition world_elsewhere : Hook.World :=
  Hook.mkWorld Sample.env0 [] false false false None LinkMatch.init
    "0x00000000000000000000000000000000000000aa" 100 [].

(** A wallet whose user declines to sign the decryption authorization. *)
Definition declined (contracts : list string) (s : Hook.JsonRpcSigner)
    : Hook.outcome (option Hook.FhevmDecryptionSignature) :=
  Hook.Return None.

(** What the sample relayer answers for one handle. *)
Definition answer (h : string) : gmap string Hook.clear_value :=
  list_to_map (map (fun p => (fst p, Hook.ClearBigint 0))
                   [(h, Sample.ledger_at)]).

(** A handle that is too short. *)
Definition short_handle : string := "0x03e8".

End SampleMore.

(** * Facts about [maximum] *)

Lemma fold_max_spec (l : list Z) (x : Z) :
  (fold_left Z.max l x = x \/ In (fold_left Z.max l x) l) /\
  (x <= fold_left Z.max l x)%Z /\
  (forall y, In y l -> (y <= fold_left Z.max l x)%Z).
Proof.
  revert x. induction l as [|a l IH]; intros x; simpl.
  - split; [by left | split; [lia | tauto]].
  - destruct (IH (Z.max x a)) as (Hin & Hle & Hall).
    split; [| split].
    + destruct Hin as [Hin | Hin]; [| by right; right].
      destruct (Z.max_spec x a) as [[_ E] | [_ E]]; [right; left | left]; lia.
    + lia.
    + intros y [<- | Hy]; [lia | by apply Hall].
Qed.

(** [maximum l = Some m] says that [m] occurs in [l] and bounds it. *)
Lemma maximum_spec (l : list Z) (m : Z) :
  maximum l = Some m <-> In m l /\ (forall y, In y l -> (y <= m)%Z).
Proof.
  destruct l as [|x l]; simpl.
  - split; [discriminate | tauto].
  - pose proof (fold_max_spec l x) as (Hin & Hle & Hall).
    split.
    + intros [= <-]. split; [destruct Hin; [left | right]; done |].
      intros y [<- | Hy]; [done | by apply Hall].
    + intros [Hm Hb]. f_equal. apply Z.le_antisymm.
      * apply Hb. destruct Hin; [left | right]; done.
      * destruct Hm as [<- | Hm]; [done | by apply Hall].
Qed.

Lemma maximum_Permutation (l l' : list Z) :
  Permutation l l' -> maximum l = maximum l'.
Proof.
  intros HP. destruct (maximum l) as [m|] eqn:E.
  - symmetry. apply maximum_spec. apply maximum_spec in E as [Hm Hb].
    split.
    + by apply (Permutation_in _ HP).
    + intros y Hy. apply Hb. by apply (Permutation_in _ (Permutation_sym HP)).
  - destruct l; [| discriminate].
    by apply Permutation_nil in HP as ->.
Qed.

(** * Facts about [first_occurrences] *)

Lemma first_occurrences_elem (l : list N) (a : N) :
  a ∈ first_occurrences l <-> a ∈ l.
Proof.
  induction l as [|x l IH]; simpl; [done |].
  rewrite !elem_of_cons, list_elem_of_filter, IH.
  destruct (decide (a = x)); tauto.
Qed.

Lemma first_occurrences_NoDup (l : list N) : NoDup (first_occurrences l).
Proof.
  induction l as [|x l IH]; simpl; constructor.
  - rewrite list_elem_of_filter. tauto.
  - by apply NoDup_filter.
Qed.

(** Appending a participant that is already there changes nothing;
    a new one goes to the end. *)
Lemma first_occurrences_snoc (l : list N) (a : N) :
  first_occurrences (l ++ [a]) =
    if decide (a ∈ l) then first_occurrences l else first_occurrences l ++ [a].
Proof.
  induction l as [|x l IH].
  - reflexivity.
  - rewrite <- app_comm_cons. cbn [first_occurrences]. rewrite IH.
    destruct (decide (a = x)) as [-> | Hne].
    + rewrite (decide_True (P := x ∈ x :: l)) by apply list_elem_of_here.
      destruct (decide (x ∈ l)); [done |].
      rewrite filter_app, filter_cons_False, filter_nil, app_nil_r;
        [done | tauto].
    + destruct (decide (a ∈ l)) as [Hin | Hout].
      * rewrite (decide_True (P := a ∈ x :: l)); [done | by right].
      * rewrite (decide_False (P := a ∈ x :: l)).
        -- rewrite filter_app, filter_cons_True, filter_nil; done.
        -- rewrite elem_of_cons. tauto.
Qed.

(** * Properties of the ledger *)

Section LedgerFacts.

Variable this : address.
Variable fromExternal : address -> externalEuint32 -> bytes -> option euint32.
Variable FHE_max : euint32 -> euint32 -> euint32.

Import LinkMatch.

Local Abbreviation submit := (submitGameResult this fromExternal FHE_max).
Local Abbreviation step := (apply_call this fromExternal FHE_max).
Local Abbreviation run := (exec this fromExternal FHE_max).
Local Abbreviation handle_of := (accepted_handle fromExternal).

Lemma exec_app st cs1 cs2 : run st (cs1 ++ cs2) = run (run st cs1) cs2.
Proof. unfold exec. apply fold_left_app. Qed.

Lemma exec_cons st c cs : run st (c :: cs) = run (step st c) cs.
Proof. reflexivity. Qed.

Lemma exec_snoc st cs c : run st (cs ++ [c]) = step (run st cs) c.
Proof. by rewrite exec_app. Qed.

Lemma submit_ok_inv st c st' :
  submit st c = Ok st' -> exists h, handle_of c = Some h.
Proof.
  unfold submitGameResult, accepted_handle.
  destruct (fromExternal _ _ _); [eauto | discriminate].
Qed.

Lemma submit_rejected st c :
  handle_of c = None -> step st c = st.
Proof.
  unfold apply_call, submitGameResult, accepted_handle. by intros ->.
Qed.

(** What a successful call does when the sender is new. *)
Lemma submit_first st c h :
  handle_of c = Some h ->
  hasSubmitted_at st (msg_sender c) = false ->
  submit st c = Ok
    (mkState
       (<[msg_sender c := mkResult h (msg_sender c) (block_timestamp c)]>
          (playerResults st))
       (players st ++ [msg_sender c])
       (<[msg_sender c := true]> (hasSubmitted st))
       ({[ (h, msg_sender c) ]} ∪ ({[ (h, this) ]} ∪ acl st))
       (events st ++ [GameResultSubmitted (msg_sender c) (block_timestamp c)])).
Proof.
  unfold accepted_handle, submitGameResult. intros -> Hs.
  unfold allowThis, allow, hasSubmitted_at in *. simpl. by rewrite Hs.
Qed.

(** What a successful call does when the sender has a record already. *)
Lemma submit_again st c h :
  handle_of c = Some h ->
  hasSubmitted_at st (msg_sender c) = true ->
  let best := FHE_max h (score (playerResults_at st (msg_sender c))) in
  submit st c = Ok
    (mkState
       (<[msg_sender c := mkResult best (msg_sender c) (block_timestamp c)]>
          (playerResults st))
       (players st)
       (hasSubmitted st)
       ({[ (best, msg_sender c) ]} ∪ ({[ (best, this) ]} ∪
          ({[ (h, msg_sender c) ]} ∪ ({[ (h, this) ]} ∪ acl st))))
       (events st ++ [GameResultSubmitted (msg_sender c) (block_timestamp c)])).
Proof.
  unfold accepted_handle, submitGameResult. intros -> Hs.
  unfold allowThis, allow, hasSubmitted_at, playerResults_at in *. simpl.
  by rewrite Hs.
Qed.

Lemma step_accepted st c h :
  handle_of c = Some h ->
  exists st', submit st c = Ok st' /\ step st c = st'.
Proof.
  intros Hh. unfold apply_call.
  destruct (hasSubmitted_at st (msg_sender c)) eqn:Hs.
  - rewrite (submit_again _ _ _ Hh Hs). eauto.
  - rewrite (submit_first _ _ _ Hh Hs). eauto.
Qed.

(** A call touches no record but the sender's. *)
Lemma step_other st c p :
  msg_sender c <> p ->
  playerResults_at (step st c) p = playerResults_at st p /\
  hasSubmitted_at (step st c) p = hasSubmitted_at st p.
Proof.
  intros Hne. unfold apply_call.
  destruct (handle_of c) as [h|] eqn:Hh.
  - destruct (hasSubmitted_at st (msg_sender c)) eqn:Hs.
    + rewrite (submit_again _ _ _ Hh Hs).
      unfold playerResults_at, hasSubmitted_at. simpl.
      by rewrite lookup_insert_ne.
    + rewrite (submit_first _ _ _ Hh Hs).
      unfold playerResults_at, hasSubmitted_at. simpl.
      by rewrite !lookup_insert_ne.
  - fold (step st c). by rewrite submit_rejected.
Qed.

Lemma step_first st c h :
  handle_of c = Some h ->
  hasSubmitted_at st (msg_sender c) = false ->
  playerResults_at (step st c) (msg_sender c)
    = mkResult h (msg_sender c) (block_timestamp c) /\
  hasSubmitted_at (step st c) (msg_sender c) = true /\
  players (step st c) = players st ++ [msg_sender c].
Proof.
  intros Hh Hs. unfold apply_call. rewrite (submit_first _ _ _ Hh Hs).
  unfold playerResults_at, hasSubmitted_at. simpl.
  by rewrite !lookup_insert_eq.
Qed.

Lemma step_again st c h :
  handle_of c = Some h ->
  hasSubmitted_at st (msg_sender c) = true ->
  playerResults_at (step st c) (msg_sender c)
    = mkResult (FHE_max h (score (playerResults_at st (msg_sender c))))
               (msg_sender c) (block_timestamp c) /\
  hasSubmitted_at (step st c) (msg_sender c) = true /\
  players (step st c) = players st.
Proof.
  intros Hh Hs. unfold apply_call. rewrite (submit_again _ _ _ Hh Hs).
  unfold playerResults_at. simpl. rewrite lookup_insert_eq.
  unfold hasSubmitted_at in *. by simpl.
Qed.

(** ** The participant index *)

Lemma accepted_senders_snoc cs c :
  accepted_senders fromExternal (cs ++ [c]) =
    if accepted fromExternal c
    then accepted_senders fromExternal cs ++ [msg_sender c]
    else accepted_senders fromExternal cs.
Proof.
  unfold accepted_senders. rewrite filter_app, map_app.
  destruct (accepted fromExternal c) eqn:E.
  - by rewrite filter_cons_True, filter_nil.
  - rewrite filter_cons_False, filter_nil, app_nil_r; [done |].
    by rewrite E.
Qed.

Lemma accepted_handle_of c :
  accepted fromExternal c = true <-> exists h, handle_of c = Some h.
Proof.
  unfold accepted. destruct (handle_of c) as [h|]; split; try done.
  - eauto.
  - by intros [? ?].
Qed.

(** In every reachable storage, [hasSubmitted] marks the senders of the
    accepted transactions and [players] lists them in the order of their
    first accepted transaction. *)
Lemma reachable_index cs :
  players (run init cs) = first_occurrences (accepted_senders fromExternal cs) /\
  (forall p, hasSubmitted_at (run init cs) p = true
             <-> p ∈ accepted_senders fromExternal cs).
Proof.
  induction cs as [|c cs [IHp IHs]] using rev_ind.
  - split; [done |]. intros p. split; [done |]. by intros ?%not_elem_of_nil.
  - rewrite exec_snoc, accepted_senders_snoc.
    destruct (handle_of c) as [h|] eqn:Hh.
    + assert (Ha : accepted fromExternal c = true)
        by (apply accepted_handle_of; eauto).
      rewrite Ha, first_occurrences_snoc.
      destruct (hasSubmitted_at (run init cs) (msg_sender c)) eqn:Hs.
      * destruct (step_again _ _ _ Hh Hs) as (_ & Hs' & Hp).
        apply IHs in Hs as Hin. rewrite decide_True by done.
        split; [congruence |]. intros p. rewrite elem_of_app, list_elem_of_singleton.
        destruct (decide (msg_sender c = p)) as [<- | Hne]; [tauto |].
        destruct (step_other (run init cs) c p Hne) as (_ & ->).
        rewrite IHs. split; [tauto | intros [? | ?]; [done | congruence]].
      * destruct (step_first _ _ _ Hh Hs) as (_ & Hs' & Hp).
        assert (Hout : msg_sender c ∉ accepted_senders fromExternal cs).
        { intros Hin. apply IHs in Hin. congruence. }
        rewrite decide_False by done.
        split; [congruence |]. intros p. rewrite elem_of_app, list_elem_of_singleton.
        destruct (decide (msg_sender c = p)) as [<- | Hne]; [tauto |].
        destruct (step_other (run init cs) c p Hne) as (_ & ->).
        rewrite IHs. split; [tauto | intros [? | ?]; [done | congruence]].
    + assert (Ha : accepted fromExternal c = false).
      { destruct (accepted fromExternal c) eqn:E; [| done].
        apply accepted_handle_of in E as [? ?]. congruence. }
      rewrite Ha, (submit_rejected _ _ Hh). by split.
Qed.

(** The loop of [getAllEncryptedScores] copies [players] and reads each
    one's handle. *)
Lemma getAllEncryptedScores_loop st (n : nat) : forall (pa : list N) (es : list N),
  n <= length (players st) ->
  length pa = length (players st) -> length es = length (players st) ->
  fold_left (getAllEncryptedScores_body st) (seq 0 n) (pa, es) =
    (take n (players st) ++ drop n pa,
     map (fun a => score (playerResults_at st a)) (take n (players st))
       ++ drop n es).
Proof.
  induction n as [|n IH]; intros pa es Hn Hpa Hes.
  - by rewrite !take_0, !drop_0.
  - rewrite seq_S, fold_left_app, IH by lia. simpl.
    unfold getAllEncryptedScores_body. simpl.
    destruct (lookup_lt_is_Some_2 (players st) n ltac:(lia)) as [a Ha].
    rewrite Ha. simpl.
    rewrite (take_S_r _ _ _ Ha), map_app. simpl.
    assert (Hl : length (take n (players st)) = n) by (rewrite length_take; lia).
    f_equal.
    + rewrite <- (Nat.add_0_r n) at 1. rewrite <- Hl at 1.
      rewrite insert_app_r.
      destruct (drop n pa) as [|x d] eqn:Hd.
      { apply (f_equal length) in Hd. rewrite length_drop in Hd. simpl in Hd. lia. }
      simpl. rewrite <- app_assoc. simpl. do 2 f_equal.
      change d with (drop 1 (x :: d)). rewrite <- Hd, drop_drop. f_equal. lia.
    + rewrite <- (Nat.add_0_r n) at 1.
      rewrite <- (length_map (fun a => score (playerResults_at st a))
                    (take n (players st))) in Hl.
      rewrite <- Hl at 1. rewrite insert_app_r.
      destruct (drop n es) as [|x d] eqn:Hd.
      { apply (f_equal length) in Hd. rewrite length_drop in Hd. simpl in Hd. lia. }
      simpl. rewrite <- app_assoc. simpl. do 2 f_equal.
      change d with (drop 1 (x :: d)). rewrite <- Hd, drop_drop. f_equal. lia.
Qed.

Lemma getAllEncryptedScores_spec st :
  getAllEncryptedScores st =
    (players st, map (fun a => score (playerResults_at st a)) (players st)).
Proof.
  unfold getAllEncryptedScores.
  rewrite getAllEncryptedScores_loop by (rewrite ?length_replicate; lia).
  rewrite firstn_all, !drop_ge, !app_nil_r by (rewrite length_replicate; lia).
  done.
Qed.

(** C5.  In every reachable storage: a participant's first accepted
    submission appends that participant, once, to [players]; a submission by
    a participant who is in the index already leaves [getPlayerCount]
    unchanged; [players] has no duplicates; and [getAllEncryptedScores]
    returns the participants in the order of their first accepted
    submission, each with the handle currently stored for them, in two
    arrays whose length is [getPlayerCount]. *)
Theorem participant_index_append_only (cs : list call) :
  let st := run init cs in
  (forall c h, handle_of c = Some h ->
     msg_sender c ∉ accepted_senders fromExternal cs ->
     players (step st c) = players st ++ [msg_sender c]) /\
  (forall c, msg_sender c ∈ accepted_senders fromExternal cs ->
     getPlayerCount (step st c) = getPlayerCount st) /\
  NoDup (players st) /\
  fst (getAllEncryptedScores st)
    = first_occurrences (accepted_senders fromExternal cs) /\
  snd (getAllEncryptedScores st)
    = map (fun a => score (playerResults_at st a))
          (fst (getAllEncryptedScores st)) /\
  N.of_nat (length (fst (getAllEncryptedScores st))) = getPlayerCount st /\
  N.of_nat (length (snd (getAllEncryptedScores st))) = getPlayerCount st.
Proof.
  intros st. destruct (reachable_index cs) as [Hp Hs]. fold st in Hp, Hs.
  rewrite getAllEncryptedScores_spec. simpl.
  split; [| split; [| split; [| split; [| split; [| split]]]]].
  - intros c h Hh Hout.
    assert (Hf : hasSubmitted_at st (msg_sender c) = false).
    { destruct (hasSubmitted_at st (msg_sender c)) eqn:E; [| done].
      by apply Hs in E. }
    by destruct (step_first _ _ _ Hh Hf) as (_ & _ & ->).
  - intros c Hin. apply Hs in Hin. unfold getPlayerCount.
    destruct (handle_of c) as [h|] eqn:Hh.
    + by destruct (step_again _ _ _ Hh Hin) as (_ & _ & ->).
    + by rewrite (submit_rejected _ _ Hh).
  - rewrite Hp. apply first_occurrences_NoDup.
  - done.
  - done.
  - done.
  - unfold getPlayerCount. by rewrite length_map.
Qed.

(** C6.  In every reachable storage [getPlayerResult p] reverts with
    "Player has not submitted a result" exactly when no submission of [p]
    was ever accepted; exactly then [checkPlayerSubmitted p] is false and
    [p] is missing from the enumeration; and when [p] has submitted,
    [getPlayerResult p] returns the handle stored for [p]. *)
Theorem getPlayerResult_not_found_iff (cs : list call) (p : address) :
  let st := run init cs in
  let never := p ∉ accepted_senders fromExternal cs in
  (getPlayerResult st p = Revert "Player has not submitted a result" <-> never) /\
  (checkPlayerSubmitted st p = false <-> never) /\
  (p ∉ fst (getAllEncryptedScores st) <-> never) /\
  (p ∈ accepted_senders fromExternal cs ->
     getPlayerResult st p = Ok (score (playerResults_at st p))).
Proof.
  intros st never. unfold never.
  destruct (reachable_index cs) as [Hp Hs]. fold st in Hp, Hs.
  rewrite getAllEncryptedScores_spec. simpl.
  unfold getPlayerResult, checkPlayerSubmitted.
  rewrite Hp, first_occurrences_elem, <- (Hs p).
  destruct (hasSubmitted_at st p); repeat split; try done.
Qed.

(** C7.  In every reachable storage [getPlayerByIndex i] reverts with
    "Index out of bounds" exactly when [i >= getPlayerCount()]; so it does
    at [i = getPlayerCount()]; and for [i < getPlayerCount()] it returns
    the [i]-th participant in the order of first accepted submissions. *)
Theorem getPlayerByIndex_out_of_range_iff (cs : list call) (i : uint256) :
  let st := run init cs in
  (getPlayerByIndex st i = Revert "Index out of bounds"
     <-> (getPlayerCount st <= i)%N) /\
  getPlayerByIndex st (getPlayerCount st) = Revert "Index out of bounds" /\
  ((i < getPlayerCount st)%N ->
     exists a, getPlayerByIndex st i = Ok a /\
       first_occurrences (accepted_senders fromExternal cs) !! N.to_nat i
         = Some a).
Proof.
  intros st. destruct (reachable_index cs) as [Hp _]. fold st in Hp.
  unfold getPlayerByIndex, getPlayerCount. rewrite <- Hp.
  assert (Hin : forall j, (j < N.of_nat (length (players st)))%N ->
            exists a, players st !! N.to_nat j = Some a).
  { intros j Hj. apply lookup_lt_is_Some_2. lia. }
  split; [| split].
  - destruct (N.ltb_spec i (N.of_nat (length (players st)))) as [Hlt | Hge].
    + destruct (Hin i Hlt) as [a ->]. split; [done | lia].
    + done.
  - by rewrite N.ltb_irrefl.
  - intros Hlt. destruct (Hin i Hlt) as [a Ha].
    exists a. apply N.ltb_lt in Hlt. by rewrite Hlt, Ha.
Qed.

(** C2.  When a participant with an accepted submission submits again and
    the backend accepts the ciphertext, the call succeeds: the stored handle
    becomes [FHE.max] of the new handle and the stored one, the record's
    timestamp becomes the block's, and [players] is left as it was. *)
Theorem resubmission_keeps_maximum (cs : list call) (c : call) (h : euint32) :
  let st := run init cs in
  let p := msg_sender c in
  p ∈ accepted_senders fromExternal cs ->
  handle_of c = Some h ->
  exists st', submit st c = Ok st' /\
    score (playerResults_at st' p) = FHE_max h (score (playerResults_at st p)) /\
    timestamp (playerResults_at st' p) = block_timestamp c /\
    player (playerResults_at st' p) = p /\
    players st' = players st.
Proof.
  intros st p Hin Hh. destruct (reachable_index cs) as [_ Hs].
  apply Hs in Hin. fold st in Hin.
  destruct (step_accepted st c h Hh) as (st' & Hok & Hst).
  exists st'. split; [done |].
  destruct (step_again _ _ _ Hh Hin) as (Hr & _ & Hp).
  rewrite Hst in Hr, Hp. fold p in Hr. by rewrite Hr.
Qed.

(** ** Access grants *)

Lemma submit_acl st c st' :
  submit st c = Ok st' ->
  let h' := score (playerResults_at st' (msg_sender c)) in
  (h', this) ∈ acl st' /\ (h', msg_sender c) ∈ acl st' /\
  (forall h q, (h, q) ∈ acl st' ->
     (h, q) ∈ acl st \/
     ((q = this \/ q = msg_sender c) /\ (handle_of c = Some h \/ h = h'))).
Proof.
  intros Hok. destruct (submit_ok_inv _ _ _ Hok) as [h0 Hh].
  destruct (hasSubmitted_at st (msg_sender c)) eqn:Hs.
  - rewrite (submit_again _ _ _ Hh Hs) in Hok. injection Hok as <-.
    unfold playerResults_at at 1 2 3. simpl. rewrite lookup_insert_eq. simpl.
    split; [set_solver | split; [set_solver |]].
    intros h q. rewrite !elem_of_union, !elem_of_singleton.
    intros [[= -> ->] | [[= -> ->] | [[= -> ->] | [[= -> ->] | Hin]]]]; tauto.
  - rewrite (submit_first _ _ _ Hh Hs) in Hok. injection Hok as <-.
    unfold playerResults_at. simpl. rewrite lookup_insert_eq. simpl.
    split; [set_solver | split; [set_solver |]].
    intros h q. rewrite !elem_of_union, !elem_of_singleton.
    intros [[= -> ->] | [[= -> ->] | Hin]]; tauto.
Qed.

(** Every grant in a reachable storage is to the contract, or to a
    participant for a handle that one of its own accepted transactions
    submitted or left stored as its record. *)
Lemma acl_origin cs : forall h q,
  (h, q) ∈ acl (run init cs) ->
  q = this \/
  exists cs1 c cs2, cs = cs1 ++ c :: cs2 /\ msg_sender c = q /\
    accepted fromExternal c = true /\
    (handle_of c = Some h \/
     h = score (playerResults_at (run init (cs1 ++ [c])) q)).
Proof.
  induction cs as [|c cs IH] using rev_ind; intros h q.
  - simpl. set_solver.
  - rewrite exec_snoc. unfold apply_call at 1.
    destruct (submit (run init cs) c) as [st'|] eqn:Hok.
    + destruct (submit_acl _ _ _ Hok) as (_ & _ & Hnew).
      intros Hin. destruct (Hnew _ _ Hin) as [Hold | [Hq Hh]].
      * destruct (IH _ _ Hold) as [-> | (cs1 & d & cs2 & -> & Hd)]; [by left |].
        right. exists cs1, d, (cs2 ++ [c]). by rewrite <- app_assoc.
      * destruct Hq as [-> | ->]; [by left |].
        right. exists cs, c, []. split; [done |]. split; [done |].
        split.
        { apply accepted_handle_of. eapply submit_ok_inv, Hok. }
        rewrite exec_snoc. unfold apply_call. by rewrite Hok.
    + intros Hin. destruct (IH _ _ Hin) as [-> | (cs1 & d & cs2 & -> & Hd)];
        [by left |].
      right. exists cs1, d, (cs2 ++ [c]). by rewrite <- app_assoc.
Qed.


(** ** The stored handle is the running maximum *)

Section Decrypt.

(** The plaintext behind a handle, and the one property of [FHE.max] the
    ledger relies on. *)
Variable decrypt : euint32 -> Z.
Hypothesis decrypt_max :
  forall a b, decrypt (FHE_max a b) = Z.max (decrypt a) (decrypt b).

Local Abbreviation stored_plaintext := (stored_plaintext decrypt).
Local Abbreviation submitted_plaintexts :=
  (submitted_plaintexts fromExternal decrypt).

Lemma submitted_handles_cons p c cs :
  submitted_handles fromExternal p (c :: cs) =
    match (if N.eqb (msg_sender c) p then handle_of c else None) with
    | Some h => h :: submitted_handles fromExternal p cs
    | None => submitted_handles fromExternal p cs
    end.
Proof. reflexivity. Qed.

(** Once [p] has a record, every later accepted submission of [p] is
    folded into it with [Z.max]. *)
Lemma exec_record_known p cs : forall st,
  hasSubmitted_at st p = true ->
  hasSubmitted_at (run st cs) p = true /\
  stored_plaintext (run st cs) p =
    fold_left Z.max (submitted_plaintexts p cs) (stored_plaintext st p).
Proof.
  unfold submitted_plaintexts.
  induction cs as [|c cs IH]; intros st Hs; [done |].
  rewrite exec_cons, submitted_handles_cons.
  destruct (N.eqb_spec (msg_sender c) p) as [<- | Hne].
  - destruct (handle_of c) as [h|] eqn:Hh.
    + destruct (step_again _ _ _ Hh Hs) as (Hr & Hs' & _).
      destruct (IH _ Hs') as (IH1 & IH2). split; [done |].
      rewrite IH2. simpl. f_equal.
      unfold stored_plaintext. rewrite Hr. simpl.
      rewrite decrypt_max. lia.
    + rewrite (submit_rejected _ _ Hh). by apply IH.
  - destruct (step_other st c p Hne) as (Hr & Hs').
    rewrite <- Hs' in Hs. destruct (IH _ Hs) as (IH1 & IH2).
    split; [done |]. rewrite IH2. unfold stored_plaintext. by rewrite Hr.
Qed.

(** Before [p]'s first accepted submission there is no record; the first
    one stores its handle as it is. *)
Lemma exec_record_new p cs : forall st,
  hasSubmitted_at st p = false ->
  match submitted_plaintexts p cs with
  | [] => hasSubmitted_at (run st cs) p = false
  | s :: ss =>
      hasSubmitted_at (run st cs) p = true /\
      stored_plaintext (run st cs) p = fold_left Z.max ss s
  end.
Proof.
  unfold submitted_plaintexts.
  induction cs as [|c cs IH]; intros st Hs; [done |].
  rewrite exec_cons, submitted_handles_cons.
  destruct (N.eqb_spec (msg_sender c) p) as [<- | Hne].
  - destruct (handle_of c) as [h|] eqn:Hh.
    + destruct (step_first _ _ _ Hh Hs) as (Hr & Hs' & _).
      destruct (exec_record_known (msg_sender c) cs _ Hs') as (E1 & E2).
      simpl. split; [done |]. rewrite E2. f_equal.
      unfold stored_plaintext. by rewrite Hr.
    + rewrite (submit_rejected _ _ Hh). by apply IH.
  - destruct (step_other st c p Hne) as (Hr & Hs').
    rewrite <- Hs' in Hs. by apply IH.
Qed.

Lemma submitted_handles_Permutation p cs cs' :
  Permutation cs cs' ->
  Permutation (submitted_handles fromExternal p cs)
              (submitted_handles fromExternal p cs').
Proof.
  induction 1 as [| c l l' _ IH | c d l | l l' l'' _ IH1 _ IH2].
  - constructor.
  - rewrite !submitted_handles_cons.
    destruct (if N.eqb (msg_sender c) p then _ else _); [by constructor | done].
  - rewrite !submitted_handles_cons.
    destruct (if N.eqb (msg_sender c) p then _ else _);
      destruct (if N.eqb (msg_sender d) p then _ else _);
      try done; by constructor.
  - by etransitivity.
Qed.

Lemma stored_is_maximum p cs :
  submitted_plaintexts p cs <> [] ->
  maximum (submitted_plaintexts p cs) = Some (stored_plaintext (run init cs) p).
Proof.
  intros Hne.
  pose proof (exec_record_new p cs init eq_refl) as H.
  destruct (submitted_plaintexts p cs) as [|s ss]; [done |].
  destruct H as (_ & ->). reflexivity.
Qed.

(** C1.  With [decrypt (FHE.max a b) = max (decrypt a) (decrypt b)], after
    any sequence of transactions in which participant [p] had at least one
    submission accepted, the handle stored for [p] decrypts to the maximum
    of the plaintexts [p] submitted, and every reordering of the sequence
    ends with the same plaintext. *)
Theorem record_decrypts_to_maximum (p : address) (cs : list call) :
  submitted_plaintexts p cs <> [] ->
  maximum (submitted_plaintexts p cs) = Some (stored_plaintext (run init cs) p) /\
  (forall cs', Permutation cs cs' ->
     stored_plaintext (run init cs') p = stored_plaintext (run init cs) p).
Proof.
  intros Hne. split; [by apply stored_is_maximum |].
  intros cs' HP.
  assert (HP' : Permutation (submitted_plaintexts p cs)
                            (submitted_plaintexts p cs'))
    by (apply Permutation_map, submitted_handles_Permutation, HP).
  assert (Hne' : submitted_plaintexts p cs' <> []).
  { intros E. rewrite E in HP'. symmetry in HP'.
    by apply Permutation_nil in HP'. }
  pose proof (stored_is_maximum p cs Hne) as E1.
  pose proof (stored_is_maximum p cs' Hne') as E2.
  rewrite (maximum_Permutation _ _ HP') in E1. congruence.
Qed.

End Decrypt.

End LedgerFacts.

(** ** The sample history *)

Example sample_players :
  LinkMatch.players Sample.final = [Sample.alice; Sample.bob].
Proof. vm_compute. reflexivity. Qed.

Example sample_alice_best :
  LinkMatch.getPlayerResult Sample.final Sample.alice = Ok 15%N.
Proof. vm_compute. reflexivity. Qed.

Example sample_count_and_index :
  LinkMatch.getPlayerCount Sample.final = 2%N /\
  LinkMatch.getPlayerByIndex Sample.final 0 = Ok Sample.alice /\
  LinkMatch.getPlayerByIndex Sample.final 1 = Ok Sample.bob /\
  LinkMatch.getPlayerByIndex Sample.final 2 = Revert "Index out of bounds" /\
  LinkMatch.getAllEncryptedScores Sample.final
    = ([Sample.alice; Sample.bob], [15%N; 12%N]).
Proof. vm_compute. repeat split. Qed.

Example sample_never_submitted :
  LinkMatch.getPlayerResult Sample.final 3%N
    = Revert "Player has not submitted a result" /\
  LinkMatch.checkPlayerSubmitted Sample.final 3%N = false.
Proof. vm_compute. split; reflexivity. Qed.

(** Alice submits 9 after her best of 15: accepted, and 15 stays. *)
Example sample_resubmission :
  LinkMatch.getPlayerResult Sample.final_again Sample.alice = Ok 15%N /\
  LinkMatch.timestamp (LinkMatch.playerResults_at Sample.final_again Sample.alice)
    = 105%N /\
  LinkMatch.players Sample.final_again = [Sample.alice; Sample.bob] /\
  bool_decide ((15%N, Sample.this) ∈ LinkMatch.acl Sample.final_again) = true /\
  bool_decide ((15%N, Sample.alice) ∈ LinkMatch.acl Sample.final_again) = true /\
  bool_decide ((15%N, Sample.bob) ∈ LinkMatch.acl Sample.final_again) = false.
Proof. vm_compute. repeat split. Qed.

Lemma sample_accepted_senders :
  LinkMatch.accepted_senders Sample.fromExternal Sample.history
    = [Sample.alice; Sample.alice; Sample.bob; Sample.alice].
Proof. vm_compute. reflexivity. Qed.

Lemma sample_carol_is_new :
  Sample.carol ∉ LinkMatch.accepted_senders Sample.fromExternal Sample.history.
Proof.
  rewrite sample_accepted_senders. intros H.
  repeat (apply elem_of_cons in H as [H | H]; [discriminate |]).
  by apply not_elem_of_nil in H.
Qed.

Lemma participant_index_append_only_witness :
  LinkMatch.players
    (LinkMatch.apply_call Sample.this Sample.fromExternal Sample.FHE_max
       Sample.final Sample.first_of_carol)
    = LinkMatch.players Sample.final ++ [Sample.carol] /\
  LinkMatch.getPlayerCount Sample.final_again
    = LinkMatch.getPlayerCount Sample.final /\
  NoDup (LinkMatch.players Sample.final).
Proof.
  destruct (participant_index_append_only Sample.this Sample.fromExternal
              Sample.FHE_max Sample.history) as (H1 & H2 & H3 & _).
  split; [| split].
  - apply (H1 Sample.first_of_carol 4%N); [reflexivity |].
    exact sample_carol_is_new.
  - apply (H2 Sample.again). apply list_elem_of_here.
  - exact H3.
Defined.

Lemma getPlayerResult_not_found_iff_witness :
  LinkMatch.getPlayerResult Sample.final Sample.carol
    = Revert "Player has not submitted a result" /\
  LinkMatch.checkPlayerSubmitted Sample.final Sample.carol = false /\
  (Sample.carol ∉ fst (LinkMatch.getAllEncryptedScores Sample.final)) /\
  LinkMatch.getPlayerResult Sample.final Sample.alice
    = Ok (LinkMatch.score (LinkMatch.playerResults_at Sample.final Sample.alice)).
Proof.
  destruct (getPlayerResult_not_found_iff Sample.this Sample.fromExternal
              Sample.FHE_max Sample.history Sample.carol) as (H1 & H2 & H3 & _).
  destruct (getPlayerResult_not_found_iff Sample.this Sample.fromExternal
              Sample.FHE_max Sample.history Sample.alice) as (_ & _ & _ & H4).
  split; [apply H1, sample_carol_is_new |].
  split; [apply H2, sample_carol_is_new |].
  split; [apply H3, sample_carol_is_new |].
  apply H4. apply list_elem_of_here.
Defined.

Lemma getPlayerByIndex_out_of_range_iff_witness :
  LinkMatch.getPlayerByIndex Sample.final 2 = Revert "Index out of bounds" /\
  LinkMatch.getPlayerByIndex Sample.final 7 = Revert "Index out of bounds" /\
  exists a, LinkMatch.getPlayerByIndex Sample.final 1 = Ok a /\
    (first_occurrences
       (LinkMatch.accepted_senders Sample.fromExternal Sample.history))
      !! 1%nat = Some a.
Proof.
  destruct (getPlayerByIndex_out_of_range_iff Sample.this Sample.fromExternal
              Sample.FHE_max Sample.history 7%N) as (H1 & H2 & _).
  destruct (getPlayerByIndex_out_of_range_iff Sample.this Sample.fromExternal
              Sample.FHE_max Sample.history 1%N) as (_ & _ & H3).
  split; [exact H2 |].
  split; [apply H1; vm_compute; discriminate |].
  apply H3. vm_compute. reflexivity.
Defined.

Lemma resubmission_keeps_maximum_witness :
  let p := Sample.alice in
  exists st',
    LinkMatch.submitGameResult Sample.this Sample.fromExternal Sample.FHE_max
      Sample.final Sample.again = Ok st' /\
    LinkMatch.score (LinkMatch.playerResults_at st' p)
      = Sample.FHE_max 9
          (LinkMatch.score (LinkMatch.playerResults_at Sample.final p)) /\
    LinkMatch.timestamp (LinkMatch.playerResults_at st' p) = 105%N /\
    LinkMatch.player (LinkMatch.playerResults_at st' p) = p /\
    LinkMatch.players st' = LinkMatch.players Sample.final.
Proof.
  apply (resubmission_keeps_maximum Sample.this Sample.fromExternal
           Sample.FHE_max Sample.history Sample.again 9%N).
  - apply list_elem_of_here.
  - reflexivity.
Defined.


Lemma record_decrypts_to_maximum_witness :
  let stored cs :=
    LinkMatch.stored_plaintext Sample.decrypt
      (LinkMatch.exec Sample.this Sample.fromExternal Sample.FHE_max
         LinkMatch.init cs) Sample.alice in
  let sent :=
    LinkMatch.submitted_plaintexts Sample.fromExternal Sample.decrypt
      Sample.alice Sample.history in
  sent = [10; 7; 15]%Z /\
  stored Sample.history = 15%Z /\
  maximum sent = Some (stored Sample.history) /\
  (forall cs', Permutation Sample.history cs' ->
     stored cs' = stored Sample.history).
Proof.
  split; [reflexivity |]. split; [vm_compute; reflexivity |].
  apply (record_decrypts_to_maximum Sample.this Sample.fromExternal
           Sample.FHE_max Sample.decrypt).
  - intros a b. apply N2Z.inj_max.
  - discriminate.
Defined.

(** * Properties of the client workflows *)

Lemma strict_eq_true (a b : option string) :
  Hook.strict_eq a b = true <-> a = b.
Proof.
  destruct a as [x|], b as [y|]; simpl; try (split; congruence).
  rewrite String.eqb_eq. split; congruence.
Qed.

Lemma strict_eq_num_true (a b : option N) :
  Hook.strict_eq_num a b = true <-> a = b.
Proof.
  destruct a as [x|], b as [y|]; simpl; try (split; congruence).
  rewrite N.eqb_eq. split; congruence.
Qed.

Section HookFacts.

Variable this : address.
Variable fromExternal : address -> externalEuint32 -> bytes -> option euint32.
Variable FHE_max : euint32 -> euint32 -> euint32.
Variable encrypt :
  string -> string -> float -> Hook.outcome (externalEuint32 * bytes).
Variable account : string -> address.
Variable tx_hash : LinkMatch.call -> string.
Variable loadOrSign :
  list string -> Hook.JsonRpcSigner ->
  Hook.outcome (option Hook.FhevmDecryptionSignature).
Variable userDecrypt :
  list (string * string) -> Hook.FhevmDecryptionSignature ->
  Hook.outcome (gmap string Hook.clear_value).

Import Hook.

Local Abbreviation submit_score :=
  (Hook.submitGameResult this fromExternal FHE_max encrypt account tx_hash).
Local Abbreviation decrypt_my_score :=
  (Hook.decryptPlayerResult loadOrSign userDecrypt).
Local Abbreviation decrypt_click :=
  (Hook.decrypt_button_click loadOrSign userDecrypt).

(** The staleness test in terms of the environment it reads. *)
Lemma isStale_spec a c s w :
  isStale a c s w =
    (Return (negb (strict_eq (Some a) (linkMatchRef_address (env w)))
             || negb (strict_eq_num c (active_chainId (env w)))
             || negb (same_object (Some s) (active_signer (env w)))), w).
Proof. reflexivity. Qed.

Lemma isStale_changed a c s w :
  linkMatchRef_address (env w) <> Some a \/
  active_chainId (env w) <> c \/
  same_object (Some s) (active_signer (env w)) = false ->
  isStale a c s w = (Return true, w).
Proof.
  intros H. rewrite isStale_spec. f_equal. f_equal.
  destruct H as [H | [H | H]].
  - destruct (strict_eq (Some a) (linkMatchRef_address (env w))) eqn:E; [| done].
    apply strict_eq_true in E. congruence.
  - destruct (strict_eq_num c (active_chainId (env w))) eqn:E.
    + apply strict_eq_num_true in E. congruence.
    + by rewrite orb_true_r.
  - rewrite H. by rewrite orb_true_r.
Qed.

(** The run of a submission whose snapshot is out of date when encryption
    completes. *)
Lemma stale_run
    (result : GameResult) (c : option N) (a : string) (s : JsonRpcSigner)
    (enc : externalEuint32 * bytes) (w : World) :
  encrypt a (signer_address s) (Math_floor (score result * 1000)%float)
    = Return enc ->
  (linkMatchRef_address (env (resume (resume w))) <> Some a \/
   active_chainId (env (resume (resume w))) <> c \/
   same_object (Some s) (active_signer (env (resume (resume w)))) = false) ->
  exists w',
    submitGameResult_run this fromExternal FHE_max encrypt account tx_hash
      result c a s w = (Return tt, w') /\
    ledger w' = ledger w /\
    log w' = log w ++
      [ Sleep 100;
        CreateEncryptedInput a (signer_address s);
        Add32 (Math_floor (score result * 1000)%float);
        Encrypt;
        SetMessage "Ignore submit";
        SetIsSubmitting false ] /\
    isSubmittingRef w' = false.
Proof.
  intros Henc Hstale.
  assert (Hst : forall w0, env w0 = env (resume (resume w)) ->
            isStale a c s w0 = (Return true, w0)).
  { intros w0 E. apply isStale_changed. by rewrite E. }
  destruct w as [e0 fut rf df sf cr ld la bt lg].
  cbv [submitGameResult_run try_finally try_catch bind act await modify lift
       setMessage set_isSubmittingRef ret resume
       env future isRefreshingRef isDecryptingRef isSubmittingRef
       clearResultRef ledger ledger_address block_time log].
  rewrite Henc. rewrite Hst by reflexivity.
  eexists. split; [reflexivity |]. cbn [ledger log isSubmittingRef].
  repeat split. by rewrite <- !app_assoc.
Qed.

(** When encryption throws, the error is reported and nothing is sent. *)
Lemma failed_encryption_run
    (result : GameResult) (c : option N) (a : string) (s : JsonRpcSigner)
    (err : string) (w : World) :
  encrypt a (signer_address s) (Math_floor (score result * 1000)%float)
    = Throw err ->
  exists w',
    submitGameResult_run this fromExternal FHE_max encrypt account tx_hash
      result c a s w = (Return tt, w') /\
    ledger w' = ledger w /\
    log w' = log w ++
      [ Sleep 100;
        CreateEncryptedInput a (signer_address s);
        Add32 (Math_floor (score result * 1000)%float);
        Encrypt;
        SetMessage ("Submit Failed! " ++ err);
        SetIsSubmitting false ].
Proof.
  intros Henc.
  destruct w as [e0 fut rf df sf cr ld la bt lg].
  cbv [submitGameResult_run try_finally try_catch bind act await modify lift
       setMessage set_isSubmittingRef ret resume
       env future isRefreshingRef isDecryptingRef isSubmittingRef
       clearResultRef ledger ledger_address block_time log].
  rewrite Henc.
  eexists. split; [reflexivity |]. cbn [ledger log].
  split; [done |]. by rewrite <- !app_assoc.
Qed.

(** C3.  Take as snapshot the ledger address, chain and signer the
    workflow captured when it started.  If, when encryption completes, the
    address in [linkMatchRef], the active chain or the active signer differs
    from the snapshot, the workflow sends nothing: the ledger is as it was
    and the log has no new contract call.  When the workflow did start and
    encryption returned a ciphertext, it ends normally, and all it does
    after [encrypt] is to set the status message "Ignore submit" and reset
    the submitting flag. *)
Theorem stale_submission_never_sent
    (r : Render) (result : GameResult) (w : World) :
  let e := env (resume (resume w)) in
  linkMatchRef_address e <> linkMatch_address r \/
  active_chainId e <> chainId r \/
  same_object (ethersSigner r) (active_signer e) = false ->
  let w' := snd (submit_score r result w) in
  ledger w' = ledger w /\
  (forall to from h p,
     ContractSubmitGameResult to from h p ∈ log w' ->
     ContractSubmitGameResult to from h p ∈ log w) /\
  (forall a s enc,
     isRefreshingRef w = false -> isSubmittingRef w = false ->
     linkMatch_address r = Some a -> truthy (Some a) = true ->
     instance r = true -> ethersSigner r = Some s ->
     encrypt a (signer_address s) (Math_floor (score result * 1000)%float)
       = Return enc ->
     fst (submit_score r result w) = Return tt /\
     isSubmittingRef w' = false /\
     log w' = log w ++
       [ SetIsSubmitting true;
         SetMessage "Start submitting game result...";
         Sleep 100;
         CreateEncryptedInput a (signer_address s);
         Add32 (Math_floor (score result * 1000)%float);
         Encrypt;
         SetMessage "Ignore submit";
         SetIsSubmitting false ]).
Proof.
  intros e Hstale w'.
  assert (Hstart : forall a s,
    isRefreshingRef w = false -> isSubmittingRef w = false ->
    linkMatch_address r = Some a -> truthy (Some a) = true ->
    instance r = true -> ethersSigner r = Some s ->
    submit_score r result w =
      submitGameResult_run this fromExternal FHE_max encrypt account tx_hash
        result (chainId r) a s
        (mkWorld (env w) (future w) (isRefreshingRef w) (isDecryptingRef w)
           true (clearResultRef w) (ledger w) (ledger_address w)
           (block_time w)
           (log w ++ [SetIsSubmitting true;
                      SetMessage "Start submitting game result..."]))).
  { intros a s Hr Hs Ha Ht Hi Hsg. clear Hstale w' e.
    destruct w as [e0 fut rf df sf cr ld la bt lg].
    cbn [isRefreshingRef isSubmittingRef] in Hr, Hs. subst rf sf.
    unfold Hook.submitGameResult.
    cbv [bind gets isRefreshingRef isSubmittingRef orb].
    rewrite Ha, Ht, Hi, Hsg.
    cbv [orb negb bool_decide decide_rel is_Some_dec bind act modify
         setMessage set_isSubmittingRef
         env future isRefreshingRef isDecryptingRef isSubmittingRef
         clearResultRef ledger ledger_address block_time log].
    by rewrite <- app_assoc. }
  assert (Hidle : submit_score r result w = (Return tt, w) ->
    ledger w' = ledger w /\
    (forall to from h p,
       ContractSubmitGameResult to from h p ∈ log w' ->
       ContractSubmitGameResult to from h p ∈ log w)).
  { intros E. unfold w'. by rewrite E. }
  assert (Hsent : forall (l : list action) to from h p,
    ContractSubmitGameResult to from h p ∈ log w ++ l ->
    (forall x, x ∈ l -> forall to from h p,
       x <> ContractSubmitGameResult to from h p) ->
    ContractSubmitGameResult to from h p ∈ log w).
  { intros l to from h p Hin Hl. apply elem_of_app in Hin as [Hin | Hin];
      [done |]. by destruct (Hl _ Hin to from h p). }
  destruct (isRefreshingRef w) eqn:Hr.
  { split; [| split]; [apply Hidle | apply Hidle | done];
      unfold Hook.submitGameResult; cbv [bind gets]; by rewrite Hr. }
  destruct (isSubmittingRef w) eqn:Hs.
  { split; [| split]; [apply Hidle | apply Hidle | done];
      unfold Hook.submitGameResult; cbv [bind gets]; by rewrite Hr, Hs. }
  destruct (linkMatch_address r) as [a|] eqn:Ha; cycle 1.
  { split; [| split]; [apply Hidle | apply Hidle | done];
      unfold Hook.submitGameResult; cbv [bind gets]; by rewrite Hr, Hs, Ha. }
  destruct (truthy (Some a)) eqn:Ht; cycle 1.
  { split; [| split]; [apply Hidle | apply Hidle | congruence];
      unfold Hook.submitGameResult; cbv [bind gets];
      by rewrite Hr, Hs, Ha, Ht. }
  destruct (instance r) eqn:Hi; cycle 1.
  { split; [| split]; [apply Hidle | apply Hidle | done];
      unfold Hook.submitGameResult; cbv [bind gets];
      by rewrite Hr, Hs, Ha, Ht, Hi. }
  destruct (ethersSigner r) as [s|] eqn:Hsg; cycle 1.
  { split; [| split]; [apply Hidle | apply Hidle | done];
      unfold Hook.submitGameResult; cbv [bind gets];
      by rewrite Hr, Hs, Ha, Ht, Hi, Hsg. }
  specialize (Hstart a s eq_refl eq_refl eq_refl Ht eq_refl eq_refl).
  unfold w'. rewrite Hstart.
  destruct (encrypt a (signer_address s)
              (Math_floor (score result * 1000)%float)) as [enc|err] eqn:Henc.
  - edestruct (stale_run result (chainId r) a s enc) as (w1 & -> & Hl & Hg & Hf);
      [exact Henc | | ].
    { cbn [resume env future]. exact Hstale. }
    cbn [snd fst ledger log] in *. rewrite Hg.
    split; [done | split].
    + intros to from h p Hin. rewrite <- app_assoc in Hin.
      apply (Hsent _ _ _ _ _ Hin). intros x Hx to' from' h' p'.
      repeat (apply elem_of_cons in Hx as [-> | Hx]; [discriminate |]).
      by apply not_elem_of_nil in Hx.
    + intros a' s' enc' _ _ [= <-] _ _ [= <-] _.
      split; [done | split; [done |]]. by rewrite <- app_assoc.
  - edestruct (failed_encryption_run result (chainId r) a s err)
      as (w1 & -> & Hl & Hg); [exact Henc |].
    cbn [snd fst ledger log] in *. rewrite Hg.
    split; [done | split].
    + intros to from h p Hin. rewrite <- app_assoc in Hin.
      apply (Hsent _ _ _ _ _ Hin). intros x Hx to' from' h' p'.
      repeat (apply elem_of_cons in Hx as [-> | Hx]; [discriminate |]).
      by apply not_elem_of_nil in Hx.
    + intros a' s' enc' _ _ [= <-] _ _ [= <-] E. congruence.
Qed.

(** C8.  When the cached cleartext carries the handle the hook currently
    holds, [decryptPlayerResult] returns at once: it requests no
    authorization, calls no backend, and leaves the cache, the flags and
    everything else as they were. *)
Theorem decrypt_cached_handle_noop
    (r : Render) (w : World) (h : string) (v : option clear_value) :
  playerResultHandle r = Some h ->
  clearResultRef w = Some (mkClearResult (Some (mkClear h v))) ->
  decrypt_my_score r w = (Return tt, w).
Proof.
  intros Hh Hc.
  destruct w as [e0 fut rf df sf cr ld la bt lg]. cbn in Hc. subst cr.
  unfold Hook.decryptPlayerResult.
  cbv [bind gets ret isRefreshingRef isDecryptingRef clearResultRef].
  destruct (rf || df); [done |].
  destruct (negb (truthy (linkMatch_address r)) || negb (instance r)
            || negb (bool_decide (is_Some (ethersSigner r)))
            || negb (bool_decide (is_Some (playerResultHandle r)))); [done |].
  rewrite Hh.
  destruct (linkMatch_address r); [| done].
  destruct (ethersSigner r); [| done].
  cbn [cached_handle handle strict_eq]. by rewrite String.eqb_refl.
Qed.

(** Whatever [decryptPlayerResult] writes to the cache, it writes under
    the handle the hook currently holds. *)
Lemma decrypt_caches_current_handle (r : Render) (w : World) :
  let w' := snd (decrypt_my_score r w) in
  clearResultRef w' = clearResultRef w \/
  clearResultRef w' = None \/
  exists h v, playerResultHandle r = Some h /\
    clearResultRef w' = Some (mkClearResult (Some (mkClear h v))).
Proof.
  destruct w as [e0 fut rf df sf cr ld la bt lg].
  unfold Hook.decryptPlayerResult.
  cbv [bind gets ret isRefreshingRef isDecryptingRef clearResultRef].
  destruct (rf || df); [by left |].
  destruct (negb (truthy (linkMatch_address r)) || negb (instance r)
            || negb (bool_decide (is_Some (ethersSigner r)))
            || negb (bool_decide (is_Some (playerResultHandle r)))); [by left |].
  destruct (linkMatch_address r) as [a|]; [| by left].
  destruct (ethersSigner r) as [s|]; [| by left].
  destruct (playerResultHandle r) as [h|]; [| by left].
  destruct (strict_eq (Some h) (cached_handle cr)); [by left |].
  destruct (String.eqb h ""); [by right; left |].
  cbv [decryptPlayerResult_run try_finally bind act await modify lift
       setMessage set_isDecryptingRef set_clearResultRef ret resume gets
       isStale sameChain sameSigner
       env future isRefreshingRef isDecryptingRef isSubmittingRef
       clearResultRef ledger ledger_address block_time log].
  destruct (loadOrSign [a] s) as [[sig|]|err]; [| by left | by left].
  destruct (negb _ || negb _ || negb _); [by left |].
  destruct (String.eqb h "" || String.eqb h "0x" || Nat.ltb (String.length h) 66);
    [by left |].
  destruct (userDecrypt [(h, a)] sig) as [res|err]; [| by left].
  destruct (negb _ || negb _ || negb _); [by left |].
  right. right. eauto.
Qed.

Lemma decrypt_absent_or_empty (r : Render) (w : World) :
  playerResultHandle r = None \/ playerResultHandle r = Some "" ->
  no_decryption w (decrypt_my_score r w).
Proof.
  intros Hh. unfold no_decryption.
  destruct w as [e0 fut rf df sf cr ld la bt lg].
  unfold Hook.decryptPlayerResult.
  cbv [bind gets ret isRefreshingRef isDecryptingRef clearResultRef].
  destruct (rf || df); [eexists; split; [done | by repeat split; left] |].
  destruct (negb (truthy (linkMatch_address r)) || negb (instance r)
            || negb (bool_decide (is_Some (ethersSigner r)))
            || negb (bool_decide (is_Some (playerResultHandle r))));
    [eexists; split; [done | by repeat split; left] |].
  destruct (linkMatch_address r) as [a|];
    [| eexists; split; [done | by repeat split; left]].
  destruct (ethersSigner r) as [s|];
    [| eexists; split; [done | by repeat split; left]].
  destruct Hh as [-> | ->]; [eexists; split; [done | by repeat split; left] |].
  destruct (strict_eq (Some "") (cached_handle cr));
    [eexists; split; [done | by repeat split; left] |].
  cbn [String.eqb].
  cbv [bind act modify set_clearResultRef
       env future isRefreshingRef isDecryptingRef isSubmittingRef
       clearResultRef ledger ledger_address block_time log].
  eexists. split; [done |]. cbn. repeat split; by right.
Qed.


End HookFacts.

(** ** Sample runs of the client workflows *)

Section SampleRuns.

Import Hook.

Local Abbreviation sample_submit :=
  (Hook.submitGameResult Sample.this Sample.fromExternal Sample.FHE_max
     Sample.encrypt Sample.account Sample.tx_hash).
Local Abbreviation sample_decrypt :=
  (Hook.decryptPlayerResult Sample.loadOrSign Sample.userDecrypt).

(** A score of 3/8 is submitted as 375. *)
Example sample_scoreInt :
  Math_floor (score Sample.game * 1000)%float = 375%float.
Proof. vm_compute. reflexivity. Qed.

(** The scaling is done in binary64, and the product is rounded before
    [Math.floor] sees it.  Three matches in five seconds: the quotient is
    the binary64 number next below 3/5, its product with 1000 rounds to 600,
    and 600 is submitted. *)
Example scoreInt_three_in_five :
  let s := score (handleGameComplete 3 5) in
  Prim2SF s = S754_finite false 5404319552844595 (-53) /\
  (5404319552844595 * 1000 < 600 * 2 ^ 53)%Z /\
  Math_floor (s * 1000)%float = 600%float.
Proof. vm_compute. repeat split. Qed.

(** 1001 matches in 1000 seconds: the product is 1000.9999999999999 and
    1000 is submitted. *)
Example scoreInt_rounds_before_floor :
  Math_floor (score (handleGameComplete 1001 1000) * 1000)%float = 1000%float.
Proof. vm_compute. reflexivity. Qed.

(** Nothing changes while the workflow is suspended: the transaction is
    sent and the ledger records Alice's handle. *)
Example sample_submit_sent :
  let w' := snd (sample_submit (Sample.render None) Sample.game Sample.world0) in
  log w' =
    [ SetIsSubmitting true;
      SetMessage "Start submitting game result...";
      Sleep 100;
      CreateEncryptedInput Sample.ledger_at "0xA11CE";
      Add32 375;
      Encrypt;
      SetMessage "Call submitGameResult...";
      ContractSubmitGameResult Sample.ledger_at "0xA11CE" 375 [1%N];
      SetMessage "Wait for tx:0x7e57...";
      TxWait;
      SetMessage "Submit completed status=1";
      RefreshPlayerResult;
      SetIsSubmitting false ] /\
  LinkMatch.getPlayerResult (ledger w') Sample.alice = Ok 375%N /\
  LinkMatch.players (ledger w') = [Sample.alice].
Proof. vm_compute. repeat split. Qed.

(** The chain switches during encryption: nothing is sent. *)
Lemma stale_submission_never_sent_witness :
  let w' := snd (sample_submit (Sample.render None) Sample.game
                   Sample.world_switching) in
  ledger w' = LinkMatch.init /\
  log w' =
    [ SetIsSubmitting true;
      SetMessage "Start submitting game result...";
      Sleep 100;
      CreateEncryptedInput Sample.ledger_at "0xA11CE";
      Add32 (Math_floor (score Sample.game * 1000)%float);
      Encrypt;
      SetMessage "Ignore submit";
      SetIsSubmitting false ].
Proof.
  assert (Hne : Some 31337%N <> Some 11155111%N) by discriminate.
  destruct (stale_submission_never_sent Sample.this Sample.fromExternal
              Sample.FHE_max Sample.encrypt Sample.account Sample.tx_hash
              (Sample.render None) Sample.game Sample.world_switching
              (or_intror (or_introl Hne)))
    as (Hl & _ & Hrun).
  split; [exact Hl |].
  destruct (Hrun Sample.ledger_at Sample.alice_signer (375%N, [1%N])
              eq_refl eq_refl eq_refl eq_refl eq_refl eq_refl eq_refl)
    as (_ & _ & Hlog).
  exact Hlog.
Defined.

(** Decrypting a well-formed handle: one authorization, one backend call,
    and the cleartext is cached under that handle. *)
Example sample_decrypt_run :
  let w' := snd (sample_decrypt (Sample.render (Some Sample.handle1))
                   Sample.world0) in
  log w' =
    [ SetIsDecrypting true;
      SetMessage "Start decrypt";
      LoadOrSign [Sample.ledger_at] "0xA11CE";
      SetMessage "Call FHEVM userDecrypt...";
      UserDecrypt Sample.handle1 Sample.ledger_at;
      SetMessage "FHEVM userDecrypt completed!";
      SetClearResult
        (Some (mkClearResult
           (Some (mkClear Sample.handle1 (Some (ClearBigint 0))))));
      SetIsDecrypting false ] /\
  clearResultRef w' =
    Some (mkClearResult (Some (mkClear Sample.handle1 (Some (ClearBigint 0))))).
Proof. vm_compute. split; reflexivity. Qed.

(** A second call after that run does nothing. *)
Lemma decrypt_cached_handle_noop_witness :
  let r := Sample.render (Some Sample.handle1) in
  let w' := snd (sample_decrypt r Sample.world0) in
  sample_decrypt r w' = (Return tt, w').
Proof.
  intros r w'.
  apply (decrypt_cached_handle_noop Sample.loadOrSign Sample.userDecrypt
           r w' Sample.handle1 (Some (ClearBigint 0))).
  - reflexivity.
  - vm_compute. reflexivity.
Defined.



End SampleRuns.

(** * More about the ledger *)

Section LedgerMore.

Variable this : address.
Variable fromExternal : address -> externalEuint32 -> bytes -> option euint32.
Variable FHE_max : euint32 -> euint32 -> euint32.

Import LinkMatch.

Local Abbreviation submit := (submitGameResult this fromExternal FHE_max).
Local Abbreviation step := (apply_call this fromExternal FHE_max).
Local Abbreviation run := (exec this fromExternal FHE_max).
Local Abbreviation handle_of := (accepted_handle fromExternal).
Local Abbreviation senders := (accepted_senders fromExternal).

(** The state after one transaction, case by case. *)
Lemma step_cases st c :
  (handle_of c = None /\ step st c = st) \/
  (exists h, handle_of c = Some h /\ submit st c = Ok (step st c)).
Proof.
  destruct (handle_of c) as [h|] eqn:Hh.
  - right. exists h. split; [done |].
    destruct (step_accepted this fromExternal FHE_max st c h Hh)
      as (st' & Hok & <-). done.
  - left. split; [done |]. by apply submit_rejected.
Qed.

Lemma step_events st c :
  events (step st c) =
    events st ++
      (if accepted fromExternal c
       then [GameResultSubmitted (msg_sender c) (block_timestamp c)] else []).
Proof.
  unfold accepted, apply_call.
  destruct (handle_of c) as [h|] eqn:Hh.
  - destruct (hasSubmitted_at st (msg_sender c)) eqn:Hs.
    + by rewrite (submit_again this fromExternal FHE_max _ _ _ Hh Hs).
    + by rewrite (submit_first this fromExternal FHE_max _ _ _ Hh Hs).
  - fold (step st c).
    rewrite (submit_rejected this fromExternal FHE_max _ _ Hh).
    by rewrite app_nil_r.
Qed.

(** X1.  The event log holds one [GameResultSubmitted] per accepted
    transaction, with its sender and block time, in the order of the
    transactions; a rejected transaction logs nothing and
    [LeaderboardUpdated] is never emitted. *)
Theorem event_log_of_history (st : state) (cs : list call) :
  events (run st cs) = events st ++ History.emitted fromExternal cs /\
  LeaderboardUpdated ∉ events (run init cs).
Proof.
  assert (H : forall cs st,
    events (run st cs) = events st ++ History.emitted fromExternal cs).
  { clear. intros cs. induction cs as [|c cs IH]; intros st.
    - by rewrite app_nil_r.
    - rewrite exec_cons, IH, step_events. unfold History.emitted.
      destruct (accepted fromExternal c) eqn:E.
      + rewrite filter_cons_True by done. by rewrite <- app_assoc.
      + rewrite filter_cons_False by (by rewrite E). by rewrite app_nil_r. }
  split; [apply H |].
  rewrite H. simpl. unfold History.emitted.
  intros Hin. apply list_elem_of_fmap in Hin as (c & Hc & _). discriminate.
Qed.

(** What a successful call keeps. *)
Lemma submit_keeps (st st' : state) (c : call) :
  submit st c = Ok st' ->
  (forall p, p <> msg_sender c ->
     playerResults_at st' p = playerResults_at st p /\
     hasSubmitted_at st' p = hasSubmitted_at st p) /\
  players st `prefix_of` players st' /\
  events st `prefix_of` events st' /\
  acl st ⊆ acl st' /\
  hasSubmitted_at st' (msg_sender c) = true.
Proof.
  intros Hok.
  assert (Hst : step st c = st') by (unfold apply_call; by rewrite Hok).
  destruct (submit_ok_inv this fromExternal FHE_max _ _ _ Hok) as [h Hh].
  split; [| split; [| split; [| split]]].
  - intros p Hp. rewrite <- Hst.
    by apply (step_other this fromExternal FHE_max).
  - destruct (hasSubmitted_at st (msg_sender c)) eqn:Hs.
    + rewrite (submit_again this fromExternal FHE_max _ _ _ Hh Hs) in Hok.
      injection Hok as <-. done.
    + rewrite (submit_first this fromExternal FHE_max _ _ _ Hh Hs) in Hok.
      injection Hok as <-. by apply prefix_app_r.
  - rewrite <- Hst, step_events. by apply prefix_app_r.
  - destruct (hasSubmitted_at st (msg_sender c)) eqn:Hs.
    + rewrite (submit_again this fromExternal FHE_max _ _ _ Hh Hs) in Hok.
      injection Hok as <-. simpl. set_solver.
    + rewrite (submit_first this fromExternal FHE_max _ _ _ Hh Hs) in Hok.
      injection Hok as <-. simpl. set_solver.
  - rewrite <- Hst.
    destruct (hasSubmitted_at st (msg_sender c)) eqn:Hs.
    + by destruct (step_again this fromExternal FHE_max _ _ _ Hh Hs) as (_ & ? & _).
    + by destruct (step_first this fromExternal FHE_max _ _ _ Hh Hs) as (_ & ? & _).
Qed.

(** X2.  A successful call touches the sender's record and flag only: every
    other participant keeps its record and flag; the index is unchanged
    for a known sender and gets the sender appended otherwise; the event
    log gets exactly one event; no grant is removed; and the sender's flag
    is set. *)
Theorem submit_frame (st st' : state) (c : call) :
  submit st c = Ok st' ->
  (forall p, p <> msg_sender c ->
     playerResults_at st' p = playerResults_at st p /\
     hasSubmitted_at st' p = hasSubmitted_at st p) /\
  ((hasSubmitted_at st (msg_sender c) = true /\ players st' = players st) \/
   (hasSubmitted_at st (msg_sender c) = false /\
    players st' = players st ++ [msg_sender c])) /\
  events st' =
    events st ++ [GameResultSubmitted (msg_sender c) (block_timestamp c)] /\
  acl st ⊆ acl st' /\
  hasSubmitted_at st' (msg_sender c) = true.
Proof.
  intros Hok.
  destruct (submit_keeps _ _ _ Hok) as (Hother & _ & _ & Hacl & Hflag).
  assert (Hst : step st c = st') by (unfold apply_call; by rewrite Hok).
  destruct (submit_ok_inv this fromExternal FHE_max _ _ _ Hok) as [h Hh].
  split; [exact Hother |]. split.
  - destruct (hasSubmitted_at st (msg_sender c)) eqn:Hs.
    + left. split; [done |].
      rewrite (submit_again this fromExternal FHE_max _ _ _ Hh Hs) in Hok.
      by injection Hok as <-.
    + right. split; [done |].
      rewrite (submit_first this fromExternal FHE_max _ _ _ Hh Hs) in Hok.
      by injection Hok as <-.
  - split; [| done].
    rewrite <- Hst, step_events. unfold accepted. by rewrite Hh.
Qed.

End LedgerMore.

Section LedgerInvariants.

Variable this : address.
Variable fromExternal : address -> externalEuint32 -> bytes -> option euint32.
Variable FHE_max : euint32 -> euint32 -> euint32.

Import LinkMatch.

Local Abbreviation submit := (submitGameResult this fromExternal FHE_max).
Local Abbreviation step := (apply_call this fromExternal FHE_max).
Local Abbreviation run := (exec this fromExternal FHE_max).
Local Abbreviation handle_of := (accepted_handle fromExternal).
Local Abbreviation senders := (accepted_senders fromExternal).

Lemma step_acl_grows st c : acl st ⊆ acl (step st c).
Proof.
  unfold apply_call. destruct (handle_of c) as [h|] eqn:Hh.
  - destruct (hasSubmitted_at st (msg_sender c)) eqn:Hs.
    + rewrite (submit_again this fromExternal FHE_max _ _ _ Hh Hs). simpl.
      set_solver.
    + rewrite (submit_first this fromExternal FHE_max _ _ _ Hh Hs). simpl.
      set_solver.
  - fold (step st c). by rewrite (submit_rejected this fromExternal FHE_max).
Qed.

(** X3.  In every reachable storage each participant, and the contract, holds
    a grant on the handle currently stored for that participant: later
    transactions of others never take it away. *)
Theorem every_record_is_decryptable (cs : list call) (p : address) :
  p ∈ senders cs ->
  let st := run init cs in
  let h := score (playerResults_at st p) in
  getPlayerResult st p = Ok h /\ (h, p) ∈ acl st /\ (h, this) ∈ acl st.
Proof.
  induction cs as [|c cs IH] using rev_ind.
  - by intros ?%not_elem_of_nil.
  - rewrite (accepted_senders_snoc fromExternal), (exec_snoc this fromExternal FHE_max).
    intros Hin. cbv zeta.
    destruct (step_cases this fromExternal FHE_max (run init cs) c)
      as [[Hh Hst] | (h0 & Hh & Hok)].
    + rewrite Hst.
      assert (Ha : accepted fromExternal c = false)
        by (unfold accepted; by rewrite Hh).
      rewrite Ha in Hin. by apply IH.
    + assert (Ha : accepted fromExternal c = true)
        by (unfold accepted; by rewrite Hh).
      rewrite Ha in Hin.
      destruct (submit_acl this fromExternal FHE_max _ _ _ Hok) as (H1 & H2 & _).
      destruct (submit_keeps this fromExternal FHE_max _ _ _ Hok)
        as (Hother & _ & _ & Hacl & Hflag).
      destruct (decide (p = msg_sender c)) as [-> | Hne].
      * unfold getPlayerResult. by rewrite Hflag.
      * apply elem_of_app in Hin as [Hin | Hin];
          [| apply list_elem_of_singleton in Hin; congruence].
        destruct (IH Hin) as (Hg & Hp & Ht).
        destruct (Hother p Hne) as (Hr & Hs).
        unfold getPlayerResult in *. rewrite Hs, Hr.
        split; [done |]. split; by apply Hacl.
Qed.

Lemma accepted_of_snoc p cs c :
  History.accepted_of fromExternal p (cs ++ [c]) =
    History.accepted_of fromExternal p cs ++
      (if decide (msg_sender c = p /\ accepted fromExternal c = true)
       then [c] else []).
Proof.
  unfold History.accepted_of. by rewrite filter_app.
Qed.

(** X4.  In every reachable storage the record of a participant names that
    participant as [player] and carries the block time of the participant's
    last accepted transaction; for anyone else the mapping has no entry, so
    the record reads as all zeros. *)
Theorem record_of_last_submission (cs : list call) (p : address) :
  let st := run init cs in
  match last (History.accepted_of fromExternal p cs) with
  | Some c =>
      hasSubmitted_at st p = true /\
      player (playerResults_at st p) = p /\
      timestamp (playerResults_at st p) = block_timestamp c
  | None =>
      hasSubmitted_at st p = false /\
      playerResults st !! p = None /\
      playerResults_at st p = zero_result
  end.
Proof.
  induction cs as [|c cs IH] using rev_ind.
  - done.
  - rewrite accepted_of_snoc, (exec_snoc this fromExternal FHE_max). cbv zeta in *.
    destruct (decide (msg_sender c = p /\ accepted fromExternal c = true))
      as [[<- Ha] | Hn].
    + rewrite last_snoc.
      apply accepted_handle_of in Ha as [h Hh].
      destruct (hasSubmitted_at (run init cs) (msg_sender c)) eqn:Hs.
      * destruct (step_again this fromExternal FHE_max _ _ _ Hh Hs) as (-> & -> & _).
        done.
      * destruct (step_first this fromExternal FHE_max _ _ _ Hh Hs) as (-> & -> & _).
        done.
    + rewrite app_nil_r.
      destruct (step_cases this fromExternal FHE_max (run init cs) c)
        as [[Hh Hst] | (h0 & Hh & Hok)].
      * by rewrite Hst.
      * assert (Hne : p <> msg_sender c).
        { intros ->. apply Hn. split; [done |].
          apply accepted_handle_of. eauto. }
        destruct (submit_keeps this fromExternal FHE_max _ _ _ Hok)
          as (Hother & _). destruct (Hother p Hne) as (Hr & Hs).
        rewrite Hr, Hs.
        destruct (last (History.accepted_of fromExternal p cs)); [done |].
        destruct IH as (IH1 & IH2 & IH3). split; [done |]. split; [| done].
        destruct (hasSubmitted_at (run init cs) (msg_sender c)) eqn:Hsc.
        -- rewrite (submit_again this fromExternal FHE_max _ _ _ Hh Hsc) in Hok.
           injection Hok as Hst. rewrite <- Hst. simpl.
           by rewrite lookup_insert_ne.
        -- rewrite (submit_first this fromExternal FHE_max _ _ _ Hh Hsc) in Hok.
           injection Hok as Hst. rewrite <- Hst. simpl.
           by rewrite lookup_insert_ne.
Qed.

(** X5.  The two views of the index agree: the [i]-th address that
    [getAllEncryptedScores] returns is what [getPlayerByIndex i] returns,
    and the [i]-th handle is what [getPlayerResult] returns for that
    address. *)
Theorem enumeration_agrees_with_getters (cs : list call) (i : nat) (a : address) :
  let st := run init cs in
  fst (getAllEncryptedScores st) !! i = Some a ->
  getPlayerByIndex st (N.of_nat i) = Ok a /\
  exists h, snd (getAllEncryptedScores st) !! i = Some h /\
            getPlayerResult st a = Ok h.
Proof.
  intros st. rewrite getAllEncryptedScores_spec. simpl. intros Ha.
  split.
  - unfold getPlayerByIndex.
    apply lookup_lt_Some in Ha as Hlt.
    destruct (N.ltb_spec (N.of_nat i) (N.of_nat (length (players st))));
      [| lia].
    by rewrite Nat2N.id, Ha.
  - exists (score (playerResults_at st a)). split.
    + by rewrite list_lookup_fmap, Ha.
    + destruct (reachable_index this fromExternal FHE_max cs) as [Hp Hs].
      fold st in Hp, Hs.
      assert (Hin : a ∈ players st) by (eapply list_elem_of_lookup_2, Ha).
      rewrite Hp, first_occurrences_elem in Hin. apply Hs in Hin.
      unfold getPlayerResult. by rewrite Hin.
Qed.

(** X6.  [getPlayerCount] is the number of distinct participants with an
    accepted submission, and no transaction lowers it. *)
Theorem count_is_number_of_participants (cs : list call) (c : call) :
  let st := run init cs in
  N.to_nat (getPlayerCount st) = size (list_to_set (senders cs) : gset N) /\
  (getPlayerCount st <= getPlayerCount (step st c))%N.
Proof.
  intros st. destruct (reachable_index this fromExternal FHE_max cs) as [Hp _].
  fold st in Hp. split.
  - unfold getPlayerCount. rewrite Nat2N.id, Hp.
    rewrite <- (size_list_to_set (C := gset N))
      by apply first_occurrences_NoDup.
    f_equal. apply set_eq. intros x.
    by rewrite !elem_of_list_to_set, first_occurrences_elem.
  - unfold getPlayerCount.
    destruct (step_cases this fromExternal FHE_max st c)
      as [[_ ->] | (h & Hh & Hok)]; [lia |].
    destruct (submit_keeps this fromExternal FHE_max _ _ _ Hok)
      as (_ & Hpre & _).
    apply prefix_length in Hpre. lia.
Qed.

Section Best.

Variable decrypt : euint32 -> Z.
Hypothesis decrypt_max :
  forall a b, decrypt (FHE_max a b) = Z.max (decrypt a) (decrypt b).

(** X7.  Once a participant has a record, no later history lowers the
    plaintext behind it, and the plaintext is at least every score the
    participant submits afterwards. *)
Theorem best_never_decreases (st : state) (p : address) (cs : list call) :
  hasSubmitted_at st p = true ->
  (stored_plaintext decrypt st p <= stored_plaintext decrypt (run st cs) p)%Z /\
  (forall s, In s (submitted_plaintexts fromExternal decrypt p cs) ->
     (s <= stored_plaintext decrypt (run st cs) p)%Z).
Proof.
  intros Hs.
  destruct (exec_record_known this fromExternal FHE_max decrypt decrypt_max
              p cs st Hs) as (_ & ->).
  destruct (fold_max_spec (submitted_plaintexts fromExternal decrypt p cs)
              (stored_plaintext decrypt st p)) as (_ & Hle & Hall).
  split; [done | exact Hall].
Qed.

End Best.

End LedgerInvariants.

(** * More about the submission workflow *)

Section SubmitMore.

Variable this : address.
Variable fromExternal : address -> externalEuint32 -> bytes -> option euint32.
Variable FHE_max : euint32 -> euint32 -> euint32.
Variable encrypt :
  string -> string -> float -> Hook.outcome (externalEuint32 * bytes).
Variable account : string -> address.
Variable tx_hash : LinkMatch.call -> string.

Import Hook Runs.

Local Abbreviation submit_score :=
  (Hook.submitGameResult this fromExternal FHE_max encrypt account tx_hash).
Local Abbreviation submit_run :=
  (Hook.submitGameResult_run this fromExternal FHE_max encrypt account tx_hash).
Local Abbreviation ledger_submit :=
  (LinkMatch.submitGameResult this fromExternal FHE_max).

Ltac run_hook :=
  cbv [submitGameResult_run contract_submitGameResult
       isStale sameChain sameSigner
       try_finally try_catch bind act await modify lift throw gets
       setMessage set_isSubmittingRef set_ledger ret resume
       env future isRefreshingRef isDecryptingRef isSubmittingRef
       clearResultRef ledger ledger_address block_time log].

(** Every way the body of the workflow can go.  [tail] is what is logged
    between [Encrypt] and the reset of the flag. *)
Lemma submit_run_cases
    (result : GameResult) (c : option N) (a : string) (s : JsonRpcSigner)
    (w : World) :
  let v := Math_floor (score result * 1000)%float in
  exists w' tail,
    submit_run result c a s w = (Return tt, w') /\
    isSubmittingRef w' = false /\
    isRefreshingRef w' = isRefreshingRef w /\
    isDecryptingRef w' = isDecryptingRef w /\
    clearResultRef w' = clearResultRef w /\
    log w' = log w ++
      [Sleep 100; CreateEncryptedInput a (signer_address s); Add32 v; Encrypt]
      ++ tail ++ [SetIsSubmitting false] /\
    ((exists err, encrypt a (signer_address s) v = Throw err /\
        tail = [SetMessage ("Submit Failed! " ++ err)] /\
        ledger w' = ledger w) \/
     (exists enc, encrypt a (signer_address s) v = Return enc /\
        ((stale a c s (env (resumed 2 w)) = true /\
          tail = [SetMessage "Ignore submit"] /\ ledger w' = ledger w) \/
         (stale a c s (env (resumed 2 w)) = false /\
          exists reason,
            (String.eqb a (ledger_address w) = false /\
               reason = "no contract at this address" \/
             String.eqb a (ledger_address w) = true /\
               ledger_submit (ledger w) (sent_call account s w enc)
                 = Revert reason) /\
            tail = [SetMessage "Call submitGameResult...";
                    ContractSubmitGameResult a (signer_address s)
                      (fst enc) (snd enc);
                    SetMessage ("Submit Failed! " ++ reason)] /\
            ledger w' = ledger w) \/
         (stale a c s (env (resumed 2 w)) = false /\
          String.eqb a (ledger_address w) = true /\
          ledger_submit (ledger w) (sent_call account s w enc)
            = Ok (ledger w') /\
          tail = [SetMessage "Call submitGameResult...";
                  ContractSubmitGameResult a (signer_address s)
                    (fst enc) (snd enc);
                  SetMessage ("Wait for tx:"
                              ++ tx_hash (sent_call account s w enc) ++ "...");
                  TxWait;
                  SetMessage "Submit completed status=1";
                  if stale a c s (env (resumed 4 w))
                  then SetMessage "Ignore submit"
                  else RefreshPlayerResult])))).
Proof.
  intros v. subst v.
  destruct w as [e0 fut rf df sf cr ld la bt lg].
  unfold sent_call, stale. cbv [resumed Nat.iter nat_rect].
  unfold submitGameResult_run.
  generalize (Math_floor (score result * 1000)%float). intros v.
  run_hook.
  destruct (encrypt a (signer_address s) v) as [enc|err] eqn:Henc.
  2: { eexists. exists [SetMessage ("Submit Failed! " ++ err)].
       split; [reflexivity |]. cbn [log ledger isSubmittingRef isRefreshingRef isDecryptingRef clearResultRef].
       do 4 (split; [reflexivity |]). split.
       - rewrite <- !app_assoc. reflexivity.
       - left. eauto. }
  set (e2 := hd (hd e0 fut) (tl fut)).
  destruct (negb (strict_eq (Some a) (linkMatchRef_address e2))
            || negb (strict_eq_num c (active_chainId e2))
            || negb (same_object (Some s) (active_signer e2))) eqn:Hst1.
  { eexists. exists [SetMessage "Ignore submit"].
    split; [reflexivity |]. cbn [log ledger isSubmittingRef isRefreshingRef isDecryptingRef clearResultRef].
    do 4 (split; [reflexivity |]). split.
    - rewrite <- !app_assoc. reflexivity.
    - right. exists enc. split; [done |]. left. done. }
  run_hook. destruct (String.eqb a la) eqn:Hla; cbn [negb]; run_hook.
  2: { eexists. eexists.
       split; [reflexivity |]. cbn [log ledger isSubmittingRef isRefreshingRef isDecryptingRef clearResultRef].
       do 4 (split; [reflexivity |]). split.
       2: { right. exists enc. split; [done |]. right. left.
         split; [done |]. eexists. split; [left; done |]. split; reflexivity. }
       rewrite <- !app_assoc. reflexivity. }
  destruct (ledger_submit ld
              (LinkMatch.mkCall (account (signer_address s)) bt (fst enc)
                 (snd enc))) as [st'|reason] eqn:Hled; run_hook.
  2: { eexists. eexists.
       split; [reflexivity |]. cbn [log ledger isSubmittingRef isRefreshingRef isDecryptingRef clearResultRef].
       do 4 (split; [reflexivity |]). split.
       2: { right. exists enc. split; [done |]. right. left.
         split; [done |]. eexists. split; [right; done |]. split; reflexivity. }
       rewrite <- !app_assoc. reflexivity. }
  set (e4 := hd (hd e2 (tl (tl fut))) (tl (tl (tl fut)))).
  destruct (negb (strict_eq (Some a) (linkMatchRef_address e4))
            || negb (strict_eq_num c (active_chainId e4))
            || negb (same_object (Some s) (active_signer e4))) eqn:Hst2;
    run_hook.
  - eexists. eexists.
    split; [reflexivity |]. cbn [log ledger isSubmittingRef isRefreshingRef isDecryptingRef clearResultRef].
    do 4 (split; [reflexivity |]). split.
    2: { right. exists enc. split; [done |]. right. right.
         split; [done |]. split; [done |]. split; [exact Hled | reflexivity]. }
    rewrite <- !app_assoc. reflexivity.
  - eexists. eexists.
    split; [reflexivity |]. cbn [log ledger isSubmittingRef isRefreshingRef isDecryptingRef clearResultRef].
    do 4 (split; [reflexivity |]). split.
    2: { right. exists enc. split; [done |]. right. right.
         split; [done |]. split; [done |]. split; [exact Hled | reflexivity]. }
    rewrite <- !app_assoc. reflexivity.
Qed.

(** The guards of [submitGameResult]: either nothing happens, or the body
    runs in [submit_started w] on the snapshot of the render. *)
Lemma submit_dispatch (r : Render) (result : GameResult) (w : World) :
  (ready_to_submit r w = false /\ submit_score r result w = (Return tt, w)) \/
  (ready_to_submit r w = true /\
   exists a s, linkMatch_address r = Some a /\ ethersSigner r = Some s /\
     submit_score r result w =
       submit_run result (chainId r) a s (submit_started w)).
Proof.
  destruct w as [e0 fut rf df sf cr ld la bt lg].
  unfold ready_to_submit, submit_started, Hook.submitGameResult.
  cbv [bind gets ret isRefreshingRef isSubmittingRef isDecryptingRef env future
       clearResultRef ledger ledger_address block_time log].
  destruct (rf || sf); [by left |]. cbn [negb andb].
  destruct (truthy (linkMatch_address r)) eqn:Ht; [| by left].
  destruct (instance r); [| by left].
  destruct (ethersSigner r) as [s|]; [| by left].
  destruct (linkMatch_address r) as [a|]; [| done].
  right. split; [done |]. exists a, s. split; [done |]. split; [done |].
  cbv [orb negb bool_decide decide_rel is_Some_dec bind act modify
       setMessage set_isSubmittingRef
       env future isRefreshingRef isDecryptingRef isSubmittingRef
       clearResultRef ledger ledger_address block_time log].
  by rewrite <- app_assoc.
Qed.

Lemma count_app f (l l' : list action) :
  count f (l ++ l') = count f l + count f l'.
Proof. unfold count. by rewrite List.filter_app, length_app. Qed.

(** X8.  One call of [submitGameResult] sends at most one transaction: there is
    no retry on any path. *)
Theorem submission_sent_at_most_once
    (r : Render) (result : GameResult) (w : World) :
  let w' := snd (submit_score r result w) in
  count is_contract_call (log w') <= S (count is_contract_call (log w)).
Proof.
  intros w'. subst w'.
  destruct (submit_dispatch r result w)
    as [[_ ->] | (_ & a & s & _ & _ & ->)]; [cbn [snd]; lia |].
  destruct (submit_run_cases result (chainId r) a s (submit_started w))
    as (w' & tl & -> & _ & _ & _ & _ & Hlog & Hcases).
  cbn [snd]. rewrite Hlog. unfold submit_started. cbn [log].
  rewrite !count_app.
  assert (Htl : count is_contract_call tl <= 1).
  { unfold count.
    destruct Hcases as [(err & _ & -> & _) | (enc & _ & Hc)]; [simpl; lia |].
    destruct Hc as [(_ & -> & _) | [(_ & reason & _ & -> & _) | (_ & _ & _ & ->)]];
      [simpl; lia | simpl; lia |].
    destruct (stale a (chainId r) s _); simpl; lia. }
  unfold count in *. simpl. lia.
Qed.

(** X9.  Whatever happens, the ledger is either untouched or is the result of
    one accepted [submitGameResult] transaction, sent from the signer's
    account with the ciphertext and proof that [encrypt] returned for
    [Math.floor(score * 1000)]. *)
Theorem ledger_changes_by_the_sent_call_only
    (r : Render) (result : GameResult) (w : World) :
  let w' := snd (submit_score r result w) in
  ledger w' = ledger w \/
  exists a s enc,
    linkMatch_address r = Some a /\ ethersSigner r = Some s /\
    a = ledger_address w /\
    encrypt a (signer_address s) (Math_floor (score result * 1000)%float)
      = Return enc /\
    ledger_submit (ledger w) (sent_call account s w enc) = Ok (ledger w').
Proof.
  intros w'. subst w'.
  destruct (submit_dispatch r result w)
    as [[_ ->] | (_ & a & s & Ha & Hs & ->)]; [by left |].
  destruct (submit_run_cases result (chainId r) a s (submit_started w))
    as (w' & tl & -> & _ & _ & _ & _ & _ & Hcases).
  cbn [snd].
  destruct Hcases as [(err & _ & _ & Hl) | (enc & Henc & Hc)]; [by left |].
  destruct Hc as [(_ & _ & Hl) | [(_ & reason & _ & _ & Hl) | (_ & Hla & Hled & _)]];
    [by left | by left |].
  right. exists a, s, enc. repeat split; try done.
  by apply String.eqb_eq.
Qed.



(** X12.  When nothing changes while the workflow is suspended and the ledger
    accepts the transaction, the ledger holds a record for the signer's
    account afterwards and the workflow asks for a refresh of the handle. *)
Theorem accepted_submission_is_recorded
    (r : Render) (result : GameResult) (w : World)
    (a : string) (s : JsonRpcSigner) (enc : externalEuint32 * bytes)
    (st' : LinkMatch.state) :
  ready_to_submit r w = true ->
  linkMatch_address r = Some a -> ethersSigner r = Some s ->
  encrypt a (signer_address s) (Math_floor (score result * 1000)%float)
    = Return enc ->
  stale a (chainId r) s (env (resumed 2 w)) = false ->
  stale a (chainId r) s (env (resumed 4 w)) = false ->
  a = ledger_address w ->
  ledger_submit (ledger w) (sent_call account s w enc) = Ok st' ->
  let w' := snd (submit_score r result w) in
  ledger w' = st' /\
  LinkMatch.checkPlayerSubmitted (ledger w') (account (signer_address s))
    = true /\
  log w' = log w ++
    [ SetIsSubmitting true;
      SetMessage "Start submitting game result...";
      Sleep 100;
      CreateEncryptedInput a (signer_address s);
      Add32 (Math_floor (score result * 1000)%float);
      Encrypt;
      SetMessage "Call submitGameResult...";
      ContractSubmitGameResult a (signer_address s) (fst enc) (snd enc);
      SetMessage ("Wait for tx:" ++ tx_hash (sent_call account s w enc) ++ "...");
      TxWait;
      SetMessage "Submit completed status=1";
      RefreshPlayerResult;
      SetIsSubmitting false ].
Proof.
  intros Hready Ha Hs Henc Hst2 Hst4 Hla Hok w'. subst w'.
  destruct (submit_dispatch r result w)
    as [[Hn _] | (_ & a' & s' & Ha' & Hs' & ->)]; [congruence |].
  assert (a' = a) by congruence. assert (s' = s) by congruence. subst a' s'.
  destruct (submit_run_cases result (chainId r) a s (submit_started w))
    as (w' & tl & -> & _ & _ & _ & _ & Hlog & Hcases).
  cbn [snd]. rewrite Hlog. clear Hlog.
  change (env (resumed 2 (submit_started w))) with (env (resumed 2 w)) in Hcases.
  change (env (resumed 4 (submit_started w))) with (env (resumed 4 w)) in Hcases.
  change (ledger_address (submit_started w)) with (ledger_address w) in Hcases.
  change (ledger (submit_started w)) with (ledger w) in Hcases.
  change (sent_call account s (submit_started w)) with (sent_call account s w)
    in Hcases.
  destruct Hcases as [(err & E & _) | (enc' & E & Hc)]; [congruence |].
  assert (enc' = enc) by congruence. subst enc'.
  destruct Hc as [(Hst' & _) | [(_ & reason' & Hwhy & _) | (_ & _ & Hled & ->)]].
  - congruence.
  - destruct Hwhy as [[Hne _] | [_ Hrev]]; [| congruence].
    apply String.eqb_neq in Hne. done.
  - assert (ledger w' = st') as -> by congruence.
    split; [done |]. split.
    + pose proof (submit_ok_inv this fromExternal FHE_max _ _ _ Hok) as [h Hh].
      assert (Hstep : LinkMatch.apply_call this fromExternal FHE_max (ledger w)
                        (sent_call account s w enc) = st')
        by (unfold LinkMatch.apply_call; by rewrite Hok).
      unfold LinkMatch.checkPlayerSubmitted. rewrite <- Hstep.
      destruct (LinkMatch.hasSubmitted_at (ledger w)
                  (LinkMatch.msg_sender (sent_call account s w enc))) eqn:Hsub.
      * by destruct (step_again this fromExternal FHE_max _ _ _ Hh Hsub)
          as (_ & ? & _).
      * by destruct (step_first this fromExternal FHE_max _ _ _ Hh Hsub)
          as (_ & ? & _).
    + rewrite Hst4. unfold submit_started. cbn [log].
      by rewrite <- !app_assoc.
Qed.

End SubmitMore.

(** * More about the decryption workflow *)

Section DecryptMore.

Variable loadOrSign :
  list string -> Hook.JsonRpcSigner ->
  Hook.outcome (option Hook.FhevmDecryptionSignature).
Variable userDecrypt :
  list (string * string) -> Hook.FhevmDecryptionSignature ->
  Hook.outcome (gmap string Hook.clear_value).

Import Hook Runs.

Local Abbreviation decrypt_my_score :=
  (Hook.decryptPlayerResult loadOrSign userDecrypt).
Local Abbreviation decrypt_run :=
  (Hook.decryptPlayerResult_run loadOrSign userDecrypt).

Ltac run_decrypt :=
  cbv [decryptPlayerResult_run isStale sameChain sameSigner
       try_finally try_catch bind act await modify lift throw gets
       setMessage set_isDecryptingRef set_clearResultRef ret resume
       env future isRefreshingRef isDecryptingRef isSubmittingRef
       clearResultRef ledger ledger_address block_time log].

(** Every way the body of the workflow can go.  [tail] is what is logged
    between [LoadOrSign] and the reset of the flag. *)
Lemma decrypt_run_cases
    (c : option N) (a h : string) (s : JsonRpcSigner) (w : World) :
  exists o w' tail,
    decrypt_run c a h s w = (o, w') /\
    isDecryptingRef w' = false /\
    isRefreshingRef w' = isRefreshingRef w /\
    isSubmittingRef w' = isSubmittingRef w /\
    ledger w' = ledger w /\
    log w' = log w ++ [LoadOrSign [a] (signer_address s)] ++ tail
               ++ [SetIsDecrypting false] /\
    ((exists err, loadOrSign [a] s = Throw err /\ o = Throw err /\
        tail = [] /\ clearResultRef w' = clearResultRef w) \/
     (loadOrSign [a] s = Return None /\ o = Return tt /\
        tail = [SetMessage "Unable to build FHEVM decryption signature"] /\
        clearResultRef w' = clearResultRef w) \/
     (exists sig, loadOrSign [a] s = Return (Some sig) /\
        ((stale a c s (env (resumed 1 w)) = true /\ o = Return tt /\
          tail = [SetMessage "Ignore FHEVM decryption"] /\
          clearResultRef w' = clearResultRef w) \/
         (stale a c s (env (resumed 1 w)) = false /\
          well_formed h = false /\ o = Return tt /\
          tail = [SetMessage "Call FHEVM userDecrypt...";
                  SetMessage "Invalid handle format"] /\
          clearResultRef w' = clearResultRef w) \/
         (stale a c s (env (resumed 1 w)) = false /\
          well_formed h = true /\
          ((exists err, userDecrypt [(h, a)] sig = Throw err /\
              o = Throw err /\
              tail = [SetMessage "Call FHEVM userDecrypt..."; UserDecrypt h a] /\
              clearResultRef w' = clearResultRef w) \/
           (exists res, userDecrypt [(h, a)] sig = Return res /\
              o = Return tt /\
              ((stale a c s (env (resumed 2 w)) = true /\
                tail = [SetMessage "Call FHEVM userDecrypt...";
                        UserDecrypt h a;
                        SetMessage "FHEVM userDecrypt completed!";
                        SetMessage "Ignore FHEVM decryption"] /\
                clearResultRef w' = clearResultRef w) \/
               (stale a c s (env (resumed 2 w)) = false /\
                tail = [SetMessage "Call FHEVM userDecrypt...";
                        UserDecrypt h a;
                        SetMessage "FHEVM userDecrypt completed!";
                        SetClearResult (cache_entry h (res !! h))] /\
                clearResultRef w' = cache_entry h (res !! h))))))))).
Proof.
  destruct w as [e0 fut rf df sf cr ld la bt lg].
  unfold stale, well_formed, cache_entry. cbv [resumed Nat.iter nat_rect].
  run_decrypt.
  destruct (loadOrSign [a] s) as [[sig|]|err] eqn:Hsig; run_decrypt.
  3: { exists (Throw err). eexists. exists [].
       split; [reflexivity |]. cbn [log ledger isSubmittingRef isRefreshingRef
                                    isDecryptingRef clearResultRef].
       do 4 (split; [reflexivity |]). split; [by rewrite <- !app_assoc |].
       left. eauto. }
  2: { exists (Return tt). eexists. eexists.
       split; [reflexivity |]. cbn [log ledger isSubmittingRef isRefreshingRef
                                    isDecryptingRef clearResultRef].
       do 4 (split; [reflexivity |]). split.
       2: { right. left. split; [done |]. split; [done |]. split; reflexivity. }
       by rewrite <- !app_assoc. }
  set (e1 := hd e0 fut).
  destruct (negb (strict_eq (Some a) (linkMatchRef_address e1))
            || negb (strict_eq_num c (active_chainId e1))
            || negb (same_object (Some s) (active_signer e1))) eqn:Hst1;
    run_decrypt.
  { exists (Return tt). eexists. eexists.
    split; [reflexivity |]. cbn [log ledger isSubmittingRef isRefreshingRef
                                 isDecryptingRef clearResultRef].
    do 4 (split; [reflexivity |]). split.
    2: { right. right. exists sig. split; [done |]. left.
         split; [done |]. split; [done |]. split; reflexivity. }
    by rewrite <- !app_assoc. }
  destruct (String.eqb h "" || String.eqb h "0x"
            || Nat.ltb (String.length h) 66) eqn:Hwf; cbn [negb]; run_decrypt.
  { exists (Return tt). eexists. eexists.
    split; [reflexivity |]. cbn [log ledger isSubmittingRef isRefreshingRef
                                 isDecryptingRef clearResultRef].
    do 4 (split; [reflexivity |]). split.
    2: { right. right. exists sig. split; [done |]. right. left.
         split; [done |]. split; [done |]. split; [done |]. split; reflexivity. }
    by rewrite <- !app_assoc. }
  destruct (userDecrypt [(h, a)] sig) as [res|err] eqn:Hdec; run_decrypt.
  2: { exists (Throw err). eexists. eexists.
       split; [reflexivity |]. cbn [log ledger isSubmittingRef isRefreshingRef
                                    isDecryptingRef clearResultRef].
       do 4 (split; [reflexivity |]). split.
       2: { right. right. exists sig. split; [done |]. right. right.
            split; [done |]. split; [done |]. left. exists err.
            split; [done |]. split; [done |]. split; reflexivity. }
       by rewrite <- !app_assoc. }
  set (e2 := hd e1 (tl fut)).
  assert (Hval : match res !! h with Some v => Some v | None => res !! h end
                 = res !! h) by (by destruct (res !! h)).
  destruct (negb (strict_eq (Some a) (linkMatchRef_address e2))
            || negb (strict_eq_num c (active_chainId e2))
            || negb (same_object (Some s) (active_signer e2))) eqn:Hst2;
    run_decrypt.
  - exists (Return tt). eexists. eexists.
    split; [reflexivity |]. cbn [log ledger isSubmittingRef isRefreshingRef
                                 isDecryptingRef clearResultRef].
    do 4 (split; [reflexivity |]). split.
    2: { right. right. exists sig. split; [done |]. right. right.
         split; [done |]. split; [done |]. right. exists res.
         split; [done |]. split; [done |]. left.
         split; [done |]. split; reflexivity. }
    by rewrite <- !app_assoc.
  - rewrite !Hval. exists (Return tt). eexists. eexists.
    split; [reflexivity |]. cbn [log ledger isSubmittingRef isRefreshingRef
                                 isDecryptingRef clearResultRef].
    do 4 (split; [reflexivity |]). split.
    2: { right. right. exists sig. split; [done |]. right. right.
         split; [done |]. split; [done |]. right. exists res.
         split; [done |]. split; [done |]. right.
         split; [done |]. split; reflexivity. }
    by rewrite <- !app_assoc.
Qed.

(** The guards of [decryptPlayerResult]. *)
Lemma decrypt_dispatch (r : Render) (w : World) :
  (ready_to_decrypt r w = false /\ decrypt_my_score r w = (Return tt, w)) \/
  (ready_to_decrypt r w = true /\
   exists a s h,
     linkMatch_address r = Some a /\ ethersSigner r = Some s /\
     playerResultHandle r = Some h /\
     ((cached_handle (clearResultRef w) = Some h /\
       decrypt_my_score r w = (Return tt, w)) \/
      (cached_handle (clearResultRef w) <> Some h /\ h = "" /\
       decrypt_my_score r w = (Return tt, cache_cleared w)) \/
      (cached_handle (clearResultRef w) <> Some h /\ h <> "" /\
       decrypt_my_score r w =
         decrypt_run (chainId r) a h s (decrypt_started w)))).
Proof.
  destruct w as [e0 fut rf df sf cr ld la bt lg].
  unfold ready_to_decrypt, decrypt_started, cache_cleared,
    Hook.decryptPlayerResult.
  cbv [bind gets ret isRefreshingRef isSubmittingRef isDecryptingRef env future
       clearResultRef ledger ledger_address block_time log].
  destruct (rf || df); [by left |]. cbn [negb andb].
  destruct (truthy (linkMatch_address r)) eqn:Ht; [| by left].
  destruct (instance r); [| by left].
  destruct (ethersSigner r) as [s|]; [| by left].
  destruct (playerResultHandle r) as [h|]; [| by left].
  destruct (linkMatch_address r) as [a|]; [| done].
  right. split; [done |]. exists a, s, h. do 3 (split; [done |]).
  cbv [orb negb bool_decide decide_rel is_Some_dec].
  destruct (strict_eq (Some h) (cached_handle cr)) eqn:Hc.
  { left. apply strict_eq_true in Hc. done. }
  assert (Hne : cached_handle cr <> Some h).
  { intros E. rewrite E in Hc. simpl in Hc. by rewrite String.eqb_refl in Hc. }
  right. destruct (String.eqb_spec h "") as [-> | Hh].
  - left. split; [done |]. split; [done |].
    cbv [bind act modify set_clearResultRef
         env future isRefreshingRef isDecryptingRef isSubmittingRef
         clearResultRef ledger ledger_address block_time log]. done.
  - right. split; [done |]. split; [done |].
    cbv [bind act modify setMessage set_isDecryptingRef
         env future isRefreshingRef isDecryptingRef isSubmittingRef
         clearResultRef ledger ledger_address block_time log].
    by rewrite <- app_assoc.
Qed.

(** X13.  A plaintext enters the cache only as the backend's answer for the
    handle the hook holds, obtained under an authorization, and only when
    the ledger address, chain and signer were those of the snapshot both
    before the backend call and after it.  Otherwise the cache is left as it
    was, or emptied when the handle is the empty string. *)
Theorem plaintext_cached_only_when_fresh (r : Render) (w : World) :
  let w' := snd (decrypt_my_score r w) in
  clearResultRef w' = clearResultRef w \/
  (playerResultHandle r = Some "" /\ clearResultRef w' = None) \/
  exists a s h sig res,
    linkMatch_address r = Some a /\ ethersSigner r = Some s /\
    playerResultHandle r = Some h /\ well_formed h = true /\
    loadOrSign [a] s = Return (Some sig) /\
    userDecrypt [(h, a)] sig = Return res /\
    stale a (chainId r) s (env (resumed 1 w)) = false /\
    stale a (chainId r) s (env (resumed 2 w)) = false /\
    clearResultRef w' = cache_entry h (res !! h).
Proof.
  intros w'. subst w'.
  destruct (decrypt_dispatch r w)
    as [[_ ->] | (_ & a & s & h & Ha & Hs & Hh & Hd)]; [by left |].
  destruct Hd as [[_ ->] | [(_ & -> & ->) | (_ & _ & ->)]];
    [by left | by right; left |].
  destruct (decrypt_run_cases (chainId r) a h s (decrypt_started w))
    as (o & w' & tl & -> & _ & _ & _ & _ & _ & Hcases).
  cbn [snd].
  change (env (resumed 1 (decrypt_started w))) with (env (resumed 1 w)) in Hcases.
  change (env (resumed 2 (decrypt_started w))) with (env (resumed 2 w)) in Hcases.
  change (clearResultRef (decrypt_started w)) with (clearResultRef w) in Hcases.
  destruct Hcases as [(err & _ & _ & _ & Hc) | [(_ & _ & _ & Hc) | (sig & Hsig & Hcs)]];
    [by left | by left |].
  destruct Hcs as [(_ & _ & _ & Hc) | [(_ & _ & _ & _ & Hc) | (Hst1 & Hwf & Hcs)]];
    [by left | by left |].
  destruct Hcs as [(err & _ & _ & _ & Hc) | (res & Hres & _ & Hcs)]; [by left |].
  destruct Hcs as [(_ & _ & Hc) | (Hst2 & _ & Hc)]; [by left |].
  right. right. exists a, s, h, sig, res. done.
Qed.

(** X14.  [decryptPlayerResult] never leaves the decrypting flag set, also when
    the authorization manager or the backend throws; an error it returns is
    one of theirs; and it never touches the ledger or the other flags. *)
Theorem decrypt_always_resets_the_flag (r : Render) (w : World) :
  let o := fst (decrypt_my_score r w) in
  let w' := snd (decrypt_my_score r w) in
  (isDecryptingRef w = false -> isDecryptingRef w' = false) /\
  isRefreshingRef w' = isRefreshingRef w /\
  isSubmittingRef w' = isSubmittingRef w /\
  ledger w' = ledger w /\
  (forall err, o = Throw err ->
     exists a s, linkMatch_address r = Some a /\ ethersSigner r = Some s /\
       (loadOrSign [a] s = Throw err \/
        exists h sig, playerResultHandle r = Some h /\
          userDecrypt [(h, a)] sig = Throw err)).
Proof.
  intros o w'. subst o w'.
  destruct (decrypt_dispatch r w)
    as [[_ ->] | (_ & a & s & h & Ha & Hs & Hh & Hd)]; [done |].
  destruct Hd as [[_ ->] | [(_ & -> & ->) | (_ & _ & ->)]]; [done | done |].
  destruct (decrypt_run_cases (chainId r) a h s (decrypt_started w))
    as (o & w' & tl & -> & Hf & Hr & Hsb & Hl & _ & Hcases).
  cbn [fst snd]. split; [done |]. do 3 (split; [done |]).
  intros err ->. exists a, s. do 2 (split; [done |]).
  destruct Hcases as [(e & He & [= ->] & _) | [(_ & ? & _) | (sig & Hsig & Hcs)]];
    [by left | done |].
  destruct Hcs as [(_ & ? & _) | [(_ & _ & ? & _) | (_ & _ & Hcs)]];
    [done | done |].
  destruct Hcs as [(e & He & [= ->] & _) | (res & _ & ? & _)]; [| done].
  right. eauto.
Qed.

(** X15.  When the authorization cannot be built (the user declines to sign),
    the backend is not called and nothing is cached. *)
Theorem declined_authorization_stops_decryption
    (r : Render) (w : World) (a h : string) (s : JsonRpcSigner) :
  ready_to_decrypt r w = true ->
  linkMatch_address r = Some a -> ethersSigner r = Some s ->
  playerResultHandle r = Some h ->
  h <> "" -> cached_handle (clearResultRef w) <> Some h ->
  loadOrSign [a] s = Return None ->
  decrypt_my_score r w =
    (Return tt,
     mkWorld (env (resumed 1 w)) (future (resumed 1 w)) (isRefreshingRef w)
       false (isSubmittingRef w) (clearResultRef w) (ledger w)
       (ledger_address w) (block_time w)
       (log w ++
          [ SetIsDecrypting true;
            SetMessage "Start decrypt";
            LoadOrSign [a] (signer_address s);
            SetMessage "Unable to build FHEVM decryption signature";
            SetIsDecrypting false ])).
Proof.
  intros Hready Ha Hs Hh Hne Hnc Hsig.
  destruct (decrypt_dispatch r w)
    as [[Hn _] | (_ & a' & s' & h' & Ha' & Hs' & Hh' & Hd)]; [congruence |].
  assert (a' = a) by congruence. assert (s' = s) by congruence.
  assert (h' = h) by congruence. subst a' s' h'.
  destruct Hd as [[Hc _] | [(_ & -> & _) | (_ & _ & ->)]]; [done | done |].
  destruct w as [e0 fut rf df sf cr ld la bt lg].
  unfold decrypt_started. cbv [resumed Nat.iter nat_rect].
  run_decrypt. rewrite Hsig. run_decrypt.
  by rewrite <- !app_assoc.
Qed.

(** X16.  A handle that is not empty but fails the format test (["0x"], or
    fewer than 66 characters) is never sent to the backend, although the
    authorization is requested first; nothing is cached. *)
Theorem malformed_handle_is_not_decrypted
    (r : Render) (w : World) (a h : string) (s : JsonRpcSigner)
    (sig : FhevmDecryptionSignature) :
  ready_to_decrypt r w = true ->
  linkMatch_address r = Some a -> ethersSigner r = Some s ->
  playerResultHandle r = Some h ->
  h <> "" -> cached_handle (clearResultRef w) <> Some h ->
  well_formed h = false ->
  loadOrSign [a] s = Return (Some sig) ->
  stale a (chainId r) s (env (resumed 1 w)) = false ->
  let w' := snd (decrypt_my_score r w) in
  fst (decrypt_my_score r w) = Return tt /\
  clearResultRef w' = clearResultRef w /\
  log w' = log w ++
    [ SetIsDecrypting true;
      SetMessage "Start decrypt";
      LoadOrSign [a] (signer_address s);
      SetMessage "Call FHEVM userDecrypt...";
      SetMessage "Invalid handle format";
      SetIsDecrypting false ].
Proof.
  intros Hready Ha Hs Hh Hne Hnc Hwf Hsig Hst w'. subst w'.
  destruct (decrypt_dispatch r w)
    as [[Hn _] | (_ & a' & s' & h' & Ha' & Hs' & Hh' & Hd)]; [congruence |].
  assert (a' = a) by congruence. assert (s' = s) by congruence.
  assert (h' = h) by congruence. subst a' s' h'.
  destruct Hd as [[Hc _] | [(_ & -> & _) | (_ & _ & ->)]]; [done | done |].
  destruct (decrypt_run_cases (chainId r) a h s (decrypt_started w))
    as (o & w' & tl & -> & _ & _ & _ & _ & Hlog & Hcases).
  cbn [fst snd]. rewrite Hlog. clear Hlog.
  change (env (resumed 1 (decrypt_started w))) with (env (resumed 1 w)) in Hcases.
  change (clearResultRef (decrypt_started w)) with (clearResultRef w) in Hcases.
  destruct Hcases as [(err & E & _) | [(E & _) | (sig' & _ & Hcs)]];
    [congruence | congruence |].
  destruct Hcs as [(E & _) | [(_ & _ & -> & -> & Hc) | (_ & E & _)]];
    [congruence | | congruence].
  split; [done |]. split; [done |].
  unfold decrypt_started. cbn [log]. by rewrite <- !app_assoc.
Qed.

(** X17.  With a well-formed handle, an authorization, an answer from the
    backend and no change of ledger address, chain or signer, the
    cleartext the backend gave for the handle is cached under that handle. *)
Theorem decrypted_value_is_cached
    (r : Render) (w : World) (a h : string) (s : JsonRpcSigner)
    (sig : FhevmDecryptionSignature) (res : gmap string clear_value) :
  ready_to_decrypt r w = true ->
  linkMatch_address r = Some a -> ethersSigner r = Some s ->
  playerResultHandle r = Some h ->
  cached_handle (clearResultRef w) <> Some h ->
  well_formed h = true ->
  loadOrSign [a] s = Return (Some sig) ->
  userDecrypt [(h, a)] sig = Return res ->
  stale a (chainId r) s (env (resumed 1 w)) = false ->
  stale a (chainId r) s (env (resumed 2 w)) = false ->
  let w' := snd (decrypt_my_score r w) in
  fst (decrypt_my_score r w) = Return tt /\
  clearResultRef w' = cache_entry h (res !! h) /\
  cached_handle (clearResultRef w') = playerResultHandle r /\
  log w' = log w ++
    [ SetIsDecrypting true;
      SetMessage "Start decrypt";
      LoadOrSign [a] (signer_address s);
      SetMessage "Call FHEVM userDecrypt...";
      UserDecrypt h a;
      SetMessage "FHEVM userDecrypt completed!";
      SetClearResult (cache_entry h (res !! h));
      SetIsDecrypting false ].
Proof.
  intros Hready Ha Hs Hh Hnc Hwf Hsig Hres Hst1 Hst2 w'. subst w'.
  assert (Hne : h <> "") by (intros ->; discriminate).
  destruct (decrypt_dispatch r w)
    as [[Hn _] | (_ & a' & s' & h' & Ha' & Hs' & Hh' & Hd)]; [congruence |].
  assert (a' = a) by congruence. assert (s' = s) by congruence.
  assert (h' = h) by congruence. subst a' s' h'.
  destruct Hd as [[Hc _] | [(_ & -> & _) | (_ & _ & ->)]]; [done | done |].
  destruct (decrypt_run_cases (chainId r) a h s (decrypt_started w))
    as (o & w' & tl & -> & _ & _ & _ & _ & Hlog & Hcases).
  cbn [fst snd]. rewrite Hlog. clear Hlog.
  change (env (resumed 1 (decrypt_started w))) with (env (resumed 1 w)) in Hcases.
  change (env (resumed 2 (decrypt_started w))) with (env (resumed 2 w)) in Hcases.
  destruct Hcases as [(err & E & _) | [(E & _) | (sig' & E & Hcs)]];
    [congruence | congruence |].
  assert (sig' = sig) by congruence. subst sig'.
  destruct Hcs as [(E' & _) | [(_ & E' & _) | (_ & _ & Hcs)]];
    [congruence | congruence |].
  destruct Hcs as [(err & E' & _) | (res' & E' & -> & Hcs)]; [congruence |].
  assert (res' = res) by congruence. subst res'.
  destruct Hcs as [(E'' & _) | (_ & -> & Hc)]; [congruence |].
  split; [done |]. split; [done |]. split; [by rewrite Hc, Hh |].
  unfold decrypt_started. cbn [log]. by rewrite <- !app_assoc.
Qed.

(** X18.  One call of [decryptPlayerResult] asks for at most one authorization
    and makes at most one backend call, and no backend call without an
    authorization; it sends nothing to the ledger. *)
Theorem decrypt_calls_are_bounded (r : Render) (w : World) :
  let w' := snd (decrypt_my_score r w) in
  count is_authorization (log w') <= S (count is_authorization (log w)) /\
  count is_backend_decrypt (log w') <= S (count is_backend_decrypt (log w)) /\
  count is_contract_call (log w') = count is_contract_call (log w) /\
  (count is_backend_decrypt (log w') = S (count is_backend_decrypt (log w)) ->
   exists a s sig, linkMatch_address r = Some a /\ ethersSigner r = Some s /\
     loadOrSign [a] s = Return (Some sig)).
Proof.
  intros w'. subst w'.
  destruct (decrypt_dispatch r w)
    as [[_ ->] | (_ & a & s & h & Ha & Hs & Hh & Hd)].
  { cbn [snd]. repeat split; lia. }
  destruct Hd as [[_ ->] | [(_ & -> & ->) | (_ & _ & ->)]].
  { cbn [snd]. repeat split; lia. }
  { cbn [snd]. unfold cache_cleared. cbn [log]. rewrite !count_app.
    unfold count. simpl. repeat split; lia. }
  destruct (decrypt_run_cases (chainId r) a h s (decrypt_started w))
    as (o & w' & tl & -> & _ & _ & _ & _ & Hlog & Hcases).
  cbn [snd]. rewrite Hlog. unfold decrypt_started. cbn [log].
  rewrite !count_app.
  assert (Htl : count is_authorization tl = 0 /\
                count is_contract_call tl = 0 /\
                (count is_backend_decrypt tl = 0 \/
                 count is_backend_decrypt tl = 1 /\
                 exists sig, loadOrSign [a] s = Return (Some sig))).
  { unfold count.
    destruct Hcases as [(err & _ & _ & -> & _) | [(_ & _ & -> & _) | (sig & Hsig & Hcs)]];
      [simpl; tauto | simpl; tauto |].
    destruct Hcs as [(_ & _ & -> & _) | [(_ & _ & _ & -> & _) | (_ & _ & Hcs)]];
      [simpl; tauto | simpl; tauto |].
    destruct Hcs as [(err & _ & _ & -> & _) | (res & _ & _ & Hcs)];
      [simpl; do 2 (split; [reflexivity |]); right; eauto |].
    destruct Hcs as [(_ & -> & _) | (_ & -> & _)];
      simpl; do 2 (split; [reflexivity |]); right; eauto. }
  destruct Htl as (H1 & H2 & H3). unfold count in *. simpl.
  repeat split; try lia.
  intros E. destruct H3 as [? | [_ [sig Hsig]]]; [lia |].
  by exists a, s, sig.
Qed.

End DecryptMore.

(** * Which deployment is used *)

Section DeploymentFacts.

Import Deployment.

Lemma toString_inj (n m : N) : toString n = toString m -> n = m.
Proof.
  unfold toString. intros H.
  apply DecimalN.Unsigned.to_uint_inj.
  assert (E : Some (N.to_uint n) = Some (N.to_uint m))
    by (by rewrite <- !NilEmpty.usu, H).
  by injection E.
Qed.

Lemma lookup_deployment (c : N) :
  LinkMatchAddresses !! toString c =
    if N.eqb c 11155111
    then Some (mkEntry "0x01Bc5bd6B28485A312D0ba668EDAaAee1E840035"
                 11155111 "sepolia")
    else None.
Proof.
  unfold LinkMatchAddresses.
  destruct (N.eqb_spec c 11155111) as [-> | Hne].
  - by rewrite lookup_singleton_eq.
  - apply lookup_singleton_ne. intros E. apply Hne.
    symmetry. apply toString_inj. by rewrite <- E.
Qed.

(** X19.  On Sepolia the address of the generated table is used whatever
    address the page passes; on every other chain the page's address is
    used; without a chain there is no address.  The contract counts as
    deployed exactly on Sepolia, or on another chain when the page's
    address is a non-empty string other than the zero address. *)
Theorem deployment_resolution
    (chainId : option N) (contractAddress : option string) :
  let info := getLinkMatchByChainId chainId contractAddress in
  (chainId = Some 11155111%N ->
     info_address info = Some "0x01Bc5bd6B28485A312D0ba668EDAaAee1E840035") /\
  (forall c, chainId = Some c -> c <> 0%N -> c <> 11155111%N ->
     info_address info = contractAddress /\ info_chainName info = None) /\
  (chainId = None \/ chainId = Some 0%N ->
     info_address info = None /\ info_chainId info = None) /\
  (isDeployed info = true <->
     exists c, chainId = Some c /\ c <> 0%N /\
       (c = 11155111%N \/
        (Hook.truthy contractAddress = true /\
         contractAddress <> Some ZeroAddress))).
Proof.
  intros info. subst info. unfold getLinkMatchByChainId.
  destruct chainId as [c|].
  2: { repeat split; try done. by intros (c & [=] & _). }
  destruct (N.eqb_spec c 0) as [-> | H0].
  { repeat split; try done; try congruence.
    by intros (c' & [= <-] & ? & _). }
  cbv zeta. rewrite lookup_deployment.
  destruct (N.eqb_spec c 11155111) as [-> | Hs].
  - split; [done |].
    split; [intros c' [= <-] _ ?; congruence |].
    split; [by intros [[=] | [=]] |].
    split; [intros _ | done].
    exists 11155111%N. split; [done |]. split; [done |]. by left.
  - cbn [fmap option_fmap option_map info_address info_chainId info_chainName].
    split; [congruence |].
    split; [done |].
    split; [intros [[=] | [= E]]; done |].
    unfold isDeployed. cbn [info_address].
    rewrite andb_true_iff, negb_true_iff. split.
    + intros [Ht Hz]. exists c. split; [done |]. split; [done |]. right.
      split; [done |]. intros ->. simpl in Hz. discriminate.
    + intros (c' & [= <-] & _ & [E | [Ht Hz]]); [done |].
      split; [done |].
      destruct (Hook.strict_eq contractAddress (Some ZeroAddress)) eqn:E;
        [| done].
      apply strict_eq_true in E. done.
Qed.

End DeploymentFacts.
(** * The read-only workflows *)

Lemma prefix_app (n b : string) : String.prefix n (n ++ b)%string = true.
Proof.
  induction n as [| c n IH]; simpl; [by destruct b |].
  destruct (Ascii.ascii_dec c c); [done | congruence].
Qed.

Lemma prefix_inv (n s : string) :
  String.prefix n s = true -> exists b, s = (n ++ b)%string.
Proof.
  revert s. induction n as [| c n IH]; intros s H.
  - by exists s.
  - destruct s as [| d s]; simpl in H; [done |].
    destruct (Ascii.ascii_dec c d) as [-> |]; [| done].
    destruct (IH s H) as [b ->]. by exists b.
Qed.

Lemma includes_spec (s n : string) :
  includes s n = true <-> exists a b, s = (a ++ n ++ b)%string.
Proof.
  split.
  - induction s as [| c s IH]; cbn [includes]; rewrite orb_true_iff.
    + intros [H | H]; [| done].
      destruct (prefix_inv _ _ H) as [b Hb]. by exists "", b.
    + intros [H | H].
      * destruct (prefix_inv _ _ H) as [b Hb]. by exists "", b.
      * destruct (IH H) as (a & b & ->). by exists (String c a), b.
  - intros (a & b & ->). induction a as [| c a IH].
    + change ("" ++ n ++ b)%string with (n ++ b)%string.
      assert (H := prefix_app n b).
      destruct (n ++ b)%string; cbn [includes]; by rewrite H.
    + change (String c a ++ n ++ b)%string with (String c (a ++ n ++ b)).
      cbn [includes]. rewrite IH. by rewrite orb_true_r.
Qed.

Lemma string_app_assoc (a b c : string) :
  ((a ++ b) ++ c = a ++ b ++ c)%string.
Proof.
  induction a as [| x a IH]; [done |].
  change (String x ((a ++ b) ++ c) = String x (a ++ b ++ c))%string.
  by f_equal.
Qed.

Lemma includes_trans (s m n : string) :
  includes s m = true -> includes m n = true -> includes s n = true.
Proof.
  rewrite !includes_spec. intros (a & b & ->) (a' & b' & ->).
  exists (a ++ a')%string, (b' ++ b)%string. by rewrite !string_app_assoc.
Qed.

Lemma imap_lookup_zip {A B C : Type} (f : A -> option B -> C)
    (l1 : list A) : forall (l2 : list B),
  length l1 = length l2 ->
  imap (fun i a => f a (l2 !! i)) l1 = zip_with (fun a b => f a (Some b)) l1 l2.
Proof.
  induction l1 as [| a l1 IH]; intros [| b l2] Hlen; try done.
  simpl. f_equal. apply IH. simpl in Hlen. lia.
Qed.

Section ViewFacts.

Import LinkMatch Deployment View Reads.

Variable this : address.
Variable fromExternal : address -> externalEuint32 -> bytes -> option euint32.
Variable FHE_max : euint32 -> euint32 -> euint32.

Variable account : string -> address.
Variable checksum : address -> string.
Variable returned_handle : euint32 -> returned.
Variable decoded_handle : euint32 -> bytes32_value.
Variable hexlify : euint32 -> string.
Variable call_exception : string -> string.
Variable bad_data : string.
Variable unsupported_operation : string.
Variable print_error : string -> string.

Local Abbreviation run := (exec this fromExternal FHE_max).
Local Abbreviation senders := (accepted_senders fromExternal).
Local Abbreviation refresh :=
  (refreshPlayerResult account returned_handle hexlify call_exception
     bad_data unsupported_operation print_error).
Local Abbreviation load_leaderboard :=
  (fetchLeaderboard checksum decoded_handle hexlify call_exception
     bad_data unsupported_operation print_error).
Local Abbreviation load_hasSubmitted :=
  (hasSubmitted_effect account call_exception bad_data unsupported_operation).
Local Abbreviation read :=
  (eth_call call_exception bad_data unsupported_operation).

Ltac view_simpl :=
  cbv [refresh_resolved refresh_rejected resume set_isRefreshingRef
       setPlayerResultHandle setMessage setIsRefreshing setHasSubmitted
       setLeaderboard setIsLoadingLeaderboard
       env future isRefreshingRef playerResultHandle message isRefreshing
       hasSubmitted leaderboard isLoadingLeaderboard ledger ledger_address].

(** Either a guard stops [refreshPlayerResult], or the read is made for
    the target in [linkMatchRef.current] and one of its handlers runs. *)
Lemma refresh_cases (p : Props) (w : World) :
  refresh p w = w \/
  refresh p w = setPlayerResultHandle None w \/
  exists info c a provider s,
    isRefreshingRef w = false /\
    linkMatchRef (env w) = Some info /\
    info_chainId info = Some c /\ c <> 0%N /\
    info_address info = Some a /\ a <> "" /\
    ethersReadonlyProvider p = Some provider /\
    ethersSigner p = Some s /\
    refresh p w =
      match read provider a (reading w)
              (fun st => getPlayerResult st (account (Hook.signer_address s)))
      with
      | Hook.Return h => refresh_resolved hexlify c a (returned_handle h) (reading w)
      | Hook.Throw e => refresh_rejected print_error e (reading w)
      end.
Proof.
  unfold refreshPlayerResult.
  destruct (isRefreshingRef w) eqn:Hf; [by left |].
  destruct (linkMatchRef (env w)) as [info|] eqn:Hi; [| by right; left].
  destruct (ethersReadonlyProvider p) as [provider|]; [| by right; left].
  destruct (ethersSigner p) as [s|]; [| by right; left].
  destruct (info_chainId info) as [c|] eqn:Hc; [| by right; left].
  destruct (info_address info) as [a|] eqn:Ha; [| by right; left].
  destruct (N.eqb_spec c 0) as [-> | Hc0]; [by right; left |].
  cbn [orb]. unfold Hook.truthy.
  destruct (String.eqb_spec a "") as [-> | Ha0]; [by right; left |].
  cbn [negb]. right. right.
  exists info, c, a, provider, s. done.
Qed.


(** Past its guards, [refreshPlayerResult] makes the read and runs one of
    its two handlers. *)
Lemma refresh_run (p : Props) (w : World) (info : LinkMatchInfoType)
    (c : N) (a : string) (provider : ContractRunner) (s : Hook.JsonRpcSigner) :
  isRefreshingRef w = false ->
  linkMatchRef (env w) = Some info ->
  info_chainId info = Some c -> c <> 0%N ->
  info_address info = Some a -> a <> "" ->
  ethersReadonlyProvider p = Some provider ->
  ethersSigner p = Some s ->
  refresh p w =
    match read provider a (reading w)
            (fun st => getPlayerResult st (account (Hook.signer_address s)))
    with
    | Hook.Return h => refresh_resolved hexlify c a (returned_handle h) (reading w)
    | Hook.Throw e => refresh_rejected print_error e (reading w)
    end.
Proof.
  intros Hf Hi Hc Hc0 Ha Ha0 Hp Hs.
  unfold refreshPlayerResult. rewrite Hf, Hi, Hp, Hs, Hc, Ha.
  destruct (N.eqb_spec c 0) as [-> | _]; [done |].
  cbn [orb]. unfold Hook.truthy.
  by destruct (String.eqb_spec a "") as [-> | _].
Qed.

Lemma read_deployed {A : Type} (provider : ContractRunner) (a : string)
    (w : World) (f : state -> result A) :
  has_call provider = true -> ledger_address w = a ->
  read provider a w f =
    match f (ledger w) with
    | Ok x => Hook.Return x
    | Revert reason => Hook.Throw (call_exception reason)
    end.
Proof.
  intros Hc <-. unfold eth_call. rewrite Hc. cbn [negb].
  by rewrite String.eqb_refl.
Qed.

Lemma read_elsewhere {A : Type} (provider : ContractRunner) (a : string)
    (w : World) (f : state -> result A) :
  has_call provider = true -> ledger_address w <> a ->
  read provider a w f = Hook.Throw bad_data.
Proof.
  intros Hc Hne. unfold eth_call. rewrite Hc. cbn [negb].
  destruct (String.eqb_spec a (ledger_address w)) as [E | _]; [| done].
  by rewrite E in Hne.
Qed.

(** X20.  [refreshPlayerResult] reads the ledger and never writes it; it
    leaves the refreshing flag as it found it, does nothing at all while
    another refresh is running, and the handle it leaves is the old one,
    none, or one that passes the format test of the decryption workflow. *)
Theorem refreshed_handle_is_well_formed (p : Props) (w : World) :
  let w' := refresh p w in
  isRefreshingRef w' = isRefreshingRef w /\
  ledger w' = ledger w /\
  hasSubmitted w' = hasSubmitted w /\
  leaderboard w' = leaderboard w /\
  isLoadingLeaderboard w' = isLoadingLeaderboard w /\
  (isRefreshingRef w = true -> w' = w) /\
  (playerResultHandle w' = playerResultHandle w \/
   playerResultHandle w' = None \/
   exists s, playerResultHandle w' = Some s /\ Runs.well_formed s = true).
Proof.
  intros w'. subst w'.
  destruct (refresh_cases p w)
    as [-> | [E | (info & c & a & provider & s & Hf & _ & _ & _ & _ & _ & _ & _ & E)]].
  - repeat split; try done. by left.
  - assert (Hf : isRefreshingRef w = true -> refresh p w = w).
    { intros Hf. unfold refreshPlayerResult. by rewrite Hf. }
    rewrite E in *. repeat split; try done. right. by left.
  - rewrite E. clear E.
    destruct (read provider a (reading w) _) as [h | e].
    + unfold refresh_resolved.
      destruct (sameChain c (env (reading w)) && _).
      * destruct (match returned_handle h with
                  | One (HexString s0) => Some s0
                  | One (ByteArray b) => Some (hexlify b)
                  | Several l => head l
                  end) as [s0 |].
        -- destruct (negb (Hook.truthy (Some s0)) || String.eqb s0 "0x"
                     || Nat.ltb (String.length s0) 66) eqn:Ht.
           ++ repeat split; try done; try congruence. right. by left.
           ++ repeat split; try done; try congruence. right. right.
              exists s0. split; [done |]. unfold Runs.well_formed.
              unfold Hook.truthy in Ht.
              by destruct (String.eqb s0 ""), (String.eqb s0 "0x"),
                   (Nat.ltb (String.length s0) 66).
        -- repeat split; try done; try congruence. right. by left.
      * repeat split; try done; try congruence. by left.
    + unfold refresh_rejected.
      destruct (Hook.truthy (Some e) && _).
      * repeat split; try done; try congruence. right. by left.
      * repeat split; try done; try congruence. by left.
Qed.

(** X21.  For a player with a record, a refresh whose target is still the
    one in [linkMatchRef.current] on the active chain when the read
    resolves leaves the stored handle, as the contract object printed it,
    in [playerResultHandle]; it sets no message and clears both flags. *)
Theorem refresh_shows_the_stored_handle
    (p : Props) (w : World) (cs : list call) (info : LinkMatchInfoType)
    (c : N) (a : string) (provider : ContractRunner)
    (s : Hook.JsonRpcSigner) (text : string) :
  let player := account (Hook.signer_address s) in
  isRefreshingRef w = false ->
  linkMatchRef (env w) = Some info ->
  info_chainId info = Some c -> c <> 0%N ->
  info_address info = Some a -> a <> "" ->
  ethersReadonlyProvider p = Some provider -> has_call provider = true ->
  ethersSigner p = Some s ->
  ledger_address w = a ->
  ledger w = run init cs ->
  player ∈ senders cs ->
  returned_handle (score (playerResults_at (ledger w) player))
    = One (HexString text) ->
  Runs.well_formed text = true ->
  active_chainId (env (resume (resume w))) = Some c ->
  ref_address (env (resume (resume w))) = Some a ->
  let w' := refresh p w in
  playerResultHandle w' = Some text /\
  message w' = message w /\
  isRefreshingRef w' = false /\ isRefreshing w' = false.
Proof.
  intros player Hf Hi Hc Hc0 Ha Ha0 Hp Hcall Hs Hla Hl Hin Hret Hwf Hch Hra w'.
  subst w'. rewrite (refresh_run p w info c a provider s) by done.
  rewrite read_deployed by done.
  change (ledger (reading w)) with (ledger w).
  assert (Hsub : hasSubmitted_at (ledger w) player = true).
  { rewrite Hl. by apply (reachable_index this fromExternal FHE_max cs). }
  unfold getPlayerResult. fold player. rewrite Hsub, Hret.
  unfold refresh_resolved.
  change (env (reading w)) with (env (resume (resume w))).
  unfold sameChain. rewrite Hch, Hra. cbn [Hook.strict_eq_num Hook.strict_eq].
  rewrite N.eqb_refl, String.eqb_refl. cbn [andb].
  unfold Runs.well_formed in Hwf. unfold Hook.truthy.
  destruct (String.eqb text ""), (String.eqb text "0x"),
    (Nat.ltb (String.length text) 66); try discriminate.
  done.
Qed.

(** X22.  For a player without a record the contract reverts; as the error
    quotes the reason, the refresh leaves no handle and no message,
    whatever happened to chain and target meanwhile. *)
Theorem refresh_without_a_record
    (p : Props) (w : World) (cs : list call) (info : LinkMatchInfoType)
    (c : N) (a : string) (provider : ContractRunner)
    (s : Hook.JsonRpcSigner) :
  (forall reason, includes (call_exception reason) reason = true) ->
  isRefreshingRef w = false ->
  linkMatchRef (env w) = Some info ->
  info_chainId info = Some c -> c <> 0%N ->
  info_address info = Some a -> a <> "" ->
  ethersReadonlyProvider p = Some provider -> has_call provider = true ->
  ethersSigner p = Some s ->
  ledger_address w = a ->
  ledger w = run init cs ->
  account (Hook.signer_address s) ∉ senders cs ->
  let w' := refresh p w in
  playerResultHandle w' = None /\
  message w' = message w /\
  isRefreshingRef w' = false /\ isRefreshing w' = false.
Proof.
  intros Hq Hf Hi Hc Hc0 Ha Ha0 Hp Hcall Hs Hla Hl Hin w'.
  subst w'. rewrite (refresh_run p w info c a provider s) by done.
  rewrite read_deployed by done.
  change (ledger (reading w)) with (ledger w).
  assert (Hsub : hasSubmitted_at (ledger w) (account (Hook.signer_address s))
                 = false).
  { rewrite Hl. apply not_true_is_false. intros E. apply Hin.
    by apply (reachable_index this fromExternal FHE_max cs). }
  unfold getPlayerResult. rewrite Hsub.
  unfold refresh_rejected.
  set (m := call_exception "Player has not submitted a result").
  assert (Hm : includes m "not submitted" = true).
  { apply (includes_trans _ "Player has not submitted a result");
      [apply Hq | by vm_compute]. }
  assert (Ht : Hook.truthy (Some m) = true).
  { unfold Hook.truthy. destruct (String.eqb_spec m "") as [E | _]; [| done].
    rewrite E in Hm. by vm_compute in Hm. }
  by rewrite Ht, Hm.
Qed.

(** X23.  When the active chain or the target in [linkMatchRef.current] is
    no longer the one the refresh started with, the handle that was read
    is dropped: [playerResultHandle] and the message stay as they were,
    and the flags are cleared. *)
Theorem refresh_discards_a_late_answer
    (p : Props) (w : World) (info : LinkMatchInfoType)
    (c : N) (a : string) (provider : ContractRunner)
    (s : Hook.JsonRpcSigner) :
  isRefreshingRef w = false ->
  linkMatchRef (env w) = Some info ->
  info_chainId info = Some c -> c <> 0%N ->
  info_address info = Some a -> a <> "" ->
  ethersReadonlyProvider p = Some provider -> has_call provider = true ->
  ethersSigner p = Some s ->
  ledger_address w = a ->
  hasSubmitted_at (ledger w) (account (Hook.signer_address s)) = true ->
  active_chainId (env (resume (resume w))) <> Some c \/
  ref_address (env (resume (resume w))) <> Some a ->
  let w' := refresh p w in
  playerResultHandle w' = playerResultHandle w /\
  message w' = message w /\
  isRefreshingRef w' = false /\ isRefreshing w' = false.
Proof.
  intros Hf Hi Hc Hc0 Ha Ha0 Hp Hcall Hs Hla Hsub Hlate w'.
  subst w'. rewrite (refresh_run p w info c a provider s) by done.
  rewrite read_deployed by done.
  change (ledger (reading w)) with (ledger w).
  unfold getPlayerResult. rewrite Hsub.
  unfold refresh_resolved.
  change (env (reading w)) with (env (resume (resume w))).
  assert (E : sameChain c (env (resume (resume w)))
              && Hook.strict_eq (Some a) (ref_address (env (resume (resume w))))
              = false).
  { apply not_true_is_false. rewrite andb_true_iff.
    unfold sameChain. rewrite strict_eq_num_true, strict_eq_true.
    intros [E1 E2]. destruct Hlate as [H | H]; congruence. }
  by rewrite E.
Qed.

(** X24.  The effect that loads [hasSubmitted] ends with the flag set
    exactly for a signer whose account sent an accepted submission. *)
Theorem submitted_flag_matches_the_ledger
    (p : Props) (w : World) (cs : list call) (a : string)
    (s : Hook.JsonRpcSigner) :
  info_address (linkMatch p) = Some a -> a <> "" ->
  ethersSigner p = Some s ->
  (forall provider, ethersReadonlyProvider p = Some provider ->
     has_call provider = true) ->
  ledger_address w = a ->
  ledger w = run init cs ->
  let w' := load_hasSubmitted p w in
  (hasSubmitted w' = true <-> account (Hook.signer_address s) ∈ senders cs) /\
  playerResultHandle w' = playerResultHandle w /\
  ledger w' = ledger w.
Proof.
  intros Ha Ha0 Hs Hp Hla Hl w'. subst w'.
  unfold hasSubmitted_effect. rewrite Ha, Hs. unfold Hook.truthy.
  destruct (String.eqb_spec a "") as [-> | _]; [done |]. cbn [negb].
  rewrite read_deployed; [| | done].
  2: { destruct (ethersReadonlyProvider p) as [provider |]; [| done].
       by apply Hp. }
  cbn [setHasSubmitted resume hasSubmitted playerResultHandle ledger].
  split; [| done]. rewrite Hl.
  apply (reachable_index this fromExternal FHE_max cs).
Qed.

Lemma zip_with_map_r {A B C : Type} (f : A -> B -> C) (g : A -> B)
    (l : list A) :
  zip_with f l (map g l) = map (fun a => f a (g a)) l.
Proof. induction l as [| a l IH]; simpl; [done | by rewrite IH]. Qed.

(** What [fetchLeaderboard] builds from the two arrays the contract
    returns. *)
Lemma leaderboard_rows (st : state) :
  let decoded := getAllEncryptedScores st in
  let encryptedScores :=
    map (fun h => match decoded_handle h with
                  | HexString s => s
                  | ByteArray b => hexlify b
                  end) (snd decoded) in
  take 10 (imap (fun index address => mkRow address (encryptedScores !! index))
             (map checksum (fst decoded)))
  = map (row_of checksum decoded_handle hexlify st) (take 10 (players st)).
Proof.
  cbv zeta. rewrite getAllEncryptedScores_spec. cbn [fst snd].
  rewrite imap_lookup_zip by (by rewrite !length_map).
  rewrite !map_map.
  generalize 10. generalize (players st). intros l.
  induction l as [| q l IH]; intros [| n]; simpl; try done.
  by rewrite IH.
Qed.

(** Past its guards, [fetchLeaderboard] with a provider that can call. *)
Lemma leaderboard_run (p : Props) (w : World) (a : string)
    (provider : ContractRunner) :
  info_address (linkMatch p) = Some a -> a <> "" ->
  ethersReadonlyProvider p = Some provider -> has_call provider = true ->
  let w1 := resume (setMessage "Loading leaderboard..."
                      (setIsLoadingLeaderboard true w)) in
  load_leaderboard p w =
    setIsLoadingLeaderboard false
      match read provider a w1 (fun st => Ok (getAllEncryptedScores st)) with
      | Hook.Return decoded =>
          if Nat.eqb (length (map checksum (fst decoded))) 0 then
            setMessage "No players found" (setLeaderboard [] w1)
          else
            let rows := map (row_of checksum decoded_handle hexlify (ledger w))
                            (take 10 (players (ledger w))) in
            setMessage ("Leaderboard loaded (ciphertext): "
                          ++ toString (N.of_nat (length rows)) ++ " players")
              (setLeaderboard rows w1)
      | Hook.Throw e =>
          setLeaderboard []
            (setMessage ("Failed to load leaderboard: " ++ print_error e) w1)
      end.
Proof.
  intros Ha Ha0 Hp Hcall w1. subst w1.
  unfold fetchLeaderboard. rewrite Ha, Hp, Hcall. unfold Hook.truthy.
  destruct (String.eqb_spec a "") as [-> | _]; [done |]. cbn [negb].
  f_equal. unfold eth_call. rewrite Hcall. cbn [negb].
  destruct (negb (String.eqb a _)); [done |].
  change (ledger (resume (setMessage "Loading leaderboard..."
                            (setIsLoadingLeaderboard true w))))
    with (ledger w).
  destruct (Nat.eqb _ 0); [done |].
  by rewrite (leaderboard_rows (ledger w)).
Qed.

(** X25.  The leaderboard is the first ten participants in the order of
    their first accepted submission, not in the order of their scores,
    each with the stored handle; the message counts the rows, or says
    that there are no players. *)
Theorem leaderboard_lists_first_ten_participants
    (p : Props) (w : World) (cs : list call) (a : string)
    (provider : ContractRunner) :
  info_address (linkMatch p) = Some a -> a <> "" ->
  ethersReadonlyProvider p = Some provider -> has_call provider = true ->
  ledger_address w = a ->
  ledger w = run init cs ->
  let participants := first_occurrences (senders cs) in
  let w' := load_leaderboard p w in
  leaderboard w' =
    map (row_of checksum decoded_handle hexlify (ledger w))
        (take 10 participants) /\
  message w' =
    (if decide (participants = []) then "No players found"
     else ("Leaderboard loaded (ciphertext): "
             ++ toString (N.of_nat (min 10 (length participants)))
             ++ " players")%string) /\
  isLoadingLeaderboard w' = false.
Proof.
  intros Ha Ha0 Hp Hcall Hla Hl participants w'. subst w'.
  rewrite (leaderboard_run p w a provider) by done. cbv zeta.
  rewrite read_deployed by done.
  change (ledger (resume (setMessage "Loading leaderboard..."
                            (setIsLoadingLeaderboard true w))))
    with (ledger w).
  rewrite getAllEncryptedScores_spec. cbn [fst].
  assert (Hps : players (ledger w) = participants).
  { rewrite Hl. apply (reachable_index this fromExternal FHE_max cs). }
  rewrite Hps, length_map.
  destruct participants as [| q l] eqn:E.
  - done.
  - cbn [length Nat.eqb]. rewrite decide_False by done.
    cbn [setIsLoadingLeaderboard setMessage setLeaderboard resume
         leaderboard message isLoadingLeaderboard].
    split; [done |]. split; [| done].
    by rewrite length_map, length_take.
Qed.

(** X26.  [fetchLeaderboard] reads the ledger and never writes it, leaves
    the player's handle and the refreshing flag alone, never leaves the
    loading flag set, and a list it stores has at most ten rows, each with
    a handle. *)
Theorem leaderboard_load_is_read_only (p : Props) (w : World) :
  let w' := load_leaderboard p w in
  ledger w' = ledger w /\
  playerResultHandle w' = playerResultHandle w /\
  isRefreshingRef w' = isRefreshingRef w /\
  hasSubmitted w' = hasSubmitted w /\
  (w' = w \/ isLoadingLeaderboard w' = false) /\
  (leaderboard w' = leaderboard w \/
   (length (leaderboard w') <= 10 /\
    forall row, row ∈ leaderboard w' -> is_Some (encryptedScore row))).
Proof.
  intros w'. subst w'.
  destruct (info_address (linkMatch p)) as [a |] eqn:Ha.
  2: { unfold fetchLeaderboard. rewrite Ha. repeat split; by left. }
  destruct (ethersReadonlyProvider p) as [provider |] eqn:Hp.
  2: { unfold fetchLeaderboard. rewrite Ha, Hp. repeat split; by left. }
  destruct (String.eqb_spec a "") as [-> | Ha0].
  { unfold fetchLeaderboard. rewrite Ha, Hp. repeat split; by left. }
  destruct (has_call provider) eqn:Hcall.
  2: { unfold fetchLeaderboard. rewrite Ha, Hp, Hcall. unfold Hook.truthy.
       destruct (String.eqb_spec a "") as [-> | _]; [done |]. cbn [negb].
       repeat split; try done; [by right | by left]. }
  rewrite (leaderboard_run p w a provider) by done. cbv zeta.
  destruct (read provider a _ _) as [decoded | e].
  - destruct (Nat.eqb _ 0).
    + repeat split; try done; [by right |]. right. split; [simpl; lia |].
      intros row Hrow. simpl in Hrow. by apply elem_of_nil in Hrow.
    + repeat split; try done; [by right |]. right.
      cbn [setIsLoadingLeaderboard setMessage setLeaderboard leaderboard].
      split.
      * rewrite length_map, length_take. lia.
      * intros row Hrow. apply list_elem_of_In, in_map_iff in Hrow.
        destruct Hrow as (q & <- & _). by eexists.
  - repeat split; try done; [by right |]. right. split; [simpl; lia |].
    intros row Hrow. simpl in Hrow. by apply elem_of_nil in Hrow.
Qed.

(** X27.  When there is no contract at the address the leaderboard is
    loaded from, the rows shown so far are dropped, the message reports
    the failure, and the loading flag is cleared. *)
Theorem leaderboard_failure_clears_the_list
    (p : Props) (w : World) (a : string) (provider : ContractRunner) :
  info_address (linkMatch p) = Some a -> a <> "" ->
  ethersReadonlyProvider p = Some provider -> has_call provider = true ->
  ledger_address w <> a ->
  let w' := load_leaderboard p w in
  leaderboard w' = [] /\
  message w' = ("Failed to load leaderboard: " ++ print_error bad_data)%string /\
  isLoadingLeaderboard w' = false.
Proof.
  intros Ha Ha0 Hp Hcall Hla w'. subst w'.
  rewrite (leaderboard_run p w a provider) by done. cbv zeta.
  by rewrite read_elsewhere by done.
Qed.

End ViewFacts.
(** * The board of the game *)

Lemma seq_from (a n : nat) : seq a n = map (fun i => a + i) (seq 0 n).
Proof.
  revert a. induction n as [| n IH]; intros a; [done |].
  cbn [seq map]. rewrite Nat.add_0_r. f_equal.
  rewrite (IH (S a)), (IH 1), map_map. apply map_ext. intros i. lia.
Qed.

Lemma map_nth_seq {A : Type} (d : A) (s : list A) :
  map (fun i => nth i s d) (seq 0 (length s)) = s.
Proof.
  induction s as [| x s IH]; [done |].
  cbn [length seq map nth]. f_equal.
  rewrite (seq_from 1), map_map. exact IH.
Qed.

Lemma rows_of_cells {A : Type} (g : nat -> nat -> nat -> A) (ROWS COLS : nat) :
  flat_map (fun row => map (fun col => g (row * COLS + col) row col)
                           (seq 0 COLS))
           (seq 0 ROWS)
  = map (fun i => g i (i / COLS) (i mod COLS)) (seq 0 (ROWS * COLS)).
Proof.
  induction ROWS as [| r IH]; [done |].
  rewrite seq_S, flat_map_app, IH. cbn [flat_map Nat.add].
  rewrite app_nil_r.
  replace (S r * COLS) with (r * COLS + COLS) by lia.
  rewrite seq_app, map_app. f_equal.
  cbn [Nat.add]. rewrite (seq_from (r * COLS)), map_map.
  apply map_ext_in. intros col Hcol. apply in_seq in Hcol.
  rewrite (Nat.add_comm (r * COLS) col).
  rewrite Nat.div_add, Nat.Div0.mod_add by lia.
  rewrite Nat.div_small, Nat.mod_small by lia.
  by rewrite (Nat.add_comm col).
Qed.

Lemma length_pairs (f : nat -> nat) (l : list nat) :
  length (flat_map (fun i => [f i; f i]) l) = 2 * length l.
Proof. induction l as [| i l IH]; simpl; [done | rewrite IH; lia]. Qed.

Lemma length_values (TOTAL_CELLS : nat) :
  length (Game.values TOTAL_CELLS) = TOTAL_CELLS.
Proof.
  unfold Game.values. rewrite length_app, length_pairs, length_seq.
  pose proof (Nat.div_mod_eq TOTAL_CELLS 2) as E.
  assert (B : TOTAL_CELLS mod 2 < 2) by (apply Nat.mod_upper_bound; lia).
  destruct (Nat.eqb_spec (TOTAL_CELLS mod 2) 1); cbn [length]; lia.
Qed.

(** Each of the first [n] patterns is pushed twice, while [n] does not
    exceed the number of patterns. *)
Lemma count_pairs (n v : nat) :
  n <= length Game.PATTERNS ->
  count_occ Nat.eq_dec
    (flat_map (fun i => let patternIndex := i mod length Game.PATTERNS + 1 in
                        [patternIndex; patternIndex]) (seq 0 n)) v
  = if ((1 <=? v) && (v <=? n))%nat then 2 else 0.
Proof.
  induction n as [| n IH]; intros Hn.
  - simpl. destruct v; [done |]. by rewrite andb_false_r.
  - rewrite seq_S, flat_map_app, count_occ_app, IH by lia.
    cbn [Nat.add flat_map]. rewrite app_nil_r, Nat.mod_small by lia.
    cbn [count_occ].
    destruct (Nat.eq_dec (n + 1) v) as [<- | Hne].
    + replace (1 <=? n + 1)%nat with true by (symmetry; apply Nat.leb_le; lia).
      replace (n + 1 <=? n)%nat with false by (symmetry; apply Nat.leb_gt; lia).
      replace (n + 1 <=? S n)%nat with true by (symmetry; apply Nat.leb_le; lia).
      done.
    + destruct (Nat.leb_spec 1 v), (Nat.leb_spec v n), (Nat.leb_spec v (S n));
        simpl; lia.
Qed.

Section GameFacts.

Import Game.

Variable shuffle : list nat -> list nat.

(** Whatever order the comparator of [sort] produces, the array keeps its
    elements. *)
Hypothesis shuffle_permutes : forall l, Permutation (shuffle l) l.

Lemma grid_cells (ROWS COLS : nat) :
  generateGrid shuffle ROWS COLS =
    map (fun i => mkCell i (nth i (shuffle (values (ROWS * COLS))) 0)
                    (i / COLS) (i mod COLS))
        (seq 0 (ROWS * COLS)).
Proof.
  unfold generateGrid. cbv zeta.
  exact (rows_of_cells
           (fun i row col =>
              mkCell i (nth i (shuffle (values (ROWS * COLS))) 0) row col)
           ROWS COLS).
Qed.

Lemma grid_values (ROWS COLS : nat) :
  map value (generateGrid shuffle ROWS COLS) = shuffle (values (ROWS * COLS)).
Proof.
  rewrite grid_cells, map_map. cbn [value].
  set (s := shuffle (values (ROWS * COLS))).
  assert (E : ROWS * COLS = length s)
    by (by unfold s; rewrite (Permutation_length (shuffle_permutes _)),
             length_values).
  rewrite E. apply map_nth_seq.
Qed.

(** X28.  The board has one cell per position, numbered row by row, and
    its values are the generated pairs in some order. *)
Theorem grid_is_a_shuffled_board (ROWS COLS : nat) :
  let grid := generateGrid shuffle ROWS COLS in
  length grid = ROWS * COLS /\
  map id grid = seq 0 (ROWS * COLS) /\
  (forall c, In c grid ->
     row c < ROWS /\ col c < COLS /\ id c = row c * COLS + col c) /\
  Permutation (map value grid) (values (ROWS * COLS)).
Proof.
  intros grid. subst grid. split; [| split; [| split]].
  - by rewrite grid_cells, length_map, length_seq.
  - rewrite grid_cells, map_map. cbn [id]. apply map_id.
  - intros c Hc. rewrite grid_cells in Hc. apply in_map_iff in Hc.
    destruct Hc as (i & <- & Hi). apply in_seq in Hi. cbn [row col id].
    assert (COLS <> 0) by (intros ->; lia).
    split; [apply Nat.Div0.div_lt_upper_bound; lia |].
    split; [by apply Nat.mod_upper_bound |].
    rewrite (Nat.div_mod_eq i COLS) at 1. lia.
  - rewrite grid_values. apply shuffle_permutes.
Qed.

Lemma difficulty_values (d : Difficulty) :
  let ROWS := fst (DIFFICULTY_CONFIG d) in
  let COLS := snd (DIFFICULTY_CONFIG d) in
  ROWS * COLS / 2 <= length PATTERNS /\
  values (ROWS * COLS) =
    flat_map (fun i => let patternIndex := i mod length PATTERNS + 1 in
                       [patternIndex; patternIndex])
             (seq 0 (ROWS * COLS / 2)).
Proof.
  destruct d; (split; [vm_compute; lia | by vm_compute]).
Qed.

(** X29.  At every difficulty each pattern index from 1 to half the number
    of cells is on the board exactly twice and no other value is, so no
    cell starts eliminated and every cell shows an emoji. *)
Theorem every_tile_has_one_partner (d : Difficulty) :
  let ROWS := fst (DIFFICULTY_CONFIG d) in
  let COLS := snd (DIFFICULTY_CONFIG d) in
  let grid := generateGrid shuffle ROWS COLS in
  (forall v, count_occ Nat.eq_dec (map value grid) v =
             if ((1 <=? v) && (v <=? ROWS * COLS / 2))%nat then 2 else 0) /\
  (forall c, In c grid ->
     1 <= value c <= ROWS * COLS / 2 /\
     is_Some (getPatternDisplay (value c))).
Proof.
  intros ROWS COLS grid.
  destruct (difficulty_values d) as [Hn Hv]. fold ROWS COLS in Hn, Hv.
  assert (Hcount : forall v, count_occ Nat.eq_dec (map value grid) v =
             if ((1 <=? v) && (v <=? ROWS * COLS / 2))%nat then 2 else 0).
  { intros v. subst grid. rewrite grid_values.
    rewrite (proj1 (Permutation_count_occ Nat.eq_dec _ _)
               (shuffle_permutes (values (ROWS * COLS))) v).
    rewrite Hv. by apply count_pairs. }
  split; [exact Hcount |].
  intros c Hc.
  assert (Hin : In (value c) (map value grid)) by (by apply in_map).
  apply (count_occ_In Nat.eq_dec) in Hin. rewrite Hcount in Hin.
  destruct (Nat.leb_spec 1 (value c)); [| simpl in Hin; lia].
  destruct (Nat.leb_spec (value c) (ROWS * COLS / 2)); [| simpl in Hin; lia].
  split; [lia |].
  unfold getPatternDisplay.
  destruct (Nat.eqb_spec (value c) 0); [lia |].
  apply lookup_lt_is_Some. lia.
Qed.

(** X30.  On the easy board two cells show the same emoji only if they
    have the same value; on the medium and the hard board there are two
    cells that show the same emoji and have different values, which the
    game does not accept as a pair. *)
Theorem same_picture_need_not_match (d : Difficulty) :
  let ROWS := fst (DIFFICULTY_CONFIG d) in
  let COLS := snd (DIFFICULTY_CONFIG d) in
  let grid := generateGrid shuffle ROWS COLS in
  match d with
  | easy =>
      forall c1 c2, In c1 grid -> In c2 grid ->
        getPatternDisplay (value c1) = getPatternDisplay (value c2) ->
        value c1 = value c2
  | medium | hard =>
      exists c1 c2, In c1 grid /\ In c2 grid /\
        value c1 <> value c2 /\
        getPatternDisplay (value c1) = getPatternDisplay (value c2) /\
        is_Some (getPatternDisplay (value c1))
  end.
Proof.
  intros ROWS COLS grid.
  assert (Hperm : Permutation (map value grid) (values (ROWS * COLS))).
  { subst grid. rewrite grid_values. apply shuffle_permutes. }
  assert (Hcell : forall v, In v (values (ROWS * COLS)) ->
            exists c, In c grid /\ value c = v).
  { intros v Hv. apply (Permutation_in _ (Permutation_sym Hperm)) in Hv.
    apply in_map_iff in Hv. destruct Hv as (c & <- & Hc). by exists c. }
  assert (Hvalue : forall c, In c grid -> In (value c) (values (ROWS * COLS))).
  { intros c Hc. apply (Permutation_in _ Hperm). by apply in_map. }
  destruct d.
  - intros c1 c2 H1 H2 E. apply Hvalue in H1, H2.
    revert E. generalize dependent (value c2). generalize dependent (value c1).
    intros v1 H1 v2 H2.
    vm_compute in H1, H2.
    repeat (destruct H1 as [<- | H1]; [| try contradiction]);
    repeat (destruct H2 as [<- | H2]; [| try contradiction]);
    vm_compute; congruence.
  - destruct (Hcell 6) as (c1 & H1 & E1); [vm_compute; tauto |].
    destruct (Hcell 17) as (c2 & H2 & E2); [vm_compute; tauto |].
    exists c1, c2. rewrite E1, E2. repeat split; first [done | by eexists].
  - destruct (Hcell 6) as (c1 & H1 & E1); [vm_compute; tauto |].
    destruct (Hcell 17) as (c2 & H2 & E2); [vm_compute; tauto |].
    exists c1, c2. rewrite E1, E2. repeat split; first [done | by eexists].
Qed.

End GameFacts.

(** * Sample runs of the further properties *)

Section MoreSampleRuns.

Local Abbreviation sample_run :=
  (LinkMatch.exec Sample.this Sample.fromExternal Sample.FHE_max).
Local Abbreviation sample_submit :=
  (Hook.submitGameResult Sample.this Sample.fromExternal Sample.FHE_max
     Sample.encrypt Sample.account Sample.tx_hash).
Local Abbreviation sample_decrypt :=
  (Hook.decryptPlayerResult Sample.loadOrSign Sample.userDecrypt).

Lemma sample_alice_submitted :
  Sample.alice ∈ LinkMatch.accepted_senders Sample.fromExternal Sample.history.
Proof. rewrite sample_accepted_senders. apply list_elem_of_here. Qed.

(** Alice's resubmission leaves Bob's record as it was. *)
Lemma submit_frame_witness :
  LinkMatch.playerResults_at Sample.final_again Sample.bob
    = LinkMatch.playerResults_at Sample.final Sample.bob /\
  LinkMatch.events Sample.final_again
    = LinkMatch.events Sample.final
        ++ [LinkMatch.GameResultSubmitted Sample.alice 105] /\
  LinkMatch.hasSubmitted_at Sample.final_again Sample.alice = true.
Proof.
  destruct (submit_frame Sample.this Sample.fromExternal Sample.FHE_max
              Sample.final Sample.final_again Sample.again)
    as (H1 & _ & H3 & _ & H5).
  - vm_compute. reflexivity.
  - split; [apply (H1 Sample.bob); discriminate |].
    split; [exact H3 | exact H5].
Defined.

(** Alice can read her record and is allowed to decrypt it. *)
Lemma every_record_is_decryptable_witness :
  let h := LinkMatch.score (LinkMatch.playerResults_at Sample.final Sample.alice) in
  LinkMatch.getPlayerResult Sample.final Sample.alice = Ok h /\
  (h, Sample.alice) ∈ LinkMatch.acl Sample.final /\
  (h, Sample.this) ∈ LinkMatch.acl Sample.final.
Proof.
  exact (every_record_is_decryptable Sample.this Sample.fromExternal
           Sample.FHE_max Sample.history Sample.alice sample_alice_submitted).
Defined.

(** The second entry of the enumeration is Bob with his handle. *)
Lemma enumeration_agrees_with_getters_witness :
  LinkMatch.getPlayerByIndex Sample.final (N.of_nat 1) = Ok Sample.bob /\
  exists h,
    snd (LinkMatch.getAllEncryptedScores Sample.final) !! 1 = Some h /\
    LinkMatch.getPlayerResult Sample.final Sample.bob = Ok h.
Proof.
  apply (enumeration_agrees_with_getters Sample.this Sample.fromExternal
           Sample.FHE_max Sample.history 1 Sample.bob).
  vm_compute. reflexivity.
Defined.

(** Alice's best score does not go down when she submits 9 after 15. *)
Lemma best_never_decreases_witness :
  (LinkMatch.stored_plaintext Sample.decrypt Sample.final Sample.alice
   <= LinkMatch.stored_plaintext Sample.decrypt
        (sample_run Sample.final [Sample.again]) Sample.alice)%Z.
Proof.
  destruct (best_never_decreases Sample.this Sample.fromExternal
              Sample.FHE_max Sample.decrypt (fun a b => N2Z.inj_max a b)
              Sample.final Sample.alice [Sample.again])
    as [H _].
  - vm_compute. reflexivity.
  - exact H.
Defined.


(** The sample submission is recorded for Alice. *)
Lemma accepted_submission_is_recorded_witness :
  let w' := snd (sample_submit (Sample.render None) Sample.game Sample.world0) in
  LinkMatch.checkPlayerSubmitted (Hook.ledger w') Sample.alice = true.
Proof.
  destruct (LinkMatch.submitGameResult Sample.this Sample.fromExternal
              Sample.FHE_max (Hook.ledger Sample.world0)
              (Runs.sent_call Sample.account Sample.alice_signer Sample.world0
                 (375%N, [1%N]))) as [st' | reason] eqn:E;
    [| vm_compute in E; discriminate].
  destruct (accepted_submission_is_recorded Sample.this Sample.fromExternal
              Sample.FHE_max Sample.encrypt Sample.account Sample.tx_hash
              (Sample.render None) Sample.game Sample.world0
              Sample.ledger_at Sample.alice_signer (375%N, [1%N]) st')
    as (_ & H & _).
  - vm_compute. reflexivity.
  - reflexivity.
  - reflexivity.
  - vm_compute. reflexivity.
  - vm_compute. reflexivity.
  - vm_compute. reflexivity.
  - reflexivity.
  - exact E.
  - exact H.
Defined.

(** The user declines to sign: the backend is not called. *)
Lemma declined_authorization_stops_decryption_witness :
  Hook.clearResultRef
    (snd (Hook.decryptPlayerResult SampleMore.declined Sample.userDecrypt
            (Sample.render (Some Sample.handle1)) Sample.world0)) = None.
Proof.
  rewrite (declined_authorization_stops_decryption SampleMore.declined
             Sample.userDecrypt (Sample.render (Some Sample.handle1))
             Sample.world0 Sample.ledger_at Sample.handle1 Sample.alice_signer).
  - reflexivity.
  - vm_compute. reflexivity.
  - reflexivity.
  - reflexivity.
  - reflexivity.
  - discriminate.
  - discriminate.
  - reflexivity.
Defined.

(** A short handle is rejected after the authorization was obtained. *)
Lemma malformed_handle_is_not_decrypted_witness :
  let r := Sample.render (Some SampleMore.short_handle) in
  Hook.clearResultRef (snd (sample_decrypt r Sample.world0))
    = Hook.clearResultRef Sample.world0.
Proof.
  intros r.
  destruct (malformed_handle_is_not_decrypted Sample.loadOrSign
              Sample.userDecrypt r Sample.world0 Sample.ledger_at
              SampleMore.short_handle Sample.alice_signer Sample.sig)
    as (_ & H & _).
  - vm_compute. reflexivity.
  - reflexivity.
  - reflexivity.
  - reflexivity.
  - discriminate.
  - discriminate.
  - vm_compute. reflexivity.
  - reflexivity.
  - vm_compute. reflexivity.
  - exact H.
Defined.

(** The sample decryption caches the relayer's answer under the handle. *)
Lemma decrypted_value_is_cached_witness :
  let r := Sample.render (Some Sample.handle1) in
  Hook.cached_handle (Hook.clearResultRef (snd (sample_decrypt r Sample.world0)))
    = Hook.playerResultHandle r.
Proof.
  intros r.
  destruct (decrypted_value_is_cached Sample.loadOrSign Sample.userDecrypt
              r Sample.world0 Sample.ledger_at Sample.handle1
              Sample.alice_signer Sample.sig
              (SampleMore.answer Sample.handle1))
    as (_ & _ & H & _).
  - vm_compute. reflexivity.
  - reflexivity.
  - reflexivity.
  - reflexivity.
  - discriminate.
  - vm_compute. reflexivity.
  - reflexivity.
  - reflexivity.
  - vm_compute. reflexivity.
  - vm_compute. reflexivity.
  - exact H.
Defined.

End MoreSampleRuns.
Section ViewSampleRuns.

Import View.

Local Abbreviation sample_refresh :=
  (refreshPlayerResult Sample.account SampleView.returned_handle SampleView.hex
     SampleView.call_exception SampleView.bad_data
     SampleView.unsupported_operation SampleView.print_error).
Local Abbreviation sample_leaderboard :=
  (fetchLeaderboard SampleView.checksum SampleView.decoded_handle
     SampleView.hex SampleView.call_exception SampleView.bad_data
     SampleView.unsupported_operation SampleView.print_error).

Lemma string_app_nil_r (s : string) : (s ++ "")%string = s.
Proof.
  induction s as [| c s IH]; [done |].
  change (String c (s ++ "") = String c s). by f_equal.
Qed.

Lemma sample_quotes_reason (reason : string) :
  includes (SampleView.call_exception reason) reason = true.
Proof.
  apply includes_spec. exists "execution reverted: ", "".
  by rewrite string_app_nil_r.
Qed.

(** After the sample history Alice's refresh shows the handle of 15. *)
Lemma refresh_shows_the_stored_handle_witness :
  let w := SampleView.world [] Sample.final Sample.ledger_at in
  let w' := sample_refresh (SampleView.props Sample.alice_signer) w in
  playerResultHandle w' =
    Some "0x000000000000000000000000000000000000000000000000000000000000000f" /\
  isRefreshingRef w' = false.
Proof.
  intros w w'.
  destruct (refresh_shows_the_stored_handle Sample.this Sample.fromExternal
              Sample.FHE_max Sample.account SampleView.returned_handle
              SampleView.hex SampleView.call_exception SampleView.bad_data
              SampleView.unsupported_operation SampleView.print_error
              (SampleView.props Sample.alice_signer) w Sample.history
              SampleView.sepolia 11155111%N Sample.ledger_at
              SampleView.provider Sample.alice_signer
              "0x000000000000000000000000000000000000000000000000000000000000000f")
    as (H1 & _ & H3 & _).
  - reflexivity.
  - reflexivity.
  - vm_compute. reflexivity.
  - discriminate.
  - vm_compute. reflexivity.
  - discriminate.
  - reflexivity.
  - reflexivity.
  - reflexivity.
  - reflexivity.
  - reflexivity.
  - rewrite sample_accepted_senders. apply list_elem_of_here.
  - vm_compute. reflexivity.
  - vm_compute. reflexivity.
  - reflexivity.
  - vm_compute. reflexivity.
  - split; [exact H1 | exact H3].
Defined.

(** Before Bob's first submission his refresh finds nothing. *)
Lemma refresh_without_a_record_witness :
  let w := SampleView.world [] SampleView.early_ledger Sample.ledger_at in
  let w' := sample_refresh (SampleView.props Sample.bob_signer) w in
  playerResultHandle w' = None /\ message w' = message w.
Proof.
  intros w w'.
  destruct (refresh_without_a_record Sample.this Sample.fromExternal
              Sample.FHE_max Sample.account SampleView.returned_handle
              SampleView.hex SampleView.call_exception SampleView.bad_data
              SampleView.unsupported_operation SampleView.print_error
              (SampleView.props Sample.bob_signer) w SampleView.early
              SampleView.sepolia 11155111%N Sample.ledger_at
              SampleView.provider Sample.bob_signer)
    as (H1 & H2 & _).
  - exact sample_quotes_reason.
  - reflexivity.
  - reflexivity.
  - vm_compute. reflexivity.
  - discriminate.
  - vm_compute. reflexivity.
  - discriminate.
  - reflexivity.
  - reflexivity.
  - reflexivity.
  - reflexivity.
  - reflexivity.
  - intros Hin. vm_compute in Hin.
    apply elem_of_cons in Hin as [E | Hin]; [discriminate |].
    apply elem_of_cons in Hin as [E | Hin]; [discriminate |].
    by apply elem_of_nil in Hin.
  - split; [exact H1 | exact H2].
Defined.

(** The wallet moves to another chain while Alice's handle is read. *)
Lemma refresh_discards_a_late_answer_witness :
  let w := SampleView.world [SampleView.env0; SampleView.env_other_chain]
             Sample.final Sample.ledger_at in
  let w' := sample_refresh (SampleView.props Sample.alice_signer) w in
  playerResultHandle w' = None /\ isRefreshingRef w' = false.
Proof.
  intros w w'.
  destruct (refresh_discards_a_late_answer Sample.account
              SampleView.returned_handle
              SampleView.hex SampleView.call_exception SampleView.bad_data
              SampleView.unsupported_operation SampleView.print_error
              (SampleView.props Sample.alice_signer) w
              SampleView.sepolia 11155111%N Sample.ledger_at
              SampleView.provider Sample.alice_signer)
    as (H1 & _ & H3 & _).
  - reflexivity.
  - reflexivity.
  - vm_compute. reflexivity.
  - discriminate.
  - vm_compute. reflexivity.
  - discriminate.
  - reflexivity.
  - reflexivity.
  - reflexivity.
  - reflexivity.
  - vm_compute. reflexivity.
  - left. discriminate.
  - split; [exact H1 | exact H3].
Defined.

(** After the sample history Alice is marked as having submitted. *)
Lemma submitted_flag_matches_the_ledger_witness :
  let w := SampleView.world [] Sample.final Sample.ledger_at in
  hasSubmitted
    (hasSubmitted_effect Sample.account SampleView.call_exception
       SampleView.bad_data SampleView.unsupported_operation
       (SampleView.props Sample.alice_signer) w) = true.
Proof.
  intros w.
  destruct (submitted_flag_matches_the_ledger Sample.this Sample.fromExternal
              Sample.FHE_max Sample.account SampleView.call_exception
              SampleView.bad_data SampleView.unsupported_operation
              (SampleView.props Sample.alice_signer) w Sample.history
              Sample.ledger_at Sample.alice_signer)
    as ([_ H] & _).
  - vm_compute. reflexivity.
  - discriminate.
  - reflexivity.
  - intros provider [= <-]. reflexivity.
  - reflexivity.
  - reflexivity.
  - apply H. rewrite sample_accepted_senders. apply list_elem_of_here.
Defined.

(** The sample leaderboard: Alice, who submitted first, then Bob. *)
Lemma leaderboard_lists_first_ten_participants_witness :
  let w := SampleView.world [] Sample.final Sample.ledger_at in
  let w' := sample_leaderboard (SampleView.props Sample.alice_signer) w in
  leaderboard w' =
    map (Reads.row_of SampleView.checksum SampleView.decoded_handle
           SampleView.hex Sample.final)
        (take 10 (first_occurrences
                    (LinkMatch.accepted_senders Sample.fromExternal
                       Sample.history))) /\
  isLoadingLeaderboard w' = false.
Proof.
  intros w w'.
  destruct (leaderboard_lists_first_ten_participants Sample.this
              Sample.fromExternal Sample.FHE_max SampleView.checksum
              SampleView.decoded_handle
              SampleView.hex SampleView.call_exception SampleView.bad_data
              SampleView.unsupported_operation SampleView.print_error
              (SampleView.props Sample.alice_signer) w Sample.history
              Sample.ledger_at SampleView.provider)
    as (H1 & _ & H3).
  - vm_compute. reflexivity.
  - discriminate.
  - reflexivity.
  - reflexivity.
  - reflexivity.
  - reflexivity.
  - split; [exact H1 | exact H3].
Defined.

(** No ledger at the address the leaderboard is loaded from. *)
Lemma leaderboard_failure_clears_the_list_witness :
  let w := SampleView.world [] Sample.final
             "0x00000000000000000000000000000000000000aa" in
  let w' := sample_leaderboard (SampleView.props Sample.alice_signer) w in
  leaderboard w' = [] /\
  message w' = "Failed to load leaderboard: Error: could not decode result data".
Proof.
  intros w w'.
  destruct (leaderboard_failure_clears_the_list SampleView.checksum
              SampleView.decoded_handle
              SampleView.hex SampleView.call_exception SampleView.bad_data
              SampleView.unsupported_operation SampleView.print_error
              (SampleView.props Sample.alice_signer) w
              Sample.ledger_at SampleView.provider)
    as (H1 & H2 & _).
  - vm_compute. reflexivity.
  - discriminate.
  - reflexivity.
  - reflexivity.
  - discriminate.
  - split; [exact H1 | exact H2].
Defined.

End ViewSampleRuns.

Section GameSampleRuns.

(** A shuffle that reverses the array. *)
Lemma rev_permutes (l : list nat) : Permutation (rev l) l.
Proof. apply Permutation_sym, Permutation_rev. Qed.

Lemma grid_is_a_shuffled_board_witness :
  let grid := Game.generateGrid (@rev nat) 4 4 in
  length grid = 4 * 4 /\
  map Game.id grid = seq 0 (4 * 4) /\
  (forall c, In c grid ->
     Game.row c < 4 /\ Game.col c < 4 /\
     Game.id c = Game.row c * 4 + Game.col c) /\
  Permutation (map Game.value grid) (Game.values (4 * 4)).
Proof.
  exact (grid_is_a_shuffled_board (@rev nat) rev_permutes 4 4).
Defined.

Lemma every_tile_has_one_partner_witness :
  count_occ Nat.eq_dec
    (map Game.value (Game.generateGrid (@rev nat) 6 6)) 17 = 2.
Proof.
  destruct (every_tile_has_one_partner (@rev nat) rev_permutes Game.medium)
    as [H _].
  exact (H 17).
Defined.

Lemma same_picture_need_not_match_witness :
  exists c1 c2,
    In c1 (Game.generateGrid (@rev nat) 8 8) /\
    In c2 (Game.generateGrid (@rev nat) 8 8) /\
    Game.value c1 <> Game.value c2 /\
    Game.getPatternDisplay (Game.value c1)
      = Game.getPatternDisplay (Game.value c2) /\
    is_Some (Game.getPatternDisplay (Game.value c1)).
Proof.
  exact (same_picture_need_not_match (@rev nat) rev_permutes Game.hard).
Defined.

End GameSampleRuns.
